(** * CRM-ENV: organization, user, invitation and audit routes

    A shallow embedding of the Express server of the repository:
    - [server/routes/organizations.js] and [server/routes/users.js]: every
      route handler is a computation in a small state-and-exception monad
      over the relational store; each [await query(sql, params)] is one
      monadic step whose SQL statement is written out as a function on the
      tables it reads or writes;
    - [server/index.js]: the middleware stack, run by a small interpreter
      of Express's [next()] / [next(err)] dispatch.

    Numbers that JavaScript divides ([usage_percentages]) are IEEE doubles
    (primitive floats); ids, counts, limits and timestamps are integers.
    Request bodies are JSON objects with string values; a string is the
    sequence of the UTF-8 bytes of the JavaScript text. SQL compares
    e-mail addresses by the collation the database is created with, which
    is a parameter of the store; the rows of a table come in insertion
    order where the statement gives no ORDER BY, and in an order the
    request's environment picks among the rows that an ORDER BY leaves
    tied. *)

From Stdlib Require Import ZArith String Ascii List Bool Lia.
From Stdlib Require Import Floats.PrimFloat Numbers.Cyclic.Int63.Uint63.
From stdpp Require Import base option list strings gmap sorting.
Import ListNotations.

Local Open Scope string_scope.
Local Open Scope Z_scope.
Local Open Scope list_scope.

(** ** Values *)

(** The argument of a [JSON.stringify] call in the routes: the audit
    snapshots are flat objects of strings. The column stores the text
    [JSON.stringify] prints for the tree. *)
#[warnings="-register-all"]
Inductive json : Type :=
| JNull
| JNum (n : Z)
| JStr (s : string)
| JObj (fields : list (string * json)).

(** [{ k: v }] with [v] possibly [undefined]: [JSON.stringify] drops the
    keys whose value is [undefined]. *)
Definition prop (k : string) (v : option string) : list (string * json) :=
  match v with
  | Some s => [(k, JStr s)]
  | None => []
  end.

(** A parameter bound to a [?] placeholder: a JavaScript number or string. *)
Inductive sqlval : Type :=
| SqlInt (n : Z)
| SqlStr (s : string).

(** What [bcrypt.hash(password, rounds)] returns: the hash is kept symbolic,
    it records the cost factor and the password it was computed from. *)
Inductive pwhash : Type :=
| Bcrypt (rounds : Z) (password : string).

Definition bcrypt_rounds (h : pwhash) : Z :=
  match h with Bcrypt r _ => r end.

(** ** Tables

    One record per table, with the columns the routes read or write. *)

Module Organization.
Record t : Type := mk {
  id : Z;
  name : string;
  plan : option string;
  contact_limit : Z;
  monthly_email_limit : Z
}.
End Organization.

Module User.
Record t : Type := mk {
  id : Z;
  organization_id : Z;
  email : string;
  password_hash : pwhash;
  first_name : string;
  last_name : string;
  role : string;
  status : string
}.

Definition set_role (r : string) (u : t) : t :=
  mk (id u) (organization_id u) (email u) (password_hash u)
     (first_name u) (last_name u) r (status u).

Definition set_status (s : string) (u : t) : t :=
  mk (id u) (organization_id u) (email u) (password_hash u)
     (first_name u) (last_name u) (role u) s.
End User.

Module Invitation.
Record t : Type := mk {
  id : Z;
  organization_id : Z;
  email : string;
  role : string;
  token : string;
  expires_at : Z;
  invited_by : Z;
  accepted_at : option Z
}.

Definition set_accepted_at (a : option Z) (i : t) : t :=
  mk (id i) (organization_id i) (email i) (role i) (token i)
     (expires_at i) (invited_by i) a.
End Invitation.

Module AuditLog.
Record t : Type := mk {
  id : Z;
  organization_id : Z;
  user_id : Z;
  action : string;
  resource_type : string;
  resource_id : option sqlval;
  old_values : option json;
  new_values : option json;
  ip_address : option string;
  timestamp : Z
}.
End AuditLog.

Module Contact.
Record t : Type := mk {
  id : Z;
  organization_id : Z;
  status : string
}.
End Contact.

Module Campaign.
Record t : Type := mk {
  id : Z;
  organization_id : Z;
  send_count : Z;
  sent_at : option Z
}.
End Campaign.

(** The store. [weight_string] is WEIGHT_STRING() of the collation the
    database is created with (deployment/deploy.sh: CREATE DATABASE ...
    CHARACTER SET utf8mb4 COLLATE utf8mb4_unicode_ci): for [=] on a text
    column and for a UNIQUE index, two texts are the same text when their
    weight strings are the same. The function is the database server's and
    is taken as a parameter. Rows are kept in insertion order.
    [organization_settings] has the composite key (organization_id,
    setting_key) that the upsert of PUT /settings relies on. The three
    counters are the AUTO_INCREMENT values of the tables the routes insert
    into without giving an id. *)
Record DB : Type := mkDB {
  weight_string : string -> string;
  organizations : list Organization.t;
  organization_settings : gmap (Z * string) string;
  users : list User.t;
  user_invitations : list Invitation.t;
  audit_logs : list AuditLog.t;
  contacts : list Contact.t;
  campaigns : list Campaign.t;
  next_user_id : Z;
  next_invitation_id : Z;
  next_audit_id : Z
}.

Definition set_organizations (v : list Organization.t) (d : DB) : DB :=
  mkDB (weight_string d) v (organization_settings d) (users d) (user_invitations d)
       (audit_logs d) (contacts d) (campaigns d)
       (next_user_id d) (next_invitation_id d) (next_audit_id d).

Definition set_organization_settings (v : gmap (Z * string) string) (d : DB) : DB :=
  mkDB (weight_string d) (organizations d) v (users d) (user_invitations d)
       (audit_logs d) (contacts d) (campaigns d)
       (next_user_id d) (next_invitation_id d) (next_audit_id d).

Definition set_users (v : list User.t) (n : Z) (d : DB) : DB :=
  mkDB (weight_string d) (organizations d) (organization_settings d) v (user_invitations d)
       (audit_logs d) (contacts d) (campaigns d)
       n (next_invitation_id d) (next_audit_id d).

Definition set_user_invitations (v : list Invitation.t) (n : Z) (d : DB) : DB :=
  mkDB (weight_string d) (organizations d) (organization_settings d) (users d) v
       (audit_logs d) (contacts d) (campaigns d)
       (next_user_id d) n (next_audit_id d).

Definition set_audit_logs (v : list AuditLog.t) (n : Z) (d : DB) : DB :=
  mkDB (weight_string d) (organizations d) (organization_settings d) (users d) (user_invitations d)
       v (contacts d) (campaigns d)
       (next_user_id d) (next_invitation_id d) n.

(** [a = b] on a text column. *)
Definition sql_eq (d : DB) (a b : string) : bool :=
  String.eqb (weight_string d a) (weight_string d b).

(** ** Requests and responses *)

Module AuthUser.
(** [req.user], as the authentication middleware attaches it. *)
Record t : Type := mk {
  id : Z;
  organizationId : Z;
  role : string;
  permissions : list string
}.
End AuthUser.

Module Req.
(** [user] is the identity the bearer token resolves to ([None] when the
    token is missing, invalid or expired). [body] is the parsed JSON
    object with string values, in key order; [params] and [query] are the
    path and query-string parameters, always strings. *)
Record t : Type := mk {
  user : option AuthUser.t;
  ip : string;
  body : list (string * string);
  params : list (string * string);
  query : list (string * string)
}.
End Req.

(** [obj[k]]: [None] is [undefined]. *)
Fixpoint field (k : string) (o : list (string * string)) : option string :=
  match o with
  | [] => None
  | (k', v) :: o' => if String.eqb k k' then Some v else field k o'
  end.

(** Truthiness of a string-or-undefined value: [!v] is [negb (truthy v)]. *)
Definition truthy (v : option string) : bool :=
  match v with
  | Some s => negb (String.eqb s "")
  | None => false
  end.

(** The JSON bodies the routes send. *)
Inductive Body : Type :=
| ErrorBody (error : string)
| AuthFailure
| Message (message : string)
| Invited (message : string) (invitationToken : string)
| OrganizationDetails (o : Organization.t)
    (user_count contact_count campaign_count : Z)
| Usage (contact_limit monthly_email_limit current_contacts
         emails_sent_this_month : Z) (contacts emails : float)
| AuditPage (logs : list (AuditLog.t * option User.t))
    (page limit total pages : Z)
| Health (timestamp : Z) (environment : string)
| Text (message : string).

Module Res.
Record t : Type := mk {
  status : Z;
  body : Body
}.
End Res.

(** What a request reads from outside the store: the database clock
    ([NOW()], and [DATE_SUB(NOW(), INTERVAL 1 MONTH)]), the server clock
    ([Date.now()]), the next value of [uuidv4()], and [process.env]. All
    times are milliseconds since the epoch. [ORDER_BY] is what the
    database server makes of [ORDER BY al.timestamp DESC] in this request:
    the statement leaves the order of rows with the same timestamp open,
    and the server may settle it differently from one query to the
    next. *)
Record Sys : Type := mkSys {
  NOW : Z;
  NOW_minus_1_month : Z;
  Date_now : Z;
  uuidv4 : string;
  env : list (string * string);
  ORDER_BY : list (AuditLog.t * option User.t)
             -> list (AuditLog.t * option User.t)
}.

(** ** The monad of a handler body

    A handler runs against the store and a fault schedule: the n-th entry
    says whether the n-th [query] of the request is rejected by the driver
    (connection lost, timeout). A rejected [await] throws; what was written
    before stays written, the routes open no transaction. *)

Inductive outcome (A : Type) : Type :=
| Ok (a : A)
| Thrown (e : string).
Arguments Ok {A} a.
Arguments Thrown {A} e.

Record World : Type := mkWorld {
  db : DB;
  faults : list bool
}.

Definition M (A : Type) : Type := World -> outcome A * World.

Definition ret {A} (a : A) : M A := fun w => (Ok a, w).

Definition throw {A} (e : string) : M A := fun w => (Thrown e, w).

Definition bind {A B} (m : M A) (k : A -> M B) : M B :=
  fun w =>
    match m w with
    | (Ok a, w') => k a w'
    | (Thrown e, w') => (Thrown e, w')
    end.

Declare Scope js_scope.
Delimit Scope js_scope with js.
Notation "'await' x <- m 'in' k" := (bind m (fun x => k))
  (at level 10, x name, m at level 100, k at level 200) : js_scope.
Local Open Scope js_scope.

(** [await query(sql, params)]. [stmt] is the meaning of the statement:
    [None] when the server refuses it (a constraint, a negative LIMIT),
    otherwise the result and the new store. *)
Definition query {A} (stmt : DB -> option (A * DB)) : M A :=
  fun w =>
    match faults w with
    | true :: fs => (Thrown "query rejected", mkWorld (db w) fs)
    | fs =>
        match stmt (db w) with
        | Some (a, d) => (Ok a, mkWorld d (tl fs))
        | None => (Thrown "statement refused", mkWorld (db w) (tl fs))
        end
    end.

(** A SELECT cannot be refused and leaves the store alone. *)
Definition select {A} (q : DB -> A) : DB -> option (A * DB) :=
  fun d => Some (q d, d).

(** An INSERT, UPDATE or DELETE without a constraint to violate. *)
Definition exec (f : DB -> DB) : DB -> option (unit * DB) :=
  fun d => Some (tt, f d).

(** [try { ... } catch (error) { res.status(500).json(...) }] *)
Definition try_catch (m : M Res.t) (handler : Res.t) : M Res.t :=
  fun w =>
    match m w with
    | (Ok r, w') => (Ok r, w')
    | (Thrown _, w') => (Ok handler, w')
    end.

Definition respond (status : Z) (b : Body) : M Res.t := ret (Res.mk status b).

(** [res.json(...)] without [res.status]: 200. *)
Definition respond_json (b : Body) : M Res.t := respond 200 b.

(** [req.user] inside a handler: reading a property of [undefined] throws
    a TypeError. *)
Definition req_user (req : Req.t) : M AuthUser.t :=
  match Req.user req with
  | Some u => ret u
  | None => throw "TypeError"
  end.

(** A route: the handler of one request, and the response with the store
    it leaves. *)
Definition Handler : Type := Sys -> Req.t -> M Res.t.

Definition run (h : Handler) (sys : Sys) (req : Req.t) (d : DB)
    (fs : list bool) : Res.t * DB :=
  match h sys req (mkWorld d fs) with
  | (Ok r, w) => (r, db w)
  | (Thrown _, w) => (Res.mk 500 (ErrorBody "Internal server error"), db w)
  end.

(** No query of the request is rejected by the driver. *)
Definition quiet (fs : list bool) : Prop := forallb negb fs = true.

(** ** middleware/auth.js *)

(** Modelled from the spec: [authenticateToken] of middleware/auth.js, which
    is not among the sources. Spec 4.1: a missing, invalid or expired token
    is rejected with 401 before any route logic runs; otherwise the request
    identity is populated. *)
Definition authenticateToken (next : Handler) : Handler :=
  fun sys req =>
    match Req.user req with
    | None => respond 401 AuthFailure
    | Some _ => next sys req
    end.

Definition has_permission (name : string) (u : AuthUser.t) : bool :=
  existsb (String.eqb name) (AuthUser.permissions u).

(** Modelled from the spec: [requirePermission] of middleware/auth.js, which
    is not among the sources. Spec 4.1: composes after authentication and
    rejects with 403 if the resolved permission set lacks [name]. *)
Definition requirePermission (name : string) (next : Handler) : Handler :=
  fun sys req =>
    match Req.user req with
    | None => respond 403 AuthFailure
    | Some u =>
        if has_permission name u then next sys req
        else respond 403 AuthFailure
    end.

(** ** JavaScript and SQL helpers *)

(** [for (const x of xs) { await f(x) }] *)
Fixpoint for_of {A} (xs : list A) (f : A -> M unit) : M unit :=
  match xs with
  | [] => ret tt
  | x :: xs' => await _ <- f x in for_of xs' f
  end.

Definition char_code (c : ascii) : Z := Z.of_nat (nat_of_ascii c).

(** The white space and line terminators of ECMAScript that [parseInt]
    skips, by the bytes of their UTF-8 encoding. One byte: space, TAB, LF,
    VT, FF, CR. *)
Definition is_white_space (c : ascii) : bool :=
  let n := char_code c in
  (n =? 32) || ((9 <=? n) && (n <=? 13)).

(** Two bytes: U+00A0. *)
Definition is_white_space_2 (c1 c2 : ascii) : bool :=
  (char_code c1 =? 194) && (char_code c2 =? 160).

(** Three bytes: U+1680, U+2000 to U+200A, U+2028, U+2029, U+202F, U+205F,
    U+3000 and U+FEFF. *)
Definition is_white_space_3 (c1 c2 c3 : ascii) : bool :=
  let '(n1, n2, n3) := (char_code c1, char_code c2, char_code c3) in
  ((n1 =? 225) && (n2 =? 154) && (n3 =? 128))
  || ((n1 =? 226) && (n2 =? 128)
      && (((128 <=? n3) && (n3 <=? 138))
          || (n3 =? 168) || (n3 =? 169) || (n3 =? 175)))
  || ((n1 =? 226) && (n2 =? 129) && (n3 =? 159))
  || ((n1 =? 227) && (n2 =? 128) && (n3 =? 128))
  || ((n1 =? 239) && (n2 =? 187) && (n3 =? 191)).

Fixpoint trim_start (s : string) : string :=
  match s with
  | String c1 s1 =>
      if is_white_space c1 then trim_start s1
      else
        match s1 with
        | String c2 s2 =>
            if is_white_space_2 c1 c2 then trim_start s2
            else
              match s2 with
              | String c3 s3 =>
                  if is_white_space_3 c1 c2 c3 then trim_start s3 else s
              | EmptyString => s
              end
        | EmptyString => s
        end
  | EmptyString => s
  end.

(** The double nearest to an integer, ties to even: what a JavaScript
    number holds of it. Integers below 2^53 in absolute value are kept.
    (Beyond the largest double, about 1.8e308, JavaScript has Infinity;
    the model keeps the rounded integer.) *)
Definition to_double (n : Z) : Z :=
  let a := Z.abs n in
  let e := Z.log2 a - 52 in
  if e <=? 0 then n
  else
    let q := Z.shiftr a e in
    let r := a - Z.shiftl q e in
    let half := Z.shiftl 1 (e - 1) in
    let q' := if (half <? r) || ((r =? half) && Z.odd q) then q + 1 else q in
    Z.sgn n * Z.shiftl q' e.

Definition digit_value (c : ascii) : option Z :=
  let n := char_code c in
  if (48 <=? n) && (n <=? 57) then Some (n - 48)
  else if (97 <=? n) && (n <=? 122) then Some (n - 87)
  else if (65 <=? n) && (n <=? 90) then Some (n - 55)
  else None.

(** The longest prefix of digits of the radix; [None] when there is none. *)
Fixpoint parse_digits (radix : Z) (acc : option Z) (s : string) : option Z :=
  match s with
  | String c s' =>
      match digit_value c with
      | Some d =>
          if d <? radix
          then parse_digits radix (Some (default 0 acc * radix + d)) s'
          else acc
      | None => acc
      end
  | EmptyString => acc
  end.

(** [parseInt(v)] without a radix; [None] is NaN. [parseInt(undefined)]
    reads the text "undefined", which starts with no digit. The result is
    a JavaScript number: the double nearest to the integer read. *)
Definition parseInt (v : option string) : option Z :=
  match v with
  | None => None
  | Some s =>
      let s := trim_start s in
      let '(sign, s) :=
        match s with
        | String "-"%char s' => (-1, s')
        | String "+"%char s' => (1, s')
        | _ => (1, s)
        end in
      let '(radix, s) :=
        match s with
        | String "0"%char (String "x"%char s') => (16, s')
        | String "0"%char (String "X"%char s') => (16, s')
        | _ => (10, s)
        end in
      match parse_digits radix None s with
      | Some n => Some (to_double (sign * n))
      | None => None
      end
  end.

(** [n || d] on numbers: NaN and 0 are falsy. *)
Definition or_default (n : option Z) (d : Z) : Z :=
  match n with
  | None => d
  | Some 0 => d
  | Some n => n
  end.

(** [Math.ceil(a / b)] for integers and [b] not 0 (exact below 2^53). *)
Definition Math_ceil_div (a b : Z) : Z := - ((- a) / b).

(** An integer column or count as a JavaScript number. *)
Definition Number (z : Z) : float :=
  if z <? 0 then PrimFloat.opp (PrimFloat.of_uint63 (Uint63.of_Z (- z)))
  else PrimFloat.of_uint63 (Uint63.of_Z z).

(** [l LEFT JOIN r ON on]: a left row without a match is kept once, with
    NULLs on the right. *)
Definition left_join {A B} (on : A -> B -> bool) (l : list A) (r : list B)
    : list (A * option B) :=
  flat_map (fun a =>
    match List.filter (on a) r with
    | [] => [(a, None)]
    | m => map (fun b => (a, Some b)) m
    end) l.

(** [COUNT(DISTINCT col)]: NULLs are not counted. *)
Definition count_distinct (col : list (option Z)) : Z :=
  Z.of_nat (length (remove_dups (omap id col))).

(** [COALESCE(SUM(col), 0)]: NULLs are skipped. *)
Definition sum_or_zero (col : list (option Z)) : Z :=
  fold_right Z.add 0 (omap id col).

(** [GROUP BY key]: one group per key, in order of first appearance. *)
Definition group_by {A} (key : A -> Z) (rows : list A) : list (list A) :=
  map (fun k => List.filter (fun r => key r =? k) rows)
      (remove_dups (map key rows)).

(** [INSERT INTO audit_logs (...) VALUES (...)]: the id is the next
    AUTO_INCREMENT value and [timestamp] defaults to the current time;
    columns the statement does not list are NULL. *)
Definition INSERT_INTO_audit_logs (sys : Sys) (organization_id user_id : Z)
    (action resource_type : string) (resource_id : option sqlval)
    (old_values new_values : option json) (ip_address : option string)
    : DB -> option (unit * DB) :=
  exec (fun d =>
    set_audit_logs
      (audit_logs d ++
       [AuditLog.mk (next_audit_id d) organization_id user_id action
          resource_type resource_id old_values new_values ip_address
          (NOW sys)])
      (next_audit_id d + 1) d).

(** ** routes/organizations.js *)

Module OrganizationRoutes.

(** The joined row of GET /: [o], [u], [c], [cam]. *)
Definition joined : Type :=
  Organization.t * option User.t * option Contact.t * option Campaign.t.

Definition joined_o (r : joined) : Organization.t := r.1.1.1.
Definition joined_u (r : joined) : option User.t := r.1.1.2.
Definition joined_c (r : joined) : option Contact.t := r.1.2.
Definition joined_cam (r : joined) : option Campaign.t := r.2.

(** [FROM organizations o
     LEFT JOIN users u ON o.id = u.organization_id AND u.status = 'active'
     LEFT JOIN contacts c ON o.id = c.organization_id
     LEFT JOIN campaigns cam ON o.id = cam.organization_id] *)
Definition details_join (d : DB) : list joined :=
  left_join (fun r cam => Organization.id r.1.1 =? Campaign.organization_id cam)
    (left_join (fun r c => Organization.id r.1 =? Contact.organization_id c)
       (left_join (fun o u =>
                     (Organization.id o =? User.organization_id u)
                     && String.eqb (User.status u) "active")
          (organizations d) (users d))
       (contacts d))
    (campaigns d).

(** One result row per group: [o.*] and the three counts. *)
Definition details_row (g : list joined)
    : option (Organization.t * Z * Z * Z) :=
  match g with
  | [] => None
  | r :: _ =>
      Some (joined_o r,
            count_distinct (map (fun r => User.id <$> joined_u r) g),
            count_distinct (map (fun r => Contact.id <$> joined_c r) g),
            count_distinct (map (fun r => Campaign.id <$> joined_cam r) g))
  end.

(** [SELECT o.*, COUNT(DISTINCT u.id) as user_count,
            COUNT(DISTINCT c.id) as contact_count,
            COUNT(DISTINCT cam.id) as campaign_count
     FROM ... WHERE o.id = ? GROUP BY o.id] *)
Definition SELECT_organization_details (organizationId : Z) (d : DB)
    : list (Organization.t * Z * Z * Z) :=
  omap details_row
    (group_by (fun r => Organization.id (joined_o r))
       (List.filter (fun r => Organization.id (joined_o r) =? organizationId)
          (details_join d))).

(** [router.get('/', authenticateToken, ...)] *)
Definition get_organization : Handler :=
  authenticateToken (fun sys req =>
    try_catch
      (await user <- req_user req in
       await organizations <-
         query (select (SELECT_organization_details
                          (AuthUser.organizationId user))) in
       match organizations with
       | [] => respond 404 (ErrorBody "Organization not found")
       | (o, user_count, contact_count, campaign_count) :: _ =>
           respond_json
             (OrganizationDetails o user_count contact_count campaign_count)
       end)
      (Res.mk 500 (ErrorBody "Failed to fetch organization details"))).

(** [SELECT name, plan FROM organizations WHERE id = ?] *)
Definition SELECT_name_plan (organizationId : Z) (d : DB)
    : list (string * option string) :=
  map (fun o => (Organization.name o, Organization.plan o))
    (List.filter (fun o => Organization.id o =? organizationId)
       (organizations d)).

(** [UPDATE organizations SET name = ?, plan = ? WHERE id = ?]; an
    [undefined] parameter is written as NULL. *)
Definition UPDATE_organization (name : string) (plan : option string)
    (organizationId : Z) : DB -> option (unit * DB) :=
  exec (fun d =>
    set_organizations
      (map (fun o =>
              if Organization.id o =? organizationId
              then Organization.mk (Organization.id o) name plan
                     (Organization.contact_limit o)
                     (Organization.monthly_email_limit o)
              else o)
         (organizations d)) d).

(** [JSON.stringify(currentOrg[0])]: [undefined] (sent as NULL) when the
    row is missing. *)
Definition stringify_current (currentOrg : list (string * option string))
    : option json :=
  match currentOrg with
  | [] => None
  | (name, plan) :: _ =>
      Some (JObj [("name", JStr name);
                  ("plan", match plan with Some p => JStr p | None => JNull end)])
  end.

(** [router.put('/', authenticateToken,
                requirePermission('manage_organization'), ...)] *)
Definition put_organization : Handler :=
  authenticateToken (requirePermission "manage_organization" (fun sys req =>
    try_catch
      (let name := field "name" (Req.body req) in
       let plan := field "plan" (Req.body req) in
       if negb (truthy name) then
         respond 400 (ErrorBody "Organization name is required")
       else
         await user <- req_user req in
         await currentOrg <-
           query (select (SELECT_name_plan (AuthUser.organizationId user))) in
         await _ <-
           query (UPDATE_organization (default "" name) plan
                    (AuthUser.organizationId user)) in
         await _ <-
           query (INSERT_INTO_audit_logs sys
                    (AuthUser.organizationId user) (AuthUser.id user)
                    "organization_updated" "organization"
                    (Some (SqlInt (AuthUser.organizationId user)))
                    (stringify_current currentOrg)
                    (Some (JObj (prop "name" name ++ prop "plan" plan)))
                    (Some (Req.ip req))) in
         respond_json (Message "Organization updated successfully"))
      (Res.mk 500 (ErrorBody "Failed to update organization")))).

(** [INSERT INTO organization_settings (organization_id, setting_key,
     setting_value) VALUES (?, ?, ?)
     ON DUPLICATE KEY UPDATE setting_value = VALUES(setting_value)].
    The map of the store tells setting keys apart as texts; the database
    does so by its collation, and the two agree on keys that the
    collation keeps apart. *)
Definition UPSERT_setting (organizationId : Z) (key value : string)
    : DB -> option (unit * DB) :=
  exec (fun d =>
    set_organization_settings
      (<[(organizationId, key) := value]> (organization_settings d)) d).

(** [router.put('/settings', authenticateToken,
                requirePermission('manage_organization'), ...)] *)
Definition put_settings : Handler :=
  authenticateToken (requirePermission "manage_organization" (fun sys req =>
    try_catch
      (let settings := Req.body req in
       await user <- req_user req in
       await _ <-
         for_of settings (fun '(key, value) =>
           query (UPSERT_setting (AuthUser.organizationId user) key value)) in
       await _ <-
         query (INSERT_INTO_audit_logs sys
                  (AuthUser.organizationId user) (AuthUser.id user)
                  "settings_updated" "organization_settings" None None
                  (Some (JObj (map (fun '(k, v) => (k, JStr v)) settings)))
                  (Some (Req.ip req))) in
       respond_json (Message "Settings updated successfully"))
      (Res.mk 500 (ErrorBody "Failed to update settings")))).

(** The joined row of GET /usage: [o], [c], [cam]. *)
Definition usage_join (sys : Sys) (d : DB)
    : list (Organization.t * option Contact.t * option Campaign.t) :=
  left_join (fun r cam =>
               (Organization.id r.1 =? Campaign.organization_id cam)
               && match Campaign.sent_at cam with
                  | Some t => NOW_minus_1_month sys <=? t
                  | None => false
                  end)
    (left_join (fun o c =>
                  (Organization.id o =? Contact.organization_id c)
                  && String.eqb (Contact.status c) "active")
       (organizations d) (contacts d))
    (campaigns d).

(** The row of GET /usage: [contact_limit], [monthly_email_limit],
    [current_contacts], [emails_sent_this_month]. The SUM runs over the
    joined rows: the [send_count] of a campaign is added once per contact
    row it is joined with. *)
Definition usage_row
    (g : list (Organization.t * option Contact.t * option Campaign.t))
    : option (Z * Z * Z * Z) :=
  match g with
  | [] => None
  | r :: _ =>
      Some (Organization.contact_limit r.1.1,
            Organization.monthly_email_limit r.1.1,
            count_distinct (map (fun r => Contact.id <$> r.1.2) g),
            sum_or_zero (map (fun r => Campaign.send_count <$> r.2) g))
  end.

(** [SELECT o.contact_limit, o.monthly_email_limit,
            COUNT(DISTINCT c.id) as current_contacts,
            COALESCE(SUM(cam.send_count), 0) as emails_sent_this_month
     FROM organizations o
     LEFT JOIN contacts c ON o.id = c.organization_id AND c.status = 'active'
     LEFT JOIN campaigns cam ON o.id = cam.organization_id
       AND cam.sent_at >= DATE_SUB(NOW(), INTERVAL 1 MONTH)
     WHERE o.id = ? GROUP BY o.id] *)
Definition SELECT_usage (sys : Sys) (organizationId : Z) (d : DB)
    : list (Z * Z * Z * Z) :=
  omap usage_row
    (group_by (fun r => Organization.id r.1.1)
       (List.filter (fun r => Organization.id r.1.1 =? organizationId)
          (usage_join sys d))).

(** [limit > 0 ? (current / limit * 100) : 0]. The operands are integer
    columns and counts: the comparison of the two doubles is the comparison
    of the integers, the quotient and the product are computed on
    doubles. *)
Definition usage_percentage (current limit : Z) : float :=
  if 0 <? limit
  then (Number current / Number limit * 100)%float
  else 0%float.

(** [router.get('/usage', authenticateToken,
                requirePermission('view_analytics'), ...)]. When the
    query returns no row, [usage] is [undefined] and reading
    [usage.contact_limit] throws. *)
Definition get_usage : Handler :=
  authenticateToken (requirePermission "view_analytics" (fun sys req =>
    try_catch
      (await user <- req_user req in
       await rows <-
         query (select (SELECT_usage sys (AuthUser.organizationId user))) in
       match rows with
       | [] => throw "TypeError"
       | (contact_limit, monthly_email_limit, current_contacts,
          emails_sent_this_month) :: _ =>
           respond_json
             (Usage contact_limit monthly_email_limit current_contacts
                emails_sent_this_month
                (usage_percentage current_contacts contact_limit)
                (usage_percentage emails_sent_this_month monthly_email_limit))
       end)
      (Res.mk 500 (ErrorBody "Failed to fetch usage statistics")))).

(** [ORDER BY al.timestamp DESC] *)
Definition newest_first (a b : AuditLog.t * option User.t) : Prop :=
  AuditLog.timestamp b.1 <= AuditLog.timestamp a.1.

#[global] Instance newest_first_dec : RelDecision newest_first.
Proof. intros a b. unfold newest_first. apply _. Defined.

(** What the statement requires of the server's [ORDER_BY]: the rows it
    was given, newest first. *)
Definition orders (sys : Sys) : Prop :=
  forall rows,
    ORDER_BY sys rows ≡ₚ rows
    /\ StronglySorted newest_first (ORDER_BY sys rows).

(** [SELECT al.*, u.first_name, u.last_name, u.email
     FROM audit_logs al LEFT JOIN users u ON al.user_id = u.id
     WHERE al.organization_id = ?
     ORDER BY al.timestamp DESC LIMIT ? OFFSET ?].
    The server refuses a negative LIMIT or OFFSET. Rows with the same
    timestamp come in the order [ORDER_BY] gives them in this request. *)
Definition SELECT_audit_logs (sys : Sys) (organizationId limit offset : Z)
    : DB -> option (list (AuditLog.t * option User.t) * DB) :=
  fun d =>
    if (limit <? 0) || (offset <? 0) then None
    else
      Some (take (Z.to_nat limit)
              (drop (Z.to_nat offset)
                 (ORDER_BY sys
                    (List.filter
                       (fun r => AuditLog.organization_id r.1 =? organizationId)
                       (left_join (fun al u => AuditLog.user_id al =? User.id u)
                          (audit_logs d) (users d))))),
            d).

(** [SELECT COUNT( * ) as total FROM audit_logs WHERE organization_id = ?] *)
Definition SELECT_audit_total (organizationId : Z) (d : DB) : Z :=
  Z.of_nat (length (List.filter
                      (fun al => AuditLog.organization_id al =? organizationId)
                      (audit_logs d))).

(** [router.get('/audit-logs', authenticateToken,
                requirePermission('view_audit_logs'), ...)] *)
Definition get_audit_logs : Handler :=
  authenticateToken (requirePermission "view_audit_logs" (fun sys req =>
    try_catch
      (let page := or_default (parseInt (field "page" (Req.query req))) 1 in
       let limit := or_default (parseInt (field "limit" (Req.query req))) 50 in
       let offset := (page - 1) * limit in
       await user <- req_user req in
       await logs <-
         query (SELECT_audit_logs sys (AuthUser.organizationId user) limit
                  offset) in
       await total <-
         query (select (SELECT_audit_total (AuthUser.organizationId user))) in
       respond_json
         (AuditPage logs page limit total (Math_ceil_div total limit)))
      (Res.mk 500 (ErrorBody "Failed to fetch audit logs")))).

End OrganizationRoutes.

(** ** routes/users.js *)

Module UserRoutes.
Section Routes.

(** [WHERE id = ?] with a path parameter compares an integer column with
    a text. The conversion is the database server's, not the
    repository's: [sql_int s] is the integer the column must hold to
    compare equal to [s] ([None] when no integer does). *)
Variable sql_int : string -> option Z.

Definition id_matches (param : option string) (id : Z) : bool :=
  match param ≫= sql_int with
  | Some n => id =? n
  | None => false
  end.

(** [SELECT id FROM users WHERE email = ?] *)
Definition SELECT_users_by_email (email : string) (d : DB) : list Z :=
  map User.id
    (List.filter (fun u => sql_eq d (User.email u) email) (users d)).

(** [accepted_at IS NULL AND expires_at > NOW()] *)
Definition pending (sys : Sys) (ui : Invitation.t) : bool :=
  match Invitation.accepted_at ui with
  | None => NOW sys <? Invitation.expires_at ui
  | Some _ => false
  end.

(** [SELECT id FROM user_invitations WHERE email = ? AND organization_id = ?
     AND accepted_at IS NULL AND expires_at > NOW()] *)
Definition SELECT_pending_invitations (sys : Sys) (email : string)
    (organizationId : Z) (d : DB) : list Z :=
  map Invitation.id
    (List.filter (fun ui =>
                    sql_eq d (Invitation.email ui) email
                    && (Invitation.organization_id ui =? organizationId)
                    && pending sys ui)
       (user_invitations d)).

(** [INSERT INTO user_invitations (organization_id, email, role, token,
     expires_at, invited_by) VALUES (?, ?, ?, ?, ?, ?)] *)
Definition INSERT_INTO_user_invitations (organization_id : Z)
    (email role token : string) (expires_at invited_by : Z)
    : DB -> option (unit * DB) :=
  exec (fun d =>
    set_user_invitations
      (user_invitations d ++
       [Invitation.mk (next_invitation_id d) organization_id email role
          token expires_at invited_by None])
      (next_invitation_id d + 1) d).

(** [router.post('/invite', authenticateToken,
                 requirePermission('manage_users'), ...)] *)
Definition post_invite : Handler :=
  authenticateToken (requirePermission "manage_users" (fun sys req =>
    try_catch
      (let email := field "email" (Req.body req) in
       let role := default "user" (field "role" (Req.body req)) in
       if negb (truthy email) then
         respond 400 (ErrorBody "Email is required")
       else
         let email := default "" email in
         await existingUsers <- query (select (SELECT_users_by_email email)) in
         match existingUsers with
         | _ :: _ =>
             respond 400 (ErrorBody "User with this email already exists")
         | [] =>
             await user <- req_user req in
             await existingInvitations <-
               query (select (SELECT_pending_invitations sys email
                                (AuthUser.organizationId user))) in
             match existingInvitations with
             | _ :: _ =>
                 respond 400 (ErrorBody "Invitation already sent to this email")
             | [] =>
                 let token := uuidv4 sys in
                 let expiresAt := Date_now sys + 7 * 24 * 60 * 60 * 1000 in
                 await _ <-
                   query (INSERT_INTO_user_invitations
                            (AuthUser.organizationId user) email role token
                            expiresAt (AuthUser.id user)) in
                 await _ <-
                   query (INSERT_INTO_audit_logs sys
                            (AuthUser.organizationId user) (AuthUser.id user)
                            "user_invited" "user_invitation" None None
                            (Some (JObj [("email", JStr email);
                                         ("role", JStr role)]))
                            (Some (Req.ip req))) in
                 respond 201
                   (Invited "User invitation sent successfully" token)
             end
         end)
      (Res.mk 500 (ErrorBody "Failed to invite user")))).

(** [SELECT ui.*, o.name as organization_name
     FROM user_invitations ui
     JOIN organizations o ON ui.organization_id = o.id
     WHERE ui.token = ? AND ui.accepted_at IS NULL
       AND ui.expires_at > NOW()].
    The tokens of the table are values of [uuidv4()], lower-case
    hexadecimal digits and hyphens; they are compared as they are. *)
Definition SELECT_valid_invitations (sys : Sys) (token : string) (d : DB)
    : list (Invitation.t * string) :=
  List.filter (fun r => String.eqb (Invitation.token r.1) token && pending sys r.1)
    (flat_map (fun ui =>
                 map (fun o => (ui, Organization.name o))
                   (List.filter
                      (fun o => Invitation.organization_id ui =? Organization.id o)
                      (organizations d)))
       (user_invitations d)).

(** Modelled from the spec: the role column of [users], whose schema is
    not among the sources. Spec 3: the role of a user is an enum, admin,
    manager or user. A text that is one of the three is stored as it is;
    another text is stored as the member it equals under the collation; a
    text that equals none is refused. *)
Definition user_roles : list string := ["admin"; "manager"; "user"].

Definition user_role (d : DB) (role : string) : option string :=
  if existsb (String.eqb role) user_roles then Some role
  else List.find (fun member => sql_eq d member role) user_roles.

(** Modelled from the spec: the schema of [users], which is not among the
    sources. Spec 3: the e-mail of a user is unique globally and the role
    is an enum, so
    [INSERT INTO users (organization_id, email, password_hash, first_name,
     last_name, role, status) VALUES (?, ?, ?, ?, ?, ?, 'active')]
    is refused when the e-mail is already there, as the collation reads
    it, or when the role is none of the enum. The result is [insertId],
    the AUTO_INCREMENT id of the new row. *)
Definition INSERT_INTO_users (organization_id : Z) (email : string)
    (password_hash : pwhash) (first_name last_name role : string)
    : DB -> option (Z * DB) :=
  fun d =>
    if existsb (fun u => sql_eq d (User.email u) email) (users d)
    then None
    else
      match user_role d role with
      | None => None
      | Some role =>
          Some (next_user_id d,
                set_users
                  (users d ++
                   [User.mk (next_user_id d) organization_id email
                      password_hash first_name last_name role "active"])
                  (next_user_id d + 1) d)
      end.

(** [UPDATE user_invitations SET accepted_at = NOW() WHERE id = ?] *)
Definition UPDATE_invitation_accepted (sys : Sys) (id : Z)
    : DB -> option (unit * DB) :=
  exec (fun d =>
    set_user_invitations
      (map (fun ui =>
              if Invitation.id ui =? id
              then Invitation.set_accepted_at (Some (NOW sys)) ui
              else ui)
         (user_invitations d))
      (next_invitation_id d) d).

(** [router.post('/accept-invitation', ...)]: no authentication. *)
Definition post_accept_invitation : Handler :=
  fun sys req =>
    try_catch
      (let token := field "token" (Req.body req) in
       let password := field "password" (Req.body req) in
       let firstName := field "firstName" (Req.body req) in
       let lastName := field "lastName" (Req.body req) in
       if negb (truthy token) || negb (truthy password)
          || negb (truthy firstName) || negb (truthy lastName) then
         respond 400 (ErrorBody "All fields are required")
       else
         await invitations <-
           query (select (SELECT_valid_invitations sys (default "" token))) in
         match invitations with
         | [] => respond 400 (ErrorBody "Invalid or expired invitation")
         | (invitation, _) :: _ =>
             let hashedPassword := Bcrypt 12 (default "" password) in
             await insertId <-
               query (INSERT_INTO_users
                        (Invitation.organization_id invitation)
                        (Invitation.email invitation) hashedPassword
                        (default "" firstName) (default "" lastName)
                        (Invitation.role invitation)) in
             await _ <-
               query (UPDATE_invitation_accepted sys
                        (Invitation.id invitation)) in
             await _ <-
               query (INSERT_INTO_audit_logs sys
                        (Invitation.organization_id invitation) insertId
                        "user_registered" "user" (Some (SqlInt insertId)) None
                        (Some (JObj [("email", JStr (Invitation.email invitation));
                                     ("role", JStr (Invitation.role invitation))]))
                        None) in
             respond_json (Message "Account created successfully")
         end)
      (Res.mk 500 (ErrorBody "Failed to create account")).

(** [SELECT ... FROM users WHERE id = ? AND organization_id = ?] *)
Definition SELECT_user_in_organization (userId : option string)
    (organizationId : Z) (d : DB) : list User.t :=
  List.filter (fun u =>
                 id_matches userId (User.id u)
                 && (User.organization_id u =? organizationId))
    (users d).

(** [UPDATE users SET role = ? WHERE id = ?] *)
Definition UPDATE_user_role (role : string) (userId : option string)
    : DB -> option (unit * DB) :=
  exec (fun d =>
    set_users
      (map (fun u =>
              if id_matches userId (User.id u) then User.set_role role u
              else u)
         (users d))
      (next_user_id d) d).

(** [['admin', 'manager', 'user'].includes(role)] *)
Definition valid_role (role : option string) : bool :=
  match role with
  | Some r => existsb (String.eqb r) ["admin"; "manager"; "user"]
  | None => false
  end.

(** [router.put('/:userId/role', authenticateToken,
                requirePermission('manage_users'), ...)] *)
Definition put_role : Handler :=
  authenticateToken (requirePermission "manage_users" (fun sys req =>
    try_catch
      (let userId := field "userId" (Req.params req) in
       let role := field "role" (Req.body req) in
       if negb (valid_role role) then
         respond 400 (ErrorBody "Invalid role")
       else
         await user <- req_user req in
         await users <-
           query (select (SELECT_user_in_organization userId
                            (AuthUser.organizationId user))) in
         match users with
         | [] => respond 404 (ErrorBody "User not found")
         | u :: _ =>
             let oldRole := User.role u in
             await _ <- query (UPDATE_user_role (default "" role) userId) in
             await _ <-
               query (INSERT_INTO_audit_logs sys
                        (AuthUser.organizationId user) (AuthUser.id user)
                        "user_role_updated" "user" (SqlStr <$> userId)
                        (Some (JObj [("role", JStr oldRole)]))
                        (Some (JObj (prop "role" role)))
                        (Some (Req.ip req))) in
             respond_json (Message "User role updated successfully")
         end)
      (Res.mk 500 (ErrorBody "Failed to update user role")))).

(** [UPDATE users SET status = "inactive" WHERE id = ?] *)
Definition UPDATE_user_inactive (userId : option string)
    : DB -> option (unit * DB) :=
  exec (fun d =>
    set_users
      (map (fun u =>
              if id_matches userId (User.id u)
              then User.set_status "inactive" u
              else u)
         (users d))
      (next_user_id d) d).

(** [parseInt(userId) === req.user.id] *)
Definition is_current_user (userId : option string) (user : AuthUser.t)
    : bool :=
  match parseInt userId with
  | Some n => n =? AuthUser.id user
  | None => false
  end.

(** [router.put('/:userId/deactivate', authenticateToken,
                requirePermission('manage_users'), ...)] *)
Definition put_deactivate : Handler :=
  authenticateToken (requirePermission "manage_users" (fun sys req =>
    try_catch
      (let userId := field "userId" (Req.params req) in
       await user <- req_user req in
       await users <-
         query (select (SELECT_user_in_organization userId
                          (AuthUser.organizationId user))) in
       match users with
       | [] => respond 404 (ErrorBody "User not found")
       | _ :: _ =>
           if is_current_user userId user then
             respond 400 (ErrorBody "Cannot deactivate your own account")
           else
             await _ <- query (UPDATE_user_inactive userId) in
             await _ <-
               query (INSERT_INTO_audit_logs sys
                        (AuthUser.organizationId user) (AuthUser.id user)
                        "user_deactivated" "user" (SqlStr <$> userId) None
                        (Some (JObj [("status", JStr "inactive")]))
                        (Some (Req.ip req))) in
             respond_json (Message "User deactivated successfully")
       end)
      (Res.mk 500 (ErrorBody "Failed to deactivate user")))).

(** [SELECT id, email FROM user_invitations
     WHERE id = ? AND organization_id = ?] *)
Definition SELECT_invitation_in_organization (invitationId : option string)
    (organizationId : Z) (d : DB) : list Invitation.t :=
  List.filter (fun ui =>
                 id_matches invitationId (Invitation.id ui)
                 && (Invitation.organization_id ui =? organizationId))
    (user_invitations d).

(** [DELETE FROM user_invitations WHERE id = ?] *)
Definition DELETE_invitation (invitationId : option string)
    : DB -> option (unit * DB) :=
  exec (fun d =>
    set_user_invitations
      (List.filter (fun ui => negb (id_matches invitationId (Invitation.id ui)))
         (user_invitations d))
      (next_invitation_id d) d).

(** [router.delete('/invitations/:invitationId', authenticateToken,
                   requirePermission('manage_users'), ...)] *)
Definition delete_invitation : Handler :=
  authenticateToken (requirePermission "manage_users" (fun sys req =>
    try_catch
      (let invitationId := field "invitationId" (Req.params req) in
       await user <- req_user req in
       await invitations <-
         query (select (SELECT_invitation_in_organization invitationId
                          (AuthUser.organizationId user))) in
       match invitations with
       | [] => respond 404 (ErrorBody "Invitation not found")
       | ui :: _ =>
           await _ <- query (DELETE_invitation invitationId) in
           await _ <-
             query (INSERT_INTO_audit_logs sys
                      (AuthUser.organizationId user) (AuthUser.id user)
                      "invitation_cancelled" "user_invitation"
                      (SqlStr <$> invitationId)
                      (Some (JObj [("email", JStr (Invitation.email ui))]))
                      None (Some (Req.ip req))) in
           respond_json (Message "Invitation cancelled successfully")
       end)
      (Res.mk 500 (ErrorBody "Failed to cancel invitation")))).

End Routes.
End UserRoutes.

(** ** JSON.parse

    Whether [JSON.parse(text)] returns or throws a SyntaxError: the JSON
    grammar (ECMA-404) as a pushdown recogniser that reads the text once,
    with the stack of the arrays and objects that are open. *)

Module JSON.

Inductive ctx : Type := InArray | InObject.

Inductive state : Type :=
| Value | ArrayStart | ObjectStart | Key | Colon | After
| Str (key : bool) | Esc (key : bool) | Hex (n : nat) (key : bool)
| Minus | Zero | Int | Dot | Frac | Exp | ExpSign | ExpDigits
| Lit (rest : string)
| Reject.

Definition is_ws (n : Z) : bool :=
  (n =? 32) || (n =? 9) || (n =? 10) || (n =? 13).

Definition is_digit (n : Z) : bool := (48 <=? n) && (n <=? 57).

Definition is_hex (n : Z) : bool :=
  is_digit n || ((97 <=? n) && (n <=? 102)) || ((65 <=? n) && (n <=? 70)).

Definition is_e (n : Z) : bool := (n =? 101) || (n =? 69).

(** The characters one may escape: quote, backslash, slash, b f n r t. *)
Definition is_escape (n : Z) : bool :=
  (n =? 34) || (n =? 92) || (n =? 47) || (n =? 98) || (n =? 102)
  || (n =? 110) || (n =? 114) || (n =? 116).

(** [n] is the first character of a value. *)
Definition start_value (stack : list ctx) (n : Z) : state * list ctx :=
  if n =? 123 then (ObjectStart, InObject :: stack)
  else if n =? 91 then (ArrayStart, InArray :: stack)
  else if n =? 34 then (Str false, stack)
  else if n =? 45 then (Minus, stack)
  else if n =? 48 then (Zero, stack)
  else if is_digit n then (Int, stack)
  else if n =? 116 then (Lit "rue", stack)
  else if n =? 102 then (Lit "alse", stack)
  else if n =? 110 then (Lit "ull", stack)
  else (Reject, stack).

(** [n] follows a complete value. *)
Definition after_value (stack : list ctx) (n : Z) : state * list ctx :=
  if is_ws n then (After, stack)
  else if n =? 44 then
    match stack with
    | InArray :: _ => (Value, stack)
    | InObject :: _ => (Key, stack)
    | [] => (Reject, stack)
    end
  else if n =? 93 then
    match stack with
    | InArray :: s => (After, s)
    | _ => (Reject, stack)
    end
  else if n =? 125 then
    match stack with
    | InObject :: s => (After, s)
    | _ => (Reject, stack)
    end
  else (Reject, stack).

Definition step (st : state) (stack : list ctx) (c : ascii)
    : state * list ctx :=
  let n := char_code c in
  match st with
  | Value => if is_ws n then (Value, stack) else start_value stack n
  | ArrayStart =>
      if is_ws n then (ArrayStart, stack)
      else if n =? 93 then (After, tl stack)
      else start_value stack n
  | ObjectStart =>
      if is_ws n then (ObjectStart, stack)
      else if n =? 125 then (After, tl stack)
      else if n =? 34 then (Str true, stack)
      else (Reject, stack)
  | Key =>
      if is_ws n then (Key, stack)
      else if n =? 34 then (Str true, stack)
      else (Reject, stack)
  | Colon =>
      if is_ws n then (Colon, stack)
      else if n =? 58 then (Value, stack)
      else (Reject, stack)
  | After => after_value stack n
  | Str key =>
      if n =? 34 then (if key then Colon else After, stack)
      else if n =? 92 then (Esc key, stack)
      else if n <? 32 then (Reject, stack)
      else (Str key, stack)
  | Esc key =>
      if is_escape n then (Str key, stack)
      else if n =? 117 then (Hex 4 key, stack)
      else (Reject, stack)
  | Hex k key =>
      if is_hex n then
        match k with
        | 1%nat => (Str key, stack)
        | S k' => (Hex k' key, stack)
        | O => (Reject, stack)
        end
      else (Reject, stack)
  | Minus =>
      if n =? 48 then (Zero, stack)
      else if is_digit n then (Int, stack)
      else (Reject, stack)
  | Zero =>
      if n =? 46 then (Dot, stack)
      else if is_e n then (Exp, stack)
      else after_value stack n
  | Int =>
      if is_digit n then (Int, stack)
      else if n =? 46 then (Dot, stack)
      else if is_e n then (Exp, stack)
      else after_value stack n
  | Dot => if is_digit n then (Frac, stack) else (Reject, stack)
  | Frac =>
      if is_digit n then (Frac, stack)
      else if is_e n then (Exp, stack)
      else after_value stack n
  | Exp =>
      if (n =? 43) || (n =? 45) then (ExpSign, stack)
      else if is_digit n then (ExpDigits, stack)
      else (Reject, stack)
  | ExpSign => if is_digit n then (ExpDigits, stack) else (Reject, stack)
  | ExpDigits =>
      if is_digit n then (ExpDigits, stack) else after_value stack n
  | Lit rest =>
      match rest with
      | String c' EmptyString =>
          if Ascii.eqb c c' then (After, stack) else (Reject, stack)
      | String c' rest' =>
          if Ascii.eqb c c' then (Lit rest', stack) else (Reject, stack)
      | EmptyString => (Reject, stack)
      end
  | Reject => (Reject, stack)
  end.

Fixpoint scan (st : state) (stack : list ctx) (text : string)
    : state * list ctx :=
  match text with
  | EmptyString => (st, stack)
  | String c text' =>
      let '(st', stack') := step st stack c in scan st' stack' text'
  end.

(** At the end of the text: one complete value and nothing open. *)
Definition accepting (r : state * list ctx) : bool :=
  match r with
  | (After, []) | (Zero, []) | (Int, []) | (Frac, []) | (ExpDigits, []) => true
  | _ => false
  end.

(** [true] when [JSON.parse(text)] returns, [false] when it throws. *)
Definition parses (text : string) : bool := accepting (scan Value [] text).

(** The first character that is not JSON white space. *)
Fixpoint firstchar (text : string) : option ascii :=
  match text with
  | EmptyString => None
  | String c text' => if is_ws (char_code c) then firstchar text' else Some c
  end.

End JSON.

(** ** index.js: the middleware stack *)

Module Server.

(** A request as the stack sees it. [has_body] and [is_json] are the two
    header tests of the JSON body parser (a body is announced; the content
    type is application/json). [read_error] is the status of the error
    with which reading the stream fails (413 over the size limit, 415 for
    an unsupported charset or encoding, 400 when aborted), [None] when the
    bytes [buf] arrive. [rate_limited] is the verdict of the rate limiter
    for the client address in the current window. *)
Record Request : Type := mkRequest {
  method : string;
  path : string;
  has_body : bool;
  is_json : bool;
  read_error : option Z;
  buf : string;
  rate_limited : bool
}.

(** A JavaScript error object, by what the handlers test on it. *)
Record JsError : Type := mkError {
  is_SyntaxError : bool;
  status : option Z;
  has_body_property : bool;
  message : string
}.

(** The response under construction: what was sent, if anything, and the
    names of the layers that ran, first to last. *)
Record Out : Type := mkOut {
  sent : option Res.t;
  trace : list string
}.

(** [res.status(s).json(b)]; the first response is the one the client
    gets. *)
Definition send (s : Z) (b : Body) (out : Out) : Out :=
  match sent out with
  | Some _ => out
  | None => mkOut (Some (Res.mk s b)) (trace out)
  end.

Inductive Flow : Type :=
| Next
| NextErr (e : JsError)
| End.

Inductive Layer : Type :=
| Use (name : string) (f : Request -> Out -> Out * Flow)
| UseError (name : string) (f : JsError -> Request -> Out -> Out * Flow).

Definition enter (name : string) (out : Out) : Out :=
  mkOut (sent out) (trace out ++ [name]).

(** Express's dispatch: [next()] moves to the next ordinary layer,
    [next(err)] to the next error-handling layer (the ones with four
    arguments); a layer that answers without calling [next] ends the
    request. *)
Fixpoint dispatch (stack : list Layer) (err : option JsError)
    (req : Request) (out : Out) : Out :=
  match stack with
  | [] => out
  | Use name f :: rest =>
      match err with
      | Some _ => dispatch rest err req out
      | None =>
          match f req (enter name out) with
          | (out', Next) => dispatch rest None req out'
          | (out', NextErr e) => dispatch rest (Some e) req out'
          | (out', End) => out'
          end
      end
  | UseError name f :: rest =>
      match err with
      | None => dispatch rest None req out
      | Some e =>
          match f e req (enter name out) with
          | (out', Next) => dispatch rest None req out'
          | (out', NextErr e') => dispatch rest (Some e') req out'
          | (out', End) => out'
          end
      end
  end.

(** [helmet(...)]: sets headers. *)
Definition helmet (req : Request) (out : Out) : Out * Flow := (out, Next).

(** [cors(...)]: answers a preflight itself, otherwise sets headers. *)
Definition cors (req : Request) (out : Out) : Out * Flow :=
  if String.eqb (method req) "OPTIONS" then (send 204 (Text "") out, End)
  else (out, Next).

(** [rateLimit(...)] *)
Definition limiter (req : Request) (out : Out) : Out * Flow :=
  if rate_limited req then
    (send 429 (Text "Too many requests from this IP, please try again later.") out,
     End)
  else (out, Next).

(** The [verify] option given to [express.json]:
    [try { JSON.parse(buf) }
     catch (e) { res.status(400).json({ error: 'Invalid JSON' });
                 throw new Error('Invalid JSON') }] *)
Definition verify (req : Request) (out : Out) : Out * option JsError :=
  if JSON.parses (buf req) then (out, None)
  else (send 400 (ErrorBody "Invalid JSON") out,
        Some (mkError false None false "Invalid JSON")).

(** [express.json({ limit, verify })], the JSON body parser: skip a
    request without a body or of another content type; read the stream;
    call [verify], wrapping what it throws as a 403 error that carries the
    body; then parse, in strict mode (the text must start an object or an
    array, else a SyntaxError with status 400 that carries the body). *)
Definition express_json (req : Request) (out : Out) : Out * Flow :=
  if negb (has_body req) then (out, Next)
  else if negb (is_json req) then (out, Next)
  else
    match read_error req with
    | Some s => (out, NextErr (mkError false (Some s) false "read failed"))
    | None =>
        match verify req out with
        | (out', Some e) =>
            (out', NextErr (mkError (is_SyntaxError e) (Some 403) true (message e)))
        | (out', None) =>
            match JSON.firstchar (buf req) with
            | Some c =>
                if Ascii.eqb c "{"%char || Ascii.eqb c "["%char
                then (out', Next)
                else (out', NextErr (mkError true (Some 400) true
                                       "Unexpected token"))
            | None => (out', Next)
            end
        end
    end.

(** [express.urlencoded({ extended: true })]: leaves a JSON request
    alone (what it does to a form body is not modelled). *)
Definition express_urlencoded (req : Request) (out : Out) : Out * Flow :=
  (out, Next).

(** The logging middleware. *)
Definition logging (req : Request) (out : Out) : Out * Flow := (out, Next).

(** The error handler for JSON parsing:
    [if (error instanceof SyntaxError && error.status === 400
         && 'body' in error)
       return res.status(400).json({ error: 'Invalid JSON in request body' });
     next(error)] *)
Definition json_error_handler (error : JsError) (req : Request) (out : Out)
    : Out * Flow :=
  if is_SyntaxError error
     && bool_decide (status error = Some 400)
     && has_body_property error
  then (send 400 (ErrorBody "Invalid JSON in request body") out, End)
  else (out, NextErr error).

(** The routers mounted under /api: [routes req] is the response of the
    route the request matches, [None] when none does. *)
Definition api_routes (routes : Request -> option Res.t)
    (req : Request) (out : Out) : Out * Flow :=
  match routes req with
  | Some r => (send (Res.status r) (Res.body r) out, End)
  | None => (out, Next)
  end.

Definition environment (env : list (string * string)) : string :=
  match field "NODE_ENV" env with
  | Some e => if String.eqb e "" then "development" else e
  | None => "development"
  end.

(** Express matches the path of a route without regard to the case of
    ASCII letters and with an optional trailing slash (the defaults of
    [case sensitive routing] and [strict routing]). Here [route] is in
    lower case. *)
Definition to_lower (c : ascii) : ascii :=
  let n := nat_of_ascii c in
  if (65 <=? n)%nat && (n <=? 90)%nat then ascii_of_nat (n + 32) else c.

Fixpoint lower_case (s : string) : string :=
  match s with
  | String c s' => String (to_lower c) (lower_case s')
  | EmptyString => EmptyString
  end.

Definition path_matches (route path : string) : bool :=
  String.eqb (lower_case path) route
  || String.eqb (lower_case path) (route ++ "/").

(** [app.get('/api/health', ...)]; a GET route answers HEAD too. *)
Definition health (now : Z) (env : list (string * string))
    (req : Request) (out : Out) : Out * Flow :=
  if (String.eqb (method req) "GET" || String.eqb (method req) "HEAD")
     && path_matches "/api/health" (path req)
  then (send 200 (Health now (environment env)) out, End)
  else (out, Next).

(** The global error handler: answers 500 unless the headers are sent. *)
Definition global_error_handler (env : list (string * string))
    (error : JsError) (req : Request) (out : Out) : Out * Flow :=
  (send 500
     (ErrorBody (if bool_decide (field "NODE_ENV" env = Some "production")
                 then "Internal server error" else message error))
     out,
   End).

(** [app.use('*', ...)], the 404 handler. *)
Definition not_found (req : Request) (out : Out) : Out * Flow :=
  (send 404 (ErrorBody "API endpoint not found") out, End).

(** The stack, in the order of the [app.use] calls. The static file
    layer of production sits between [health] and the error handler and
    serves GET requests only. *)
Definition app (now : Z) (env : list (string * string))
    (routes : Request -> option Res.t) : list Layer :=
  [ Use "helmet" helmet;
    Use "cors" cors;
    Use "limiter" limiter;
    Use "express.json" express_json;
    Use "express.urlencoded" express_urlencoded;
    Use "logging" logging;
    UseError "json error handler" json_error_handler;
    Use "routes" (api_routes routes);
    Use "health" (health now env);
    UseError "error handler" (global_error_handler env);
    Use "404" not_found ].

Definition handle (now : Z) (env : list (string * string))
    (routes : Request -> option Res.t) (req : Request) : Out :=
  dispatch (app now env routes) None req (mkOut None []).

End Server.

(** ** Vocabulary of the properties *)

(** A 2xx response. *)
Definition succeeded (r : Res.t) : bool :=
  (200 <=? Res.status r) && (Res.status r <? 300).

(** Exactly one entry, tagged [action], was appended to the audit log. *)
Definition one_audit_entry (action : string) (d d' : DB) : Prop :=
  exists e, audit_logs d' = audit_logs d ++ [e] /\ AuditLog.action e = action.

(** The mutating operations of the organization and user routes, with the
    route and the audit tag of each. *)
Inductive Mutation : Type :=
| OrganizationUpdate | SettingsWrite | Invite | AcceptInvitation
| RoleUpdate | Deactivate | CancelInvitation.

Definition mutation_route (sql_int : string -> option Z) (m : Mutation)
    : Handler :=
  match m with
  | OrganizationUpdate => OrganizationRoutes.put_organization
  | SettingsWrite => OrganizationRoutes.put_settings
  | Invite => UserRoutes.post_invite
  | AcceptInvitation => UserRoutes.post_accept_invitation
  | RoleUpdate => UserRoutes.put_role sql_int
  | Deactivate => UserRoutes.put_deactivate sql_int
  | CancelInvitation => UserRoutes.delete_invitation sql_int
  end.

Definition mutation_action (m : Mutation) : string :=
  match m with
  | OrganizationUpdate => "organization_updated"
  | SettingsWrite => "settings_updated"
  | Invite => "user_invited"
  | AcceptInvitation => "user_registered"
  | RoleUpdate => "user_role_updated"
  | Deactivate => "user_deactivated"
  | CancelInvitation => "invitation_cancelled"
  end.

(** What the store holds of organization [O], in the tables GET / reads. *)
Definition tenant_view (O : Z) (d : DB)
    : list Organization.t * list User.t * list Contact.t * list Campaign.t :=
  (List.filter (fun o => Organization.id o =? O) (organizations d),
   List.filter (fun u => User.organization_id u =? O) (users d),
   List.filter (fun c => Contact.organization_id c =? O) (contacts d),
   List.filter (fun cam => Campaign.organization_id cam =? O) (campaigns d)).

(** Two texts that the database takes for the same. *)
Definition same_text (d : DB) (a b : string) : Prop :=
  weight_string d a = weight_string d b.

(** The e-mail belongs to a user, as the database reads it. *)
Definition email_taken (email : string) (d : DB) : Prop :=
  exists u, In u (users d) /\ same_text d (User.email u) email.

(** An invitation of organization [O] for the e-mail is neither accepted
    nor expired. *)
Definition invitation_pending (sys : Sys) (email : string) (O : Z) (d : DB)
    : Prop :=
  exists ui, In ui (user_invitations d)
    /\ same_text d (Invitation.email ui) email
    /\ Invitation.organization_id ui = O
    /\ Invitation.accepted_at ui = None
    /\ NOW sys < Invitation.expires_at ui.

(** [inv] is the one invitation that carries [token]. *)
Definition designates (token : string) (inv : Invitation.t) (d : DB) : Prop :=
  In inv (user_invitations d)
  /\ forall ui, In ui (user_invitations d) ->
                Invitation.token ui = token -> ui = inv.

Definition organization_exists (O : Z) (d : DB) : Prop :=
  exists o, In o (organizations d) /\ Organization.id o = O.

(** The invitations once those with id [id] are stamped accepted. *)
Definition stamp_accepted (sys : Sys) (id : Z) (l : list Invitation.t)
    : list Invitation.t :=
  map (fun ui => if Invitation.id ui =? id
                 then Invitation.set_accepted_at (Some (NOW sys)) ui
                 else ui) l.

(** The user an acceptance of [inv] creates. *)
Definition registered_user (inv : Invitation.t)
    (password firstName lastName : string) (d : DB) : User.t :=
  User.mk (next_user_id d) (Invitation.organization_id inv)
    (Invitation.email inv) (Bcrypt 12 password) firstName lastName
    (Invitation.role inv) "active".

(** The store after a successful acceptance of [inv]. *)
Definition after_acceptance (sys : Sys) (inv : Invitation.t)
    (password firstName lastName : string) (d : DB) : DB :=
  set_audit_logs
    (audit_logs d ++
     [AuditLog.mk (next_audit_id d) (Invitation.organization_id inv)
        (next_user_id d) "user_registered" "user"
        (Some (SqlInt (next_user_id d))) None
        (Some (JObj [("email", JStr (Invitation.email inv));
                     ("role", JStr (Invitation.role inv))]))
        None (NOW sys)])
    (next_audit_id d + 1)
    (set_user_invitations
       (stamp_accepted sys (Invitation.id inv) (user_invitations d))
       (next_invitation_id d)
       (set_users
          (users d ++ [registered_user inv password firstName lastName d])
          (next_user_id d + 1) d)).

(** The routes of the two routers that the development embeds. *)
Inductive Route : Type :=
| GetOrganization | PutOrganization | PutSettings | GetUsage | GetAuditLogs
| PostInvite | PostAcceptInvitation | PutRole | PutDeactivate
| DeleteInvitation.

Definition route (sql_int : string -> option Z) (r : Route) : Handler :=
  match r with
  | GetOrganization => OrganizationRoutes.get_organization
  | PutOrganization => OrganizationRoutes.put_organization
  | PutSettings => OrganizationRoutes.put_settings
  | GetUsage => OrganizationRoutes.get_usage
  | GetAuditLogs => OrganizationRoutes.get_audit_logs
  | PostInvite => UserRoutes.post_invite
  | PostAcceptInvitation => UserRoutes.post_accept_invitation
  | PutRole => UserRoutes.put_role sql_int
  | PutDeactivate => UserRoutes.put_deactivate sql_int
  | DeleteInvitation => UserRoutes.delete_invitation sql_int
  end.

(** Every invitation that carries [token] is stamped accepted. *)
Definition spent (token : string) (d : DB) : Prop :=
  forall ui, In ui (user_invitations d) -> Invitation.token ui = token ->
             Invitation.accepted_at ui <> None.

(** [d'] is reached from [d] by serving requests of these routes, with any
    input and any fault schedule, none of which draws [token] from
    [uuidv4()] again. *)
Inductive later (sql_int : string -> option Z) (token : string)
    : DB -> DB -> Prop :=
| later_now d : later sql_int token d d
| later_request d r sys req fs d' :
    uuidv4 sys <> token ->
    later sql_int token (run (route sql_int r) sys req d fs).2 d' ->
    later sql_int token d d'.

(** The rows of organization [O] that the audit listing draws on: its
    audit entries, each with the user who acted. *)
Definition audit_join (O : Z) (d : DB) : list (AuditLog.t * option User.t) :=
  List.filter (fun r => AuditLog.organization_id r.1 =? O)
    (left_join (fun al u => AuditLog.user_id al =? User.id u)
       (audit_logs d) (users d)).

(** The audit listing of organization [O] in this request, newest first. *)
Definition audit_rows (sys : Sys) (O : Z) (d : DB)
    : list (AuditLog.t * option User.t) :=
  ORDER_BY sys (audit_join O d).

(** The answer of the JSON error handler of index.js. *)
Definition invalid_json_in_request_body : Res.t :=
  Res.mk 400 (ErrorBody "Invalid JSON in request body").

(** ** A small store to run the routes on *)

Module Example.
Import OrganizationRoutes UserRoutes.

Definition all_permissions : list string :=
  ["manage_users"; "manage_organization"; "view_analytics";
   "view_audit_logs"].

(** Alice administers organization 1, Bob is a plain user of it, Carol
    administers organization 2. *)
Definition alice : AuthUser.t := AuthUser.mk 1 1 "admin" all_permissions.
Definition bob : AuthUser.t := AuthUser.mk 2 1 "user" [].
Definition carol : AuthUser.t := AuthUser.mk 3 2 "admin" all_permissions.

(** The collation of the examples: trailing spaces and the case of ASCII
    letters make no difference. *)
Fixpoint without_trailing_spaces (s : string) : string :=
  match s with
  | String c s' =>
      match without_trailing_spaces s' with
      | EmptyString => if Ascii.eqb c " "%char then EmptyString
                       else String c EmptyString
      | rest => String c rest
      end
  | EmptyString => EmptyString
  end.

Definition case_insensitive (s : string) : string :=
  Server.lower_case (without_trailing_spaces s).

(** Organization 1 has a limit of 100 contacts and 25 active ones. *)
Definition store : DB :=
  mkDB case_insensitive
    [Organization.mk 1 "Acme" (Some "pro") 100 1000;
     Organization.mk 2 "Globex" None 0 0]
    ∅
    [User.mk 1 1 "alice@acme.io" (Bcrypt 12 "a") "Alice" "A" "admin" "active";
     User.mk 2 1 "bob@acme.io" (Bcrypt 12 "b") "Bob" "B" "user" "active";
     User.mk 3 2 "carol@globex.io" (Bcrypt 12 "c") "Carol" "C" "admin" "active"]
    []
    []
    (map (fun i => Contact.mk (Z.of_nat i) 1 "active") (seq 1 25)
     ++ [Contact.mk 26 1 "unsubscribed"; Contact.mk 27 2 "active"])
    [Campaign.mk 1 1 40 (Some 900); Campaign.mk 2 2 7 (Some 950)]
    4 1 1.

(** The same store after organization 2 grew; nothing of organization 1
    changed. *)
Definition store_other_tenant_changed : DB :=
  mkDB case_insensitive
    (organizations store)
    ∅
    (users store ++
     [User.mk 4 2 "dan@globex.io" (Bcrypt 12 "d") "Dan" "D" "user" "active"])
    []
    []
    (contacts store ++ [Contact.mk 28 2 "active"])
    (campaigns store ++ [Campaign.mk 3 2 11 None])
    5 1 1.

(** 120 audit entries of organization 1, one per millisecond, and one of
    organization 2. *)
Definition store_with_audit_trail : DB :=
  set_audit_logs
    (map (fun i => AuditLog.mk (Z.of_nat i) 1 1 "user_invited"
                     "user_invitation" None None None None (Z.of_nat i))
       (seq 1 120)
     ++ [AuditLog.mk 121 2 3 "user_invited" "user_invitation" None None
           None None 500])
    122 store.

(** Both clocks read 1000; [uuid] is what [uuidv4()] returns next; the
    server sorts by a merge sort. *)
Definition sys (uuid : string) (env : list (string * string)) : Sys :=
  mkSys 1000 500 1000 uuid env (merge_sort newest_first).

Definition request (user : option AuthUser.t)
    (body params query : list (string * string)) : Req.t :=
  Req.mk user "203.0.113.7" body params query.

(** A conversion that reads a decimal id the way [parseInt] does. *)
Definition decimal_id (s : string) : option Z := parseInt (Some s).

(** A conversion that, where [parseInt] stops at the point, reads the text
    "0.1e1" as the number it denotes in scientific notation, 1. *)
Definition scientific_id (s : string) : option Z :=
  if String.eqb s "0.1e1" then Some 1 else parseInt (Some s).

Definition invite_request (who : AuthUser.t) : Req.t :=
  request (Some who) [("email", "eve@mail.io"); ("role", "manager")] [] [].

Definition accept_request (token : string) : Req.t :=
  request None
    [("token", token); ("password", "s3cret"); ("firstName", "Eve");
     ("lastName", "E")] [] [].

(** Alice invites Eve, then Carol invites the same address for her own
    organization, then the first invitation is accepted. *)
Definition invited_once : DB :=
  (run post_invite (sys "token-1" []) (invite_request alice) store []).2.

Definition invited_twice : DB :=
  (run post_invite (sys "token-2" []) (invite_request carol)
     invited_once []).2.

Definition first_accepted : DB :=
  (run post_accept_invitation (sys "" []) (accept_request "token-1")
     invited_twice []).2.

(** The invitation Alice's call created. *)
Definition invitation_1 : Invitation.t :=
  Invitation.mk 1 1 "eve@mail.io" "manager" "token-1" 604801000 1 None.

(** A POST with a JSON content type whose body stops after the brace. *)
Definition truncated_post : Server.Request :=
  Server.mkRequest "POST" "/api/users/invite" true true None "{" false.

(** Routes that would answer anything with 200. *)
Definition any_route (req : Server.Request) : option Res.t :=
  Some (Res.mk 200 (Message "reached")).
End Example.

(** ** routes/organizations.js: GET /settings *)

Module SettingsRoute.

(** The answer of a route whose 200 body is not one of [Body]: [inl] is an
    answer of the kinds above, [inr] the payload sent with status 200. *)
Definition Reply (B : Type) : Type := (Res.t + B)%type.

(** The middleware in front of such a route. A chain of middleware either
    answers itself or calls [next()]: it is run with a continuation that
    throws, and the route takes over where that continuation is reached. *)
Definition through {B} (chain : Handler -> Handler)
    (next : Sys -> Req.t -> M (Reply B)) : Sys -> Req.t -> M (Reply B) :=
  fun sys req w =>
    match chain (fun _ _ => throw "next") sys req w with
    | (Ok r, w') => (Ok (inl r), w')
    | (Thrown _, w') => next sys req w'
    end.

(** [try { ... } catch (error) { ... }] for any kind of answer. *)
Definition catch {A} (m : M A) (handler : A) : M A :=
  fun w =>
    match m w with
    | (Ok a, w') => (Ok a, w')
    | (Thrown _, w') => (Ok handler, w')
    end.

Definition run_reply {B} (h : Sys -> Req.t -> M (Reply B)) (sys : Sys)
    (req : Req.t) (d : DB) (fs : list bool) : Reply B * DB :=
  match h sys req (mkWorld d fs) with
  | (Ok r, w) => (r, db w)
  | (Thrown _, w) =>
      (inl (Res.mk 500 (ErrorBody "Internal server error")), db w)
  end.

(** [SELECT setting_key, setting_value FROM organization_settings
     WHERE organization_id = ?] *)
Definition SELECT_settings (organizationId : Z) (d : DB)
    : list (string * string) :=
  omap (fun '(o, setting_key, setting_value) =>
          if o =? organizationId then Some (setting_key, setting_value)
          else None)
    (map_to_list (organization_settings d)).

(** [const settingsObj = {};
     settings.forEach(setting => {
       settingsObj[setting.setting_key] = setting.setting_value })].
    The object is the map of its own properties, the ones [res.json]
    sends. An assignment to [__proto__] goes to the setter inherited from
    [Object.prototype], which ignores a string or null: it adds no
    property. *)
Definition settings_object (settings : list (string * string))
    : gmap string string :=
  fold_left (fun settingsObj '(setting_key, setting_value) =>
               if String.eqb setting_key "__proto__" then settingsObj
               else <[setting_key := setting_value]> settingsObj)
    settings ∅.

(** [router.get('/settings', authenticateToken,
                requirePermission('manage_organization'), ...)] *)
Definition get_settings : Sys -> Req.t -> M (Reply (gmap string string)) :=
  through (fun next =>
             authenticateToken (requirePermission "manage_organization" next))
    (fun sys req =>
       catch
         (await user <- req_user req in
          await settings <-
            query (select (SELECT_settings (AuthUser.organizationId user))) in
          ret (inr (settings_object settings)))
         (inl (Res.mk 500 (ErrorBody "Failed to fetch organization settings")))).

End SettingsRoute.

(** ** Vocabulary of the further properties *)

(** What the registration of a route puts in front of its handler:
    [Public] for no middleware, [Authenticated] for [authenticateToken]
    alone, [Permission p] for [authenticateToken, requirePermission(p)]. *)
Inductive Access : Type :=
| Public
| Authenticated
| Permission (name : string).

Definition access (r : Route) : Access :=
  match r with
  | GetOrganization => Authenticated
  | PutOrganization => Permission "manage_organization"
  | PutSettings => Permission "manage_organization"
  | GetUsage => Permission "view_analytics"
  | GetAuditLogs => Permission "view_audit_logs"
  | PostInvite => Permission "manage_users"
  | PostAcceptInvitation => Public
  | PutRole => Permission "manage_users"
  | PutDeactivate => Permission "manage_users"
  | DeleteInvitation => Permission "manage_users"
  end.

(** The columns of a user that no route writes after the insert. *)
Definition identity_of (u : User.t)
    : Z * Z * string * pwhash * string * string :=
  (User.id u, User.organization_id u, User.email u, User.password_hash u,
   User.first_name u, User.last_name u).

(** The JSON body parser lets the request through with nothing left for
    the other parsers: there is no body, or the body is JSON, is read, and
    is an object or array the parser accepts. *)
Definition parser_passes (req : Server.Request) : bool :=
  negb (Server.has_body req)
  || (Server.is_json req
      && bool_decide (Server.read_error req = None)
      && JSON.parses (Server.buf req)
      && match JSON.firstchar (Server.buf req) with
         | Some c => Ascii.eqb c "{"%char || Ascii.eqb c "["%char
         | None => true
         end).

(** The logs of an audit listing, [[]] for any other answer. *)
Definition listed_logs (r : Res.t) : list (AuditLog.t * option User.t) :=
  match Res.body r with
  | AuditPage logs _ _ _ _ => logs
  | _ => []
  end.

(** ** Further stores and callers to run the routes on *)

Module Scenario.

(** Dave's token names organization 9, of which the store has no row. *)
Definition dave : AuthUser.t :=
  AuthUser.mk 9 9 "admin" Example.all_permissions.

(** Erin manages organization 1 and may do nothing else. *)
Definition erin : AuthUser.t :=
  AuthUser.mk 5 1 "manager" ["manage_organization"].

(** Organization 1 runs on UTC, organization 2 on CET. *)
Definition store_with_settings : DB :=
  set_organization_settings
    (<[(1, "timezone") := "UTC"]> (<[(2, "timezone") := "CET"]> ∅))
    Example.store.

Definition settings_request (who : AuthUser.t) : Req.t :=
  Example.request (Some who) [("timezone", "EET"); ("locale", "en")] [] [].

(** Alice asks for the page after page [i] of her audit listing, 50 rows a
    page; the listing of the store with the audit trail has three pages. *)
Definition audit_page_request (i : nat) : Req.t :=
  Example.request (Some Example.alice) [] []
    [("page", match i with O => "1" | 1%nat => "2" | _ => "3" end);
     ("limit", "50")].

(** Bob's row in the store. *)
Definition bob_row : User.t :=
  User.mk 2 1 "bob@acme.io" (Bcrypt 12 "b") "Bob" "B" "user" "active".

(** Alice names Bob in the path and, for a role update, the role manager. *)
Definition bob_request : Req.t :=
  Example.request (Some Example.alice) [("role", "manager")]
    [("userId", "2")] [].

(** Alice cancels the invitation she sent. *)
Definition cancel_request : Req.t :=
  Example.request (Some Example.alice) [] [("invitationId", "1")] [].
End Scenario.

(** The audit log of [d'] is that of [d] with [entries] appended, numbered
    from the counter of [d] and stamped with the clock of the request. *)
Definition audit_appended (sys : Sys) (entries : list AuditLog.t)
    (d d' : DB) : Prop :=
  audit_logs d' = audit_logs d ++ entries
  /\ next_audit_id d' = next_audit_id d + Z.of_nat (length entries)
  /\ forall e, In e entries ->
       AuditLog.id e = next_audit_id d /\ AuditLog.timestamp e = NOW sys.

(** [e] is booked on [user] and on the organization of [user]. *)
Definition attributed_to (user : AuthUser.t) (e : AuditLog.t) : Prop :=
  AuditLog.organization_id e = AuthUser.organizationId user
  /\ AuditLog.user_id e = AuthUser.id user.

(** What a request leaves in the audit log: at most one entry, none unless
    the answer is a success, and for a route behind [authenticateToken] an
    entry booked on the caller. *)
Definition audit_effect (sys : Sys) (req : Req.t) (authenticated : bool)
    (d : DB) (out : Res.t * DB) : Prop :=
  exists entries,
    (length entries <= 1)%nat
    /\ audit_appended sys entries d out.2
    /\ (succeeded out.1 = false -> entries = [])
    /\ (authenticated = true ->
        forall e user, In e entries -> Req.user req = Some user ->
                       attributed_to user e).

(** What a request to route [r] may do to a user row: the identity stays,
    the role moves on a role update only, the status on a deactivation
    only, and then to inactive. *)
Definition user_step (r : Route) (u u' : User.t) : Prop :=
  identity_of u' = identity_of u
  /\ (User.role u' <> User.role u -> r = PutRole)
  /\ (User.status u' <> User.status u ->
      r = PutDeactivate /\ User.status u' = "inactive").

(** What a request to route [r] leaves in [users]: the rows there were, in
    their order, each moved by a [user_step], followed by at most one new
    row, which only an acceptance adds, numbered by the counter and
    active. *)
Definition users_effect (r : Route) (d d' : DB) : Prop :=
  exists kept new,
    users d' = kept ++ new
    /\ Forall2 (user_step r) (users d) kept
    /\ (length new <= 1)%nat
    /\ (new <> [] -> r = PostAcceptInvitation)
    /\ next_user_id d' = next_user_id d + Z.of_nat (length new)
    /\ Forall (fun u => User.id u = next_user_id d
                        /\ User.status u = "active") new.

(** The rows of [l] that belong to an organization other than [O]. *)
Definition foreign {A} (org : A -> Z) (O : Z) (l : list A) : list A :=
  List.filter (fun x => negb (org x =? O)) l.

(** From [d] to [d'] nothing of an organization other than [O] changed;
    contacts and campaigns, which no route here writes, are the same. *)
Definition other_tenants_kept (O : Z) (d d' : DB) : Prop :=
  foreign Organization.id O (organizations d')
  = foreign Organization.id O (organizations d)
  /\ (forall (O' : Z) (key : string),
        O' <> O ->
        organization_settings d' !! (O', key)
        = organization_settings d !! (O', key))
  /\ foreign User.organization_id O (users d')
     = foreign User.organization_id O (users d)
  /\ foreign Invitation.organization_id O (user_invitations d')
     = foreign Invitation.organization_id O (user_invitations d)
  /\ foreign AuditLog.organization_id O (audit_logs d')
     = foreign AuditLog.organization_id O (audit_logs d)
  /\ contacts d' = contacts d
  /\ campaigns d' = campaigns d.

(** The setting keys in play, those of the batch and those the
    organization has stored, are kept apart by the collation: two of them
    that the database takes for the same text are the same text. Then the
    composite key of [organization_settings] tells the keys apart as the
    map of the store does. *)
Definition keys_apart (d : DB) (O : Z) (settings : list (string * string))
    : Prop :=
  forall k1 k2,
    In k1 (map fst settings) \/ is_Some (organization_settings d !! (O, k1)) ->
    In k2 (map fst settings) \/ is_Some (organization_settings d !! (O, k2)) ->
    same_text d k1 k2 -> k1 = k2.

(** The invitation an invite by [user] of [email] creates in [d]. *)
Definition invitation_sent (sys : Sys) (req : Req.t) (user : AuthUser.t)
    (email : string) (d : DB) : Invitation.t :=
  Invitation.mk (next_invitation_id d) (AuthUser.organizationId user) email
    (default "user" (field "role" (Req.body req))) (uuidv4 sys)
    (Date_now sys + 604800000) (AuthUser.id user) None.

(** * Properties *)

Import OrganizationRoutes UserRoutes.

(** ** Running a handler *)

Lemma quiet_cases fs :
  quiet fs -> fs = [] \/ exists fs', fs = false :: fs' /\ quiet fs'.
Proof.
  unfold quiet. destruct fs as [|[] fs]; cbn; intros H;
    [now left|discriminate|].
  right. eauto.
Qed.

Lemma quiet_tl fs : quiet fs -> quiet (tl fs).
Proof. intros [->|(fs' & -> & H)]%quiet_cases; [reflexivity|exact H]. Qed.

Lemma query_quiet {A} (stmt : DB -> option (A * DB)) d fs :
  quiet fs ->
  query stmt (mkWorld d fs)
  = match stmt d with
    | Some (a, d') => (Ok a, mkWorld d' (tl fs))
    | None => (Thrown "statement refused", mkWorld d (tl fs))
    end.
Proof. intros [->|(fs' & -> & H)]%quiet_cases; reflexivity. Qed.

Lemma query_select_quiet {A} (q : DB -> A) d fs :
  quiet fs -> query (select q) (mkWorld d fs) = (Ok (q d), mkWorld d (tl fs)).
Proof. intros H. now rewrite query_quiet. Qed.

Lemma query_exec_quiet (f : DB -> DB) d fs :
  quiet fs -> query (exec f) (mkWorld d fs) = (Ok tt, mkWorld (f d) (tl fs)).
Proof. intros H. now rewrite query_quiet. Qed.

(** Symbolic execution of a route for every fault schedule: unfold the
    monad, split on every test the handler makes. *)
Ltac unfold_route :=
  unfold run, authenticateToken, requirePermission, try_catch, bind,
    req_user, query, select, exec, respond_json, respond, ret, throw,
    succeeded, one_audit_entry.

Ltac run_route :=
  unfold_route; cbn -[Z.leb Z.ltb];
  repeat (case_match; simplify_eq; cbn -[Z.leb Z.ltb] in * );
  cbn in *; intros; try discriminate;
  try (eexists; split; reflexivity).

(** The same, for a goal that says what a route leaves in place. *)
Ltac keep_route :=
  unfold run, authenticateToken, requirePermission, try_catch, bind,
    req_user, query, select, exec, respond_json, respond, ret, throw;
  cbn -[Z.leb Z.ltb];
  repeat (case_match; simplify_eq; cbn -[Z.leb Z.ltb] in * );
  cbn in *; try reflexivity.

(** ** Lists, joins and arithmetic *)

Lemma filter_nil_iff {A} (p : A -> bool) l :
  List.filter p l = [] <-> forall x, In x l -> p x = false.
Proof.
  induction l as [|a l IH]; cbn; [easy|]. destruct (p a) eqn:Hp.
  - split; [discriminate|]. intros H.
    specialize (H a (or_introl eq_refl)). congruence.
  - rewrite IH. split; [intros H x [<-|Hx]; auto | auto].
Qed.

Lemma filter_filter_implied {B} (p q : B -> bool) r :
  (forall b, p b = true -> q b = true) ->
  List.filter p (List.filter q r) = List.filter p r.
Proof.
  intros H. induction r as [|b r IH]; [reflexivity|]. cbn.
  destruct (q b) eqn:Hq; cbn.
  - now rewrite IH.
  - destruct (p b) eqn:Hp; [|exact IH]. apply H in Hp. congruence.
Qed.

Section Joins.
Context {A B : Type}.

(** A joined row comes from a row of the left table. *)
Lemma left_join_In (on : A -> B -> bool) l r x :
  In x (left_join on l r) -> In x.1 l.
Proof.
  unfold left_join. rewrite in_flat_map. intros (a & Ha & Hx).
  destruct (List.filter (on a) r) as [|b m] eqn:E.
  - destruct Hx as [<-|[]]. exact Ha.
  - rewrite <- E in Hx. apply in_map_iff in Hx as (b' & <- & _). exact Ha.
Qed.

(** A WHERE on the left table can be applied before the join. *)
Lemma filter_left_join (p : A -> bool) (on : A -> B -> bool) l r :
  List.filter (fun x => p x.1) (left_join on l r)
  = left_join on (List.filter p l) r.
Proof.
  unfold left_join. induction l as [|a l IH]; [reflexivity|].
  cbn [flat_map List.filter]. rewrite List.filter_app, IH.
  destruct (p a) eqn:Hp; cbn [flat_map].
  - f_equal. destruct (List.filter (on a) r) as [|b m].
    + cbn. now rewrite Hp.
    + generalize (b :: m). intros m'.
      induction m' as [|c m' IHm]; cbn; [easy|]. rewrite Hp. now f_equal.
  - rewrite <- (app_nil_l (flat_map _ (List.filter p l))) at 1. f_equal.
    destruct (List.filter (on a) r) as [|b m].
    + cbn. now rewrite Hp.
    + generalize (b :: m). intros m'.
      induction m' as [|c m' IHm]; cbn; [easy|]. now rewrite Hp.
Qed.

(** Right rows that no ON condition accepts do not matter. *)
Lemma left_join_restrict (on : A -> B -> bool) (q : B -> bool) l r :
  (forall a b, In a l -> on a b = true -> q b = true) ->
  left_join on l (List.filter q r) = left_join on l r.
Proof.
  intros H. unfold left_join. induction l as [|a l IH]; [reflexivity|].
  cbn [flat_map]. rewrite IH by (intros; eapply H; [right|]; eassumption).
  rewrite filter_filter_implied; [reflexivity|].
  intros b. apply H. now left.
Qed.

(** Every left row survives a left join. *)
Lemma left_join_length (on : A -> B -> bool) l r :
  (length l <= length (left_join on l r))%nat.
Proof.
  unfold left_join. induction l as [|a l IH]; [cbn; lia|].
  change (flat_map ?f (a :: l)) with (f a ++ flat_map f l).
  rewrite length_app. cbn beta.
  destruct (List.filter (on a) r) as [|b m]; [|rewrite length_map];
    change (length (?x :: ?y)) with (S (length y)); lia.
Qed.
End Joins.

Lemma group_by_In {A} (key : A -> Z) rows g r :
  In g (group_by key rows) -> In r g -> In r rows.
Proof.
  unfold group_by. rewrite in_map_iff. intros (k & <- & _) Hr.
  now apply filter_In in Hr.
Qed.

Lemma StronglySorted_take_drop {A} (R : relation A) n m l :
  StronglySorted R l -> StronglySorted R (take n (drop m l)).
Proof.
  intros H. rewrite <- (take_drop m l) in H.
  apply StronglySorted_app_1_r in H.
  rewrite <- (take_drop n (drop m l)) in H.
  now apply StronglySorted_app_1_l in H.
Qed.

(** [Math_ceil_div a b] is the least integer not below a / b. *)
Lemma Math_ceil_div_spec a b :
  0 < b -> (Math_ceil_div a b - 1) * b < a <= Math_ceil_div a b * b.
Proof.
  intros Hb. unfold Math_ceil_div.
  pose proof (Z.div_mod (- a) b ltac:(lia)).
  pose proof (Z.mod_pos_bound (- a) b Hb). nia.
Qed.

Lemma or_default_nonzero n d : d <> 0 -> or_default n d <> 0.
Proof. unfold or_default. destruct n as [[| |]|]; intros; lia. Qed.

Example parseInt_examples :
  map (fun s => parseInt (Some s)) ["12"; " -7px"; "0x1A"; "abc"; ""; "0.5e1"]
  = [Some 12; Some (-7); Some 26; None; None; Some 0].
Proof. reflexivity. Qed.

(** White space beyond ASCII is skipped (here U+00A0, two bytes in
    UTF-8), and an integer beyond 2^53 is read as the nearest double. *)
Example parseInt_number_examples :
  parseInt (Some (String (ascii_of_nat 194)
                    (String (ascii_of_nat 160) "-2"))) = Some (-2)
  /\ parseInt (Some "9007199254740993") = Some 9007199254740992
  /\ parseInt (Some "9007199254740995") = Some 9007199254740996.
Proof. repeat split. Qed.

Example JSON_parses_examples :
  map JSON.parses ["{}"; " [1, 2.5e-3, true, null] "; "{"; ""; "[1,]"; "01"]
  = [true; true; false; false; false; false].
Proof. reflexivity. Qed.

(** ** GET /api/organizations: tenant isolation *)

(** The joined rows of the caller's organization are the join of its own
    rows. *)
Lemma filtered_details_join O d :
  List.filter (fun r => Organization.id (joined_o r) =? O) (details_join d)
  = details_join
      (mkDB (weight_string d) (tenant_view O d).1.1.1 (organization_settings d)
         (tenant_view O d).1.1.2 (user_invitations d) (audit_logs d)
         (tenant_view O d).1.2 (tenant_view O d).2
         (next_user_id d) (next_invitation_id d) (next_audit_id d)).
Proof.
  unfold details_join, tenant_view, joined_o, joined. cbn [fst snd
    organizations users contacts campaigns].
  pose proof (fun B on l r =>
    @filter_left_join _ B
      (fun r : Organization.t * option User.t * option Contact.t =>
         Organization.id r.1.1 =? O) on l r) as H3.
  pose proof (fun B on l r =>
    @filter_left_join _ B
      (fun r : Organization.t * option User.t => Organization.id r.1 =? O)
      on l r) as H2.
  pose proof (fun B on l r =>
    @filter_left_join _ B (fun o => Organization.id o =? O) on l r) as H1.
  cbn beta in H1, H2, H3. rewrite H3, H2, H1. clear H1 H2 H3.
  set (os := List.filter _ (organizations d)).
  assert (Hos : forall o, In o os -> Organization.id o = O).
  { intros o Ho. apply filter_In in Ho as [_ Ho]. lia. }
  rewrite <- (left_join_restrict _ (fun u => User.organization_id u =? O)
                os (users d)).
  2:{ intros o u Ho Hon. apply Hos in Ho.
      apply andb_true_iff in Hon as [Hon _]. lia. }
  set (j1 := left_join _ os _).
  assert (Hj1 : forall r, In r j1 -> Organization.id r.1 = O).
  { intros r Hr. apply left_join_In in Hr. now apply Hos. }
  rewrite <- (left_join_restrict _ (fun c => Contact.organization_id c =? O)
                j1 (contacts d)).
  2:{ intros r c Hr Hon. apply Hj1 in Hr. lia. }
  set (j2 := left_join _ j1 _).
  assert (Hj2 : forall r, In r j2 -> Organization.id r.1.1 = O).
  { intros r Hr. apply left_join_In in Hr. now apply Hj1. }
  rewrite <- (left_join_restrict _ (fun c => Campaign.organization_id c =? O)
                j2 (campaigns d)).
  2:{ intros r c Hr Hon. apply Hj2 in Hr. lia. }
  reflexivity.
Qed.

Lemma SELECT_organization_details_view O d1 d2 :
  tenant_view O d1 = tenant_view O d2 ->
  SELECT_organization_details O d1 = SELECT_organization_details O d2.
Proof.
  intros H. unfold SELECT_organization_details.
  rewrite !filtered_details_join, H. reflexivity.
Qed.

Lemma SELECT_organization_details_own O d o uc cc camc rest :
  SELECT_organization_details O d = (o, uc, cc, camc) :: rest ->
  Organization.id o = O /\ In o (organizations d).
Proof.
  unfold SELECT_organization_details. intros H.
  assert (Hin : (o, uc, cc, camc) ∈ (o, uc, cc, camc) :: rest) by left.
  rewrite <- H in Hin. apply list_elem_of_omap in Hin as (g & Hg & Hrow).
  destruct g as [|r g]; [discriminate|]. cbn in Hrow.
  injection Hrow as <- _ _ _.
  apply list_elem_of_In in Hg.
  apply (group_by_In _ _ _ r) in Hg; [|now left].
  apply filter_In in Hg as [Hr Hid]. split; [lia|].
  unfold details_join in Hr. do 3 apply left_join_In in Hr. exact Hr.
Qed.

Lemma get_organization_run sys req user d fs :
  Req.user req = Some user ->
  run get_organization sys req d fs
  = (match fs with
     | true :: _ =>
         Res.mk 500 (ErrorBody "Failed to fetch organization details")
     | _ =>
         match SELECT_organization_details (AuthUser.organizationId user) d with
         | [] => Res.mk 404 (ErrorBody "Organization not found")
         | (o, uc, cc, camc) :: _ =>
             Res.mk 200 (OrganizationDetails o uc cc camc)
         end
     end, d).
Proof.
  intros Hu. unfold run, get_organization, authenticateToken, try_catch,
    bind, req_user, query, select, respond_json, respond, ret.
  rewrite Hu. cbn.
  destruct fs as [|[] fs]; cbn; [| reflexivity |];
    destruct (SELECT_organization_details _ d) as [|[[[o uc] cc] camc] l];
    reflexivity.
Qed.

(** C1. For every authenticated user of organization O, the response of
    GET /api/organizations is the same in any two database states that hold
    the same rows of O (organization row, users, contacts, campaigns of O),
    whatever the other organizations hold; and the organization row it
    returns is a row of the table whose id is the caller's organizationId. *)
Theorem get_organization_tenant_isolation sys req user fs :
  Req.user req = Some user ->
  (forall d1 d2,
     tenant_view (AuthUser.organizationId user) d1
     = tenant_view (AuthUser.organizationId user) d2 ->
     (run get_organization sys req d1 fs).1
     = (run get_organization sys req d2 fs).1)
  /\ (forall d status o uc cc camc,
        (run get_organization sys req d fs).1
        = Res.mk status (OrganizationDetails o uc cc camc) ->
        Organization.id o = AuthUser.organizationId user
        /\ In o (organizations d)).
Proof.
  intros Hu. split.
  - intros d1 d2 Hv. rewrite !(get_organization_run _ _ user) by assumption.
    cbn [fst]. now rewrite (SELECT_organization_details_view _ d1 d2).
  - intros d status o uc cc camc.
    rewrite (get_organization_run _ _ user) by assumption.
    cbn [fst]. intros H.
    destruct (SELECT_organization_details _ d)
      as [|[[[o' uc'] cc'] camc'] l] eqn:E.
    + destruct fs as [|[] ?]; discriminate.
    + apply SELECT_organization_details_own in E.
      destruct fs as [|[] ?]; try discriminate; now injection H as _ <- _ _ _.
Qed.

(** Alice gets the same answer before and after organization 2 grows. *)
Lemma get_organization_tenant_isolation_witness :
  (run get_organization (Example.sys "" [])
     (Example.request (Some Example.alice) [] [] []) Example.store []).1
  = (run get_organization (Example.sys "" [])
       (Example.request (Some Example.alice) [] [] [])
       Example.store_other_tenant_changed []).1.
Proof.
  apply (proj1 (get_organization_tenant_isolation (Example.sys "" [])
                  (Example.request (Some Example.alice) [] [] [])
                  Example.alice [] eq_refl)).
  vm_compute. reflexivity.
Defined.

(** ** POST /api/users/invite *)

Lemma email_taken_select email d :
  email_taken email d <-> SELECT_users_by_email email d <> [].
Proof.
  unfold email_taken, SELECT_users_by_email. split.
  - intros (u & Hu & He) Hn. apply map_eq_nil in Hn.
    rewrite filter_nil_iff in Hn. specialize (Hn u Hu).
    apply String.eqb_neq in Hn. contradiction.
  - intros Hn. destruct (List.filter _ (users d)) as [|u l] eqn:E; [easy|].
    assert (Hin : In u (u :: l)) by now left. rewrite <- E in Hin.
    apply filter_In in Hin as [Hin He]. apply String.eqb_eq in He. eauto.
Qed.

Lemma pending_spec sys ui :
  pending sys ui = true
  <-> Invitation.accepted_at ui = None /\ NOW sys < Invitation.expires_at ui.
Proof.
  unfold pending. destruct (Invitation.accepted_at ui).
  - split; [discriminate|]. now intros [? _].
  - rewrite Z.ltb_lt. tauto.
Qed.

Lemma invitation_pending_select sys email O d :
  invitation_pending sys email O d
  <-> SELECT_pending_invitations sys email O d <> [].
Proof.
  unfold invitation_pending, SELECT_pending_invitations. split.
  - intros (ui & Hu & He & Ho & Hp) Hn. apply map_eq_nil in Hn.
    rewrite filter_nil_iff in Hn. specialize (Hn ui Hu).
    apply andb_false_iff in Hn as [Hn|Hn].
    + apply andb_false_iff in Hn as [Hn|Hn].
      * apply String.eqb_neq in Hn. contradiction.
      * lia.
    + assert (pending sys ui = true) by now apply pending_spec. congruence.
  - intros Hn.
    destruct (List.filter _ (user_invitations d)) as [|ui l] eqn:E; [easy|].
    assert (Hin : In ui (ui :: l)) by now left. rewrite <- E in Hin.
    apply filter_In in Hin as [Hin He].
    apply andb_true_iff in He as [He Hp]. apply andb_true_iff in He as [He Ho].
    apply String.eqb_eq in He. apply pending_spec in Hp. exists ui.
    repeat split; try tauto. lia.
Qed.

(** C3. For every POST /api/users/invite by an authenticated caller with
    manage_users: if the e-mail already belongs to a user, or an unexpired,
    un-accepted invitation for that e-mail and the caller's organization
    exists, no invitation row is inserted (the store is unchanged, whatever
    the driver does), and the response is 400 (when the driver answers the
    look-ups). *)
Theorem invite_duplicate_rejected sys req user email d fs :
  Req.user req = Some user ->
  has_permission "manage_users" user = true ->
  field "email" (Req.body req) = Some email ->
  email_taken email d
  \/ invitation_pending sys email (AuthUser.organizationId user) d ->
  (run post_invite sys req d fs).2 = d
  /\ user_invitations (run post_invite sys req d fs).2 = user_invitations d
  /\ (quiet fs -> Res.status (run post_invite sys req d fs).1 = 400).
Proof.
  intros Hu Hp He Hdup.
  enough ((run post_invite sys req d fs).2 = d
          /\ (quiet fs -> Res.status (run post_invite sys req d fs).1 = 400))
    as [H1 H2] by (rewrite H1; auto).
  unfold run, post_invite, authenticateToken, requirePermission, try_catch.
  rewrite Hu, Hp, He. cbn [truthy negb default from_option id].
  destruct (String.eqb email "") eqn:Hempty; cbn [negb]; [split; reflexivity|].
  unfold bind at 1.
  destruct fs as [|[] fs];
    cbn -[SELECT_users_by_email SELECT_pending_invitations].
  2:{ split; [reflexivity|discriminate]. }
  all: destruct (SELECT_users_by_email email d) as [|x l] eqn:E1;
    [|split; reflexivity].
  all: destruct Hdup as [Hdup|Hdup];
    [apply email_taken_select in Hdup; contradiction|].
  all: apply invitation_pending_select in Hdup.
  all: unfold bind, req_user, query, select; rewrite Hu;
    cbn -[SELECT_users_by_email SELECT_pending_invitations].
  1: destruct (SELECT_pending_invitations _ _ _ d);
    [contradiction|split; reflexivity].
  destruct fs as [|[] fs];
    cbn -[SELECT_users_by_email SELECT_pending_invitations].
  2:{ split; [reflexivity|discriminate]. }
  all: destruct (SELECT_pending_invitations _ _ _ d);
    [contradiction|split; reflexivity].
Qed.

(** Alice invites Eve a second time while the first invitation is
    pending. *)
Lemma invite_duplicate_rejected_witness :
  (run post_invite (Example.sys "token-9" [])
     (Example.invite_request Example.alice) Example.invited_once []).2
  = Example.invited_once
  /\ Res.status
       (run post_invite (Example.sys "token-9" [])
          (Example.invite_request Example.alice) Example.invited_once []).1
     = 400.
Proof.
  pose proof (invite_duplicate_rejected (Example.sys "token-9" [])
                (Example.invite_request Example.alice) Example.alice
                "eve@mail.io" Example.invited_once []
                eq_refl eq_refl eq_refl) as H.
  destruct H as (H1 & _ & H3).
  - right. exists Example.invitation_1. vm_compute. intuition congruence.
  - split; [exact H1|]. apply H3. reflexivity.
Defined.

(** The database of the examples takes ALICE@ACME.IO for the address of
    Alice, who is a user: the invite is answered 400. *)
Example invite_case_variant_rejected :
  run post_invite (Example.sys "token-1" [])
    (Example.request (Some Example.alice) [("email", "ALICE@ACME.IO")] [] [])
    Example.store []
  = (Res.mk 400 (ErrorBody "User with this email already exists"),
     Example.store).
Proof. vm_compute. reflexivity. Qed.

Lemma post_invite_run sys req user email d fs :
  Req.user req = Some user ->
  has_permission "manage_users" user = true ->
  field "email" (Req.body req) = Some email ->
  email <> "" ->
  ~ email_taken email d ->
  ~ invitation_pending sys email (AuthUser.organizationId user) d ->
  quiet fs ->
  run post_invite sys req d fs
  = (Res.mk 201 (Invited "User invitation sent successfully" (uuidv4 sys)),
     set_audit_logs
       (audit_logs d ++
        [AuditLog.mk (next_audit_id d) (AuthUser.organizationId user)
           (AuthUser.id user) "user_invited" "user_invitation" None None
           (Some (JObj [("email", JStr email);
                        ("role", JStr (default "user"
                                         (field "role" (Req.body req))))]))
           (Some (Req.ip req)) (NOW sys)])
       (next_audit_id d + 1)
       (set_user_invitations
          (user_invitations d ++
           [Invitation.mk (next_invitation_id d) (AuthUser.organizationId user)
              email (default "user" (field "role" (Req.body req)))
              (uuidv4 sys) (Date_now sys + 604800000) (AuthUser.id user) None])
          (next_invitation_id d + 1) d)).
Proof.
  intros Hu Hp He Hne Hfree Hnone Hq.
  rewrite email_taken_select in Hfree.
  rewrite invitation_pending_select in Hnone.
  apply dec_stable in Hfree. apply dec_stable in Hnone.
  unfold run, post_invite, authenticateToken, requirePermission, try_catch.
  rewrite Hu, Hp, He. cbn [truthy negb default from_option id].
  apply String.eqb_neq in Hne. rewrite Hne. cbn [negb].
  unfold bind, req_user. rewrite Hu. unfold ret at 1.
  rewrite query_select_quiet, Hfree by assumption.
  rewrite query_select_quiet, Hnone by auto using quiet_tl.
  unfold INSERT_INTO_user_invitations, INSERT_INTO_audit_logs.
  rewrite !query_exec_quiet by auto using quiet_tl.
  reflexivity.
Qed.

(** C10. For every POST /api/users/invite that goes through (caller with
    manage_users, non-empty e-mail that is neither a user's nor pending for
    the organization, as the database reads e-mail addresses, driver
    answering): the role stored in the new
    invitation row and echoed in the audit entry is the submitted role, and
    'user' when the body omits the role field. *)
Theorem invite_stores_role sys req user email d fs :
  Req.user req = Some user ->
  has_permission "manage_users" user = true ->
  field "email" (Req.body req) = Some email ->
  email <> "" ->
  ~ email_taken email d ->
  ~ invitation_pending sys email (AuthUser.organizationId user) d ->
  quiet fs ->
  let role := default "user" (field "role" (Req.body req)) in
  (field "role" (Req.body req) = None -> role = "user")
  /\ (run post_invite sys req d fs).1
     = Res.mk 201 (Invited "User invitation sent successfully" (uuidv4 sys))
  /\ user_invitations (run post_invite sys req d fs).2
     = user_invitations d ++
       [Invitation.mk (next_invitation_id d) (AuthUser.organizationId user)
          email role (uuidv4 sys) (Date_now sys + 604800000)
          (AuthUser.id user) None]
  /\ audit_logs (run post_invite sys req d fs).2
     = audit_logs d ++
       [AuditLog.mk (next_audit_id d) (AuthUser.organizationId user)
          (AuthUser.id user) "user_invited" "user_invitation" None None
          (Some (JObj [("email", JStr email); ("role", JStr role)]))
          (Some (Req.ip req)) (NOW sys)].
Proof.
  intros Hu Hp He Hne Hfree Hnone Hq role.
  rewrite (post_invite_run sys req user email d fs) by assumption.
  subst role. repeat split. intros H. now rewrite H.
Qed.

(** Alice invites frank@mail.io without naming a role. *)
Lemma invite_stores_role_witness :
  map Invitation.role
    (user_invitations
       (run post_invite (Example.sys "token-1" [])
          (Example.request (Some Example.alice) [("email", "frank@mail.io")]
             [] [])
          Example.store []).2)
  = ["user"].
Proof.
  pose proof (invite_stores_role (Example.sys "token-1" [])
                (Example.request (Some Example.alice)
                   [("email", "frank@mail.io")] [] [])
                Example.alice "frank@mail.io" Example.store []
                eq_refl eq_refl eq_refl) as H.
  destruct H as (_ & _ & H & _).
  - discriminate.
  - intros (u & Hu & He). vm_compute in Hu.
    repeat (destruct Hu as [<-|Hu]; [vm_compute in He; discriminate|]).
    destruct Hu.
  - intros (ui & Hui & _). vm_compute in Hui. exact Hui.
  - reflexivity.
  - rewrite H. reflexivity.
Defined.

(** ** POST /api/users/accept-invitation *)

Lemma existsb_email_taken email d :
  existsb (fun u => sql_eq d (User.email u) email) (users d) = false
  <-> ~ email_taken email d.
Proof.
  unfold email_taken. rewrite <- not_true_iff_false, existsb_exists.
  split; intros H (u & Hu & He); apply H; exists u; split; auto.
  - now apply String.eqb_eq.
  - now apply String.eqb_eq in He.
Qed.

Lemma SELECT_valid_invitations_In sys token d r :
  In r (SELECT_valid_invitations sys token d) ->
  In r.1 (user_invitations d) /\ Invitation.token r.1 = token
  /\ pending sys r.1 = true.
Proof.
  unfold SELECT_valid_invitations. intros [Hr Hc]%filter_In.
  apply andb_true_iff in Hc as [Ht Hp]. apply String.eqb_eq in Ht.
  apply in_flat_map in Hr as (ui & Hui & Hr).
  apply in_map_iff in Hr as (o & <- & _). auto.
Qed.

Lemma SELECT_valid_invitations_found sys token d inv o :
  In inv (user_invitations d) -> Invitation.token inv = token ->
  pending sys inv = true ->
  In o (organizations d) ->
  Organization.id o = Invitation.organization_id inv ->
  In (inv, Organization.name o) (SELECT_valid_invitations sys token d).
Proof.
  intros Hin Ht Hp Ho Hid. unfold SELECT_valid_invitations.
  apply filter_In. split.
  - apply in_flat_map. exists inv. split; [assumption|].
    apply (in_map (fun o => (inv, Organization.name o))).
    apply filter_In. split; [assumption|lia].
  - cbn. rewrite Hp, andb_true_r. now apply String.eqb_eq.
Qed.

(** The look-up returns the designated invitation first. *)
Lemma SELECT_valid_invitations_first sys token d inv :
  designates token inv d -> Invitation.token inv = token ->
  pending sys inv = true ->
  organization_exists (Invitation.organization_id inv) d ->
  exists name rest,
    SELECT_valid_invitations sys token d = (inv, name) :: rest.
Proof.
  intros [Hin Huniq] Ht Hp (o & Ho & Hid).
  pose proof (SELECT_valid_invitations_found sys token d inv o Hin Ht Hp Ho Hid)
    as Hfound.
  destruct (SELECT_valid_invitations sys token d) as [|[ui name] rest] eqn:E;
    [destruct Hfound|].
  assert (Hhd : In (ui, name) (SELECT_valid_invitations sys token d))
    by (rewrite E; now left).
  apply SELECT_valid_invitations_In in Hhd as (H1 & H2 & _).
  cbn in H1, H2. rewrite (Huniq ui H1 H2). eauto.
Qed.

(** *** A spent token stays spent *)

Lemma for_of_upsert_invitations O settings w :
  user_invitations
    (db (for_of settings
           (fun '(key, value) => query (UPSERT_setting O key value)) w).2)
  = user_invitations (db w).
Proof.
  revert w. induction settings as [|[k v] settings IH]; intros w; [easy|].
  cbn [for_of]. unfold bind.
  destruct (query (UPSERT_setting O k v) w) as [[[]|e] w1] eqn:E.
  - rewrite IH. unfold query, UPSERT_setting, exec in E.
    destruct w as [d [|[] fs]]; cbn in E; simplify_eq; easy.
  - cbn. unfold query, UPSERT_setting, exec in E.
    destruct w as [d [|[] fs]]; cbn in E; simplify_eq; easy.
Qed.

Lemma spent_stamp sys token id d l :
  spent token d -> l = stamp_accepted sys id (user_invitations d) ->
  forall ui, In ui l -> Invitation.token ui = token ->
             Invitation.accepted_at ui <> None.
Proof.
  intros Hs -> ui Hui Ht. unfold stamp_accepted in Hui.
  apply in_map_iff in Hui as (ui0 & <- & Hin).
  destruct (Invitation.id ui0 =? id); [discriminate|].
  now apply Hs.
Qed.

Lemma spent_filter token d l (p : Invitation.t -> bool) :
  spent token d -> l = List.filter p (user_invitations d) ->
  forall ui, In ui l -> Invitation.token ui = token ->
             Invitation.accepted_at ui <> None.
Proof. intros Hs -> ui [Hui _]%filter_In. now apply Hs. Qed.

Lemma put_settings_invitations sys req d fs :
  user_invitations (run put_settings sys req d fs).2 = user_invitations d.
Proof.
  unfold put_settings, run, authenticateToken, requirePermission.
  destruct (Req.user req) as [user|] eqn:Hu; [|reflexivity].
  destruct (has_permission _ user); [|reflexivity].
  unfold try_catch, bind at 1, req_user. rewrite Hu. unfold ret at 1.
  unfold bind at 1.
  pose proof (for_of_upsert_invitations (AuthUser.organizationId user)
                (Req.body req) (mkWorld d fs)) as Hloop.
  destruct (for_of _ _ _) as [[[]|e] w1]; cbn in Hloop; [|exact Hloop].
  unfold bind, query, INSERT_INTO_audit_logs, exec, respond_json, respond, ret.
  destruct w1 as [d1 [|[] fs1]]; cbn in *; exact Hloop.
Qed.

Section Later.
Variable sql_int : string -> option Z.

Lemma spent_request token r sys req d fs :
  uuidv4 sys <> token ->
  spent token d -> spent token (run (route sql_int r) sys req d fs).2.
Proof.
  intros Huuid Hs. destruct r; cbn [route].
  - assert (user_invitations (run get_organization sys req d fs).2
            = user_invitations d) as H.
    { unfold get_organization. keep_route. }
    unfold spent. now rewrite H.
  - assert (user_invitations (run put_organization sys req d fs).2
            = user_invitations d) as H.
    { unfold put_organization, UPDATE_organization, INSERT_INTO_audit_logs.
      keep_route. }
    unfold spent. now rewrite H.
  - unfold spent. now rewrite put_settings_invitations.
  - assert (user_invitations (run get_usage sys req d fs).2
            = user_invitations d) as H.
    { unfold get_usage. keep_route. }
    unfold spent. now rewrite H.
  - assert (user_invitations (run get_audit_logs sys req d fs).2
            = user_invitations d) as H.
    { unfold get_audit_logs, SELECT_audit_logs. keep_route. }
    unfold spent. now rewrite H.
  - assert (user_invitations (run post_invite sys req d fs).2
            = user_invitations d
            \/ exists ui, Invitation.token ui = uuidv4 sys /\
                 user_invitations (run post_invite sys req d fs).2
                 = user_invitations d ++ [ui]) as H.
    { unfold post_invite, INSERT_INTO_user_invitations, INSERT_INTO_audit_logs.
      keep_route; try (left; reflexivity);
        right; eexists; (split; [|reflexivity]); reflexivity. }
    unfold spent. destruct H as [->|(ui & Hui & ->)]; [exact Hs|].
    intros ui' [Hin|[<-|[]]]%in_app_iff Ht; [now apply Hs|congruence].
  - assert (user_invitations (run post_accept_invitation sys req d fs).2
            = user_invitations d
            \/ exists id,
                 user_invitations (run post_accept_invitation sys req d fs).2
                 = stamp_accepted sys id (user_invitations d)) as H.
    { unfold post_accept_invitation, INSERT_INTO_users,
        UPDATE_invitation_accepted, INSERT_INTO_audit_logs.
      keep_route; try (left; reflexivity); right; eexists; reflexivity. }
    unfold spent. destruct H as [->|(id & H)]; [exact Hs|].
    now apply (spent_stamp sys token id d).
  - assert (user_invitations (run (put_role sql_int) sys req d fs).2
            = user_invitations d) as H.
    { unfold put_role, UPDATE_user_role, INSERT_INTO_audit_logs. keep_route. }
    unfold spent. now rewrite H.
  - assert (user_invitations (run (put_deactivate sql_int) sys req d fs).2
            = user_invitations d) as H.
    { unfold put_deactivate, UPDATE_user_inactive, INSERT_INTO_audit_logs.
      keep_route. }
    unfold spent. now rewrite H.
  - assert (user_invitations (run (delete_invitation sql_int) sys req d fs).2
            = user_invitations d
            \/ exists p,
                 user_invitations (run (delete_invitation sql_int) sys req d fs).2
                 = List.filter p (user_invitations d)) as H.
    { unfold delete_invitation, DELETE_invitation, INSERT_INTO_audit_logs.
      keep_route; try (left; reflexivity); right; eexists; reflexivity. }
    unfold spent. destruct H as [->|(p & H)]; [exact Hs|].
    now apply (spent_filter token d _ p).
Qed.

Lemma spent_later token d d' :
  later sql_int token d d' -> spent token d -> spent token d'.
Proof.
  induction 1 as [|d r sys req fs d' Huuid _ IH]; [easy|].
  intros Hs. apply IH. now apply spent_request.
Qed.
End Later.

Lemma spent_select sys token d :
  spent token d -> SELECT_valid_invitations sys token d = [].
Proof.
  intros Hs. apply filter_nil_iff. intros [ui name] Hr.
  apply in_flat_map in Hr as (ui' & Hui & Hr).
  apply in_map_iff in Hr as (o & [= <- <-] & _). cbn.
  destruct (String.eqb_spec (Invitation.token ui') token) as [Ht|]; [|easy].
  specialize (Hs ui' Hui Ht). unfold pending.
  now destruct (Invitation.accepted_at ui').
Qed.

(** After the acceptance the token is spent. *)
Lemma spent_after_stamp sys token d inv d' :
  designates token inv d ->
  user_invitations d'
  = stamp_accepted sys (Invitation.id inv) (user_invitations d) ->
  spent token d'.
Proof.
  intros [Hin Huniq] Hd' ui Hui Htok. rewrite Hd' in Hui.
  unfold stamp_accepted in Hui. apply in_map_iff in Hui as (ui0 & Heq & Hui0).
  assert (Ht0 : Invitation.token ui0 = token).
  { rewrite <- Htok, <- Heq. now destruct (Invitation.id ui0 =? _). }
  rewrite (Huniq ui0 Hui0 Ht0), Z.eqb_refl in Heq. now rewrite <- Heq.
Qed.

Lemma accept_invitation_rejected sys req d fs token :
  field "token" (Req.body req) = Some token ->
  SELECT_valid_invitations sys token d = [] ->
  (run post_accept_invitation sys req d fs).2 = d
  /\ (quiet fs ->
      Res.status (run post_accept_invitation sys req d fs).1 = 400).
Proof.
  intros Ht Hnone.
  unfold run, post_accept_invitation, try_catch. rewrite Ht.
  cbn [default from_option id].
  destruct (_ || _ || _ || _); [split; reflexivity|].
  unfold bind, query, select.
  destruct fs as [|[] fs]; cbn -[SELECT_valid_invitations].
  2:{ split; [reflexivity|discriminate]. }
  all: rewrite Hnone; split; reflexivity.
Qed.

(** A role of the enum is stored as it is. *)
Lemma user_role_valid d role :
  valid_role (Some role) = true -> user_role d role = Some role.
Proof. unfold valid_role, user_role, user_roles. now intros ->. Qed.

Lemma accept_invitation_run sys req d fs token password firstName lastName
    inv name rest :
  field "token" (Req.body req) = Some token ->
  field "password" (Req.body req) = Some password ->
  field "firstName" (Req.body req) = Some firstName ->
  field "lastName" (Req.body req) = Some lastName ->
  token <> "" -> password <> "" -> firstName <> "" -> lastName <> "" ->
  SELECT_valid_invitations sys token d = (inv, name) :: rest ->
  ~ email_taken (Invitation.email inv) d ->
  valid_role (Some (Invitation.role inv)) = true ->
  quiet fs ->
  run post_accept_invitation sys req d fs
  = (Res.mk 200 (Message "Account created successfully"),
     after_acceptance sys inv password firstName lastName d).
Proof.
  intros Ht Hpw Hfn Hln Ht0 Hpw0 Hfn0 Hln0 Hsel Hfree Hrole Hq.
  apply existsb_email_taken in Hfree. apply (user_role_valid d) in Hrole.
  apply String.eqb_neq in Ht0, Hpw0, Hfn0, Hln0.
  unfold run, post_accept_invitation, try_catch.
  rewrite Ht, Hpw, Hfn, Hln. cbn [truthy negb default from_option id orb].
  rewrite Ht0, Hpw0, Hfn0, Hln0. cbn [negb orb].
  unfold bind. rewrite query_select_quiet, Hsel by assumption.
  rewrite query_quiet by auto using quiet_tl.
  unfold INSERT_INTO_users at 1. rewrite Hfree, Hrole.
  unfold UPDATE_invitation_accepted, INSERT_INTO_audit_logs.
  rewrite !query_exec_quiet by auto using quiet_tl.
  reflexivity.
Qed.

(** The insert of the user is refused when the e-mail is taken: the
    response is 500 and nothing is written. *)
Lemma accept_invitation_email_taken sys req d fs token password firstName
    lastName inv name rest :
  field "token" (Req.body req) = Some token ->
  field "password" (Req.body req) = Some password ->
  field "firstName" (Req.body req) = Some firstName ->
  field "lastName" (Req.body req) = Some lastName ->
  token <> "" -> password <> "" -> firstName <> "" -> lastName <> "" ->
  SELECT_valid_invitations sys token d = (inv, name) :: rest ->
  email_taken (Invitation.email inv) d ->
  quiet fs ->
  run post_accept_invitation sys req d fs
  = (Res.mk 500 (ErrorBody "Failed to create account"), d).
Proof.
  intros Ht Hpw Hfn Hln Ht0 Hpw0 Hfn0 Hln0 Hsel Htaken Hq.
  assert (Hex : existsb (fun u => sql_eq d (User.email u)
                                    (Invitation.email inv)) (users d) = true).
  { apply not_false_iff_true. rewrite existsb_email_taken. tauto. }
  apply String.eqb_neq in Ht0, Hpw0, Hfn0, Hln0.
  unfold run, post_accept_invitation, try_catch.
  rewrite Ht, Hpw, Hfn, Hln. cbn [truthy negb default from_option id orb].
  rewrite Ht0, Hpw0, Hfn0, Hln0. cbn [negb orb].
  unfold bind. rewrite query_select_quiet, Hsel by assumption.
  rewrite query_quiet by auto using quiet_tl.
  unfold INSERT_INTO_users at 1. rewrite Hex. reflexivity.
Qed.

(** C2, as the code has it. For every POST /api/users/accept-invitation
    with non-empty token, password, firstName and lastName, whose token
    designates one invitation that is neither accepted nor expired and
    whose organization exists (and with the driver answering):
    - when the invitation's e-mail belongs to no user yet, as the database
      reads e-mail addresses, and its role is one of the enum of the users
      table, the response is 200, exactly one user is created, with the
      invitation's organization_id, e-mail and role and status 'active',
      the invitation's accepted_at is set; and any attempt with the same
      token afterwards, whatever requests were served in between, creates
      nothing and is answered 400;
    - when the invitation's e-mail already belongs to a user, the insert
      is refused, the response is 500 and nothing is created. *)
Theorem accept_invitation_once sys req d fs token password firstName lastName
    inv :
  field "token" (Req.body req) = Some token ->
  field "password" (Req.body req) = Some password ->
  field "firstName" (Req.body req) = Some firstName ->
  field "lastName" (Req.body req) = Some lastName ->
  token <> "" -> password <> "" -> firstName <> "" -> lastName <> "" ->
  designates token inv d ->
  Invitation.token inv = token ->
  Invitation.accepted_at inv = None ->
  NOW sys < Invitation.expires_at inv ->
  organization_exists (Invitation.organization_id inv) d ->
  quiet fs ->
  let d' := (run post_accept_invitation sys req d fs).2 in
  (~ email_taken (Invitation.email inv) d ->
   valid_role (Some (Invitation.role inv)) = true ->
   (run post_accept_invitation sys req d fs).1
   = Res.mk 200 (Message "Account created successfully")
   /\ users d'
      = users d ++ [registered_user inv password firstName lastName d]
   /\ user_invitations d'
      = stamp_accepted sys (Invitation.id inv) (user_invitations d)
   /\ In (Invitation.set_accepted_at (Some (NOW sys)) inv)
        (user_invitations d')
   /\ forall sql_int d'' sys' req' fs',
        later sql_int token d' d'' ->
        field "token" (Req.body req') = Some token ->
        (run post_accept_invitation sys' req' d'' fs').2 = d''
        /\ (quiet fs' ->
            Res.status (run post_accept_invitation sys' req' d'' fs').1
            = 400))
  /\ (email_taken (Invitation.email inv) d ->
      run post_accept_invitation sys req d fs
      = (Res.mk 500 (ErrorBody "Failed to create account"), d)).
Proof.
  intros Ht Hpw Hfn Hln Ht0 Hpw0 Hfn0 Hln0 Hdes Htok Hacc Hexp Horg Hq.
  assert (Hp : pending sys inv = true) by (apply pending_spec; auto).
  destruct (SELECT_valid_invitations_first sys token d inv Hdes Htok Hp Horg)
    as (name & rest & Hsel).
  split.
  - intros Hfree Hrole.
    rewrite (accept_invitation_run sys req d fs token password firstName
               lastName inv name rest) by assumption.
    cbn [fst snd]. cbn zeta.
    split; [reflexivity|]. split; [reflexivity|]. split; [reflexivity|].
    split.
    { cbn. unfold stamp_accepted. apply in_map_iff. exists inv.
      rewrite Z.eqb_refl. split; [reflexivity|apply Hdes]. }
    intros sql_int d'' sys' req' fs' Hlater Ht'.
    apply (accept_invitation_rejected sys' req' d'' fs' token Ht').
    apply spent_select. apply (spent_later sql_int token _ d'' Hlater).
    apply (spent_after_stamp sys token d inv); [exact Hdes|reflexivity].
  - intros Htaken.
    apply (accept_invitation_email_taken sys req d fs token password firstName
             lastName inv name rest); assumption.
Qed.

(** Eve accepts Alice's invitation; a replay of the token is refused. *)
Lemma accept_invitation_once_witness :
  map User.email
    (users (run post_accept_invitation (Example.sys "" [])
              (Example.accept_request "token-1") Example.invited_once []).2)
  = ["alice@acme.io"; "bob@acme.io"; "carol@globex.io"; "eve@mail.io"]
  /\ Res.status
       (run post_accept_invitation (Example.sys "" [])
          (Example.accept_request "token-1")
          (run post_accept_invitation (Example.sys "" [])
             (Example.accept_request "token-1") Example.invited_once []).2
          []).1
     = 400.
Proof.
  assert ("token-1" <> "" /\ "s3cret" <> "" /\ "Eve" <> "" /\ "E" <> "")
    as (N1 & N2 & N3 & N4) by (repeat split; discriminate).
  assert (designates "token-1" Example.invitation_1 Example.invited_once)
    as Hdes.
  { split; [vm_compute; tauto|].
    intros ui Hui _. vm_compute in Hui. intuition. }
  assert (organization_exists 1 Example.invited_once) as Horg.
  { eexists. split; [left; reflexivity|reflexivity]. }
  assert (~ email_taken "eve@mail.io" Example.invited_once) as Hfree.
  { intros (u & Hu & He). vm_compute in Hu.
    repeat (destruct Hu as [<-|Hu]; [vm_compute in He; discriminate|]).
    destruct Hu. }
  destruct (accept_invitation_once (Example.sys "" [])
              (Example.accept_request "token-1") Example.invited_once []
              "token-1" "s3cret" "Eve" "E" Example.invitation_1
              eq_refl eq_refl eq_refl eq_refl N1 N2 N3 N4 Hdes eq_refl
              eq_refl eq_refl Horg eq_refl) as (H & _).
  destruct (H Hfree eq_refl) as (_ & Husers & _ & _ & Hreplay).
  split.
  - rewrite Husers. reflexivity.
  - apply (Hreplay Example.decimal_id _ (Example.sys "" [])
             (Example.accept_request "token-1") [] (later_now _ _ _)
             eq_refl).
    reflexivity.
Defined.

(** C2 as stated fails: after Alice and Carol both invited Eve and Eve
    accepted the first invitation, the second token still matches an
    invitation that is neither accepted nor expired, yet the acceptance is
    answered 500 and creates no user. *)
Lemma accept_invitation_counterexample :
  (exists inv,
     In inv (user_invitations Example.first_accepted)
     /\ Invitation.token inv = "token-2"
     /\ Invitation.accepted_at inv = None
     /\ NOW (Example.sys "" []) < Invitation.expires_at inv)
  /\ run post_accept_invitation (Example.sys "" [])
       (Example.accept_request "token-2") Example.first_accepted []
     = (Res.mk 500 (ErrorBody "Failed to create account"),
        Example.first_accepted).
Proof.
  split.
  - exists (Invitation.mk 2 2 "eve@mail.io" "manager" "token-2" 604801000 3
              None).
    vm_compute. intuition congruence.
  - vm_compute. reflexivity.
Qed.

(** What an acceptance does to the users table, for every fault schedule:
    nothing, or one new row whose hash has cost 12. *)
Lemma post_accept_invitation_users sys req d fs :
  users (run post_accept_invitation sys req d fs).2 = users d
  \/ exists organization_id email password first_name last_name role,
       users (run post_accept_invitation sys req d fs).2
       = users d ++
         [User.mk (next_user_id d) organization_id email (Bcrypt 12 password)
            first_name last_name role "active"].
Proof.
  unfold post_accept_invitation, INSERT_INTO_users,
    UPDATE_invitation_accepted, INSERT_INTO_audit_logs.
  keep_route; try (left; reflexivity); right; do 6 eexists; reflexivity.
Qed.

(** C9. What the code does: the cost factor of the hash is the literal 12.
    Whatever the environment holds (BCRYPT_ROUNDS set or not, to any
    value), every user that an acceptance adds has a password hashed with
    cost 12. *)
Theorem accept_invitation_cost_is_12 sys req d fs u :
  In u (users (run post_accept_invitation sys req d fs).2) ->
  ~ In u (users d) ->
  bcrypt_rounds (User.password_hash u) = 12.
Proof.
  intros Hin Hnew.
  destruct (post_accept_invitation_users sys req d fs)
    as [H|(o & e & pw & fn & ln & r & H)]; rewrite H in Hin.
  - contradiction.
  - apply in_app_iff in Hin as [Hin|[<-|[]]]; [contradiction|reflexivity].
Qed.

(** With BCRYPT_ROUNDS=10 in the environment, the acceptance adds Eve, and
    her password is hashed with cost 12. *)
Lemma accept_invitation_cost_is_12_witness :
  exists u,
    In u (users (run post_accept_invitation
                   (Example.sys "" [("BCRYPT_ROUNDS", "10")])
                   (Example.accept_request "token-1")
                   Example.invited_once []).2)
    /\ ~ In u (users Example.invited_once)
    /\ User.email u = "eve@mail.io"
    /\ bcrypt_rounds (User.password_hash u) = 12.
Proof.
  exists (User.mk 4 1 "eve@mail.io" (Bcrypt 12 "s3cret") "Eve" "E" "manager"
            "active").
  assert (H1 : In (User.mk 4 1 "eve@mail.io" (Bcrypt 12 "s3cret") "Eve" "E"
                     "manager" "active")
                 (users (run post_accept_invitation
                           (Example.sys "" [("BCRYPT_ROUNDS", "10")])
                           (Example.accept_request "token-1")
                           Example.invited_once []).2))
    by (vm_compute; tauto).
  assert (H2 : ~ In (User.mk 4 1 "eve@mail.io" (Bcrypt 12 "s3cret") "Eve" "E"
                       "manager" "active")
                   (users Example.invited_once))
    by (vm_compute; intuition discriminate).
  split; [exact H1|]. split; [exact H2|]. split; [reflexivity|].
  exact (accept_invitation_cost_is_12 _ _ _ _ _ H1 H2).
Defined.

(** ** The audit trail of the mutating routes *)

Lemma put_organization_audit sys req d fs :
  let '(res, d') := run put_organization sys req d fs in
  succeeded res = true -> one_audit_entry "organization_updated" d d'.
Proof.
  unfold put_organization, UPDATE_organization, INSERT_INTO_audit_logs.
  run_route.
Qed.

Lemma post_invite_audit sys req d fs :
  let '(res, d') := run post_invite sys req d fs in
  succeeded res = true -> one_audit_entry "user_invited" d d'.
Proof.
  unfold post_invite, INSERT_INTO_user_invitations, INSERT_INTO_audit_logs.
  run_route.
Qed.

Lemma post_accept_invitation_audit sys req d fs :
  let '(res, d') := run post_accept_invitation sys req d fs in
  succeeded res = true -> one_audit_entry "user_registered" d d'.
Proof.
  unfold post_accept_invitation, INSERT_INTO_users,
    UPDATE_invitation_accepted, INSERT_INTO_audit_logs.
  run_route.
Qed.

Section PathParameters.
Variable sql_int : string -> option Z.

Lemma put_role_audit sys req d fs :
  let '(res, d') := run (put_role sql_int) sys req d fs in
  succeeded res = true -> one_audit_entry "user_role_updated" d d'.
Proof.
  unfold put_role, UPDATE_user_role, INSERT_INTO_audit_logs. run_route.
Qed.

Lemma put_deactivate_audit sys req d fs :
  let '(res, d') := run (put_deactivate sql_int) sys req d fs in
  succeeded res = true -> one_audit_entry "user_deactivated" d d'.
Proof.
  unfold put_deactivate, UPDATE_user_inactive, INSERT_INTO_audit_logs.
  run_route.
Qed.

Lemma delete_invitation_audit sys req d fs :
  let '(res, d') := run (delete_invitation sql_int) sys req d fs in
  succeeded res = true -> one_audit_entry "invitation_cancelled" d d'.
Proof.
  unfold delete_invitation, DELETE_invitation, INSERT_INTO_audit_logs.
  run_route.
Qed.

End PathParameters.

(** The upserts of a settings batch leave the audit log alone, however many
    of them run. *)
Lemma for_of_upsert_audit O settings w :
  let w' := (for_of settings
               (fun '(key, value) => query (UPSERT_setting O key value)) w).2 in
  audit_logs (db w') = audit_logs (db w)
  /\ next_audit_id (db w') = next_audit_id (db w).
Proof.
  revert w. induction settings as [|[k v] settings IH]; intros w; [easy|].
  cbn [for_of]. unfold bind.
  destruct (query (UPSERT_setting O k v) w) as [[[]|e] w1] eqn:E.
  - specialize (IH w1). cbn zeta in IH. destruct IH as [-> ->].
    unfold query, UPSERT_setting, exec in E.
    destruct w as [d [|[] fs]]; cbn in E; simplify_eq; easy.
  - cbn. unfold query, UPSERT_setting, exec in E.
    destruct w as [d [|[] fs]]; cbn in E; simplify_eq; easy.
Qed.

Lemma put_settings_audit sys req d fs :
  let '(res, d') := run put_settings sys req d fs in
  succeeded res = true -> one_audit_entry "settings_updated" d d'.
Proof.
  unfold put_settings, run, authenticateToken, requirePermission.
  destruct (Req.user req) as [user|] eqn:Hu; [|cbn; discriminate].
  destruct (has_permission _ user); [|cbn; discriminate].
  unfold try_catch, bind at 1, req_user. rewrite Hu. unfold ret at 1.
  unfold bind at 1.
  pose proof (for_of_upsert_audit (AuthUser.organizationId user)
                (Req.body req) (mkWorld d fs)) as Hloop.
  destruct (for_of _ _ _) as [[[]|e] w1]; cbn in Hloop; [|cbn; discriminate].
  destruct Hloop as [Hlogs Hnext].
  unfold bind, query, INSERT_INTO_audit_logs, exec, respond_json, respond, ret.
  destruct w1 as [d1 [|[] fs1]]; cbn in *; try discriminate;
    intros _; rewrite Hlogs; eexists; split; reflexivity.
Qed.

(** C4. Every successful mutating operation (organization update, settings
    batch write, invite, accept-invitation, role update, deactivate, cancel
    invitation) appends exactly one audit_logs entry, tagged with the
    operation; the settings batch write appends one entry for the whole
    batch, whatever the number of keys. This holds for every fault schedule
    of the driver: a 2xx response means the audit insert went through. *)
Theorem mutation_audited_once sql_int m sys req d fs :
  succeeded (run (mutation_route sql_int m) sys req d fs).1 = true ->
  one_audit_entry (mutation_action m) d
    (run (mutation_route sql_int m) sys req d fs).2.
Proof.
  destruct m; cbn [mutation_route mutation_action].
  - pose proof (put_organization_audit sys req d fs) as H.
    now destruct (run _ _ _ _ _).
  - pose proof (put_settings_audit sys req d fs) as H.
    now destruct (run _ _ _ _ _).
  - pose proof (post_invite_audit sys req d fs) as H.
    now destruct (run _ _ _ _ _).
  - pose proof (post_accept_invitation_audit sys req d fs) as H.
    now destruct (run _ _ _ _ _).
  - pose proof (put_role_audit sql_int sys req d fs) as H.
    now destruct (run _ _ _ _ _).
  - pose proof (put_deactivate_audit sql_int sys req d fs) as H.
    now destruct (run _ _ _ _ _).
  - pose proof (delete_invitation_audit sql_int sys req d fs) as H.
    now destruct (run _ _ _ _ _).
Qed.

(** Alice writes a batch of two settings: one audit entry. *)
Lemma mutation_audited_once_witness :
  one_audit_entry "settings_updated" Example.store
    (run put_settings (Example.sys "" [])
       (Example.request (Some Example.alice)
          [("timezone", "UTC"); ("locale", "en")] [] [])
       Example.store []).2.
Proof.
  apply (mutation_audited_once Example.decimal_id SettingsWrite
           (Example.sys "" [])
           (Example.request (Some Example.alice)
              [("timezone", "UTC"); ("locale", "en")] [] [])
           Example.store []).
  vm_compute. reflexivity.
Defined.

(** ** PUT /api/users/:userId/deactivate *)

Section Deactivate.
Variable sql_int : string -> option Z.

(** C8, as the code has it. For every PUT /api/users/:userId/deactivate
    whose userId parses to the caller's own id, the store, and so the
    caller's status, is unchanged; the response is 403 when the caller
    lacks manage_users, and 400 when the caller has it and the look-up
    finds the caller's row (the driver answering). *)
Theorem deactivate_self_rejected sys req user d fs :
  Req.user req = Some user ->
  parseInt (field "userId" (Req.params req)) = Some (AuthUser.id user) ->
  (run (put_deactivate sql_int) sys req d fs).2 = d
  /\ (has_permission "manage_users" user = false ->
      Res.status (run (put_deactivate sql_int) sys req d fs).1 = 403)
  /\ (has_permission "manage_users" user = true -> quiet fs ->
      SELECT_user_in_organization sql_int (field "userId" (Req.params req))
        (AuthUser.organizationId user) d <> [] ->
      Res.status (run (put_deactivate sql_int) sys req d fs).1 = 400).
Proof.
  intros Hu Hself.
  unfold run, put_deactivate, authenticateToken, requirePermission.
  rewrite Hu.
  destruct (has_permission _ user).
  2:{ cbn. repeat split; discriminate. }
  assert (Hcur : is_current_user (field "userId" (Req.params req)) user = true).
  { unfold is_current_user. rewrite Hself. apply Z.eqb_refl. }
  unfold try_catch, bind, req_user, query, select, ret. rewrite Hu.
  destruct fs as [|[] fs];
    cbn -[SELECT_user_in_organization is_current_user].
  2:{ repeat split; discriminate. }
  all: destruct (SELECT_user_in_organization _ _ _ d); [|rewrite Hcur]; cbn;
    repeat split; try discriminate; intros; congruence.
Qed.

End Deactivate.

(** Alice, who may manage users, tries to deactivate herself. *)
Lemma deactivate_self_rejected_witness :
  (run (put_deactivate Example.decimal_id) (Example.sys "" [])
     (Example.request (Some Example.alice) [] [("userId", "1")] [])
     Example.store []).2 = Example.store
  /\ Res.status
       (run (put_deactivate Example.decimal_id) (Example.sys "" [])
          (Example.request (Some Example.alice) [] [("userId", "1")] [])
          Example.store []).1 = 400.
Proof.
  pose proof (deactivate_self_rejected Example.decimal_id (Example.sys "" [])
                (Example.request (Some Example.alice) [] [("userId", "1")] [])
                Example.alice Example.store [] eq_refl eq_refl)
    as (H1 & _ & H3).
  split; [exact H1|]. apply H3; [reflexivity|reflexivity|].
  vm_compute. discriminate.
Defined.

(** The self-check reads userId with [parseInt], the look-up and the
    update compare it as the database converts it. Where the two disagree
    the check does not fire: if the server reads "0.1e1" as 1, Alice
    deactivates herself with that userId. *)
Example deactivate_self_when_conversions_differ :
  let '(res, d') :=
    run (put_deactivate Example.scientific_id) (Example.sys "" [])
      (Example.request (Some Example.alice) [] [("userId", "0.1e1")] [])
      Example.store [] in
  Res.status res = 200
  /\ map User.status
       (List.filter (fun u => User.id u =? AuthUser.id Example.alice) (users d'))
     = ["inactive"].
Proof. vm_compute. split; reflexivity. Qed.

(** C8 as stated fails: Bob, who lacks manage_users, asks to deactivate
    himself and is answered 403, not 400. *)
Lemma deactivate_self_counterexample :
  Res.status
    (run (put_deactivate Example.decimal_id) (Example.sys "" [])
       (Example.request (Some Example.bob) [] [("userId", "2")] [])
       Example.store []).1 = 403
  /\ Res.status
       (run (put_deactivate Example.decimal_id) (Example.sys "" [])
          (Example.request (Some Example.bob) [] [("userId", "2")] [])
          Example.store []).1 <> 400.
Proof. split; [reflexivity|discriminate]. Qed.

(** ** GET /api/organizations/usage *)

Lemma get_usage_body sys req d fs status cl ml cc es pc pe :
  (run get_usage sys req d fs).1 = Res.mk status (Usage cl ml cc es pc pe) ->
  pc = usage_percentage cc cl /\ pe = usage_percentage es ml.
Proof.
  unfold run, get_usage, authenticateToken, requirePermission, try_catch,
    bind, req_user, query, select, respond_json, respond, ret, throw.
  destruct (Req.user req) as [user|]; [|discriminate].
  destruct (has_permission _ user); [|discriminate].
  destruct fs as [|[] fs]; cbn -[SELECT_usage usage_percentage];
    try discriminate;
    destruct (SELECT_usage _ _ d) as [|[[[cl' ml'] cc'] es'] l];
    cbn -[usage_percentage]; try discriminate;
    intros H; injection H as _ <- <- <- <- <- <-; auto.
Qed.

Lemma usage_percentage_positive current limit :
  0 < limit ->
  usage_percentage current limit
  = (Number current / Number limit * 100)%float.
Proof. unfold usage_percentage. now intros ->%Z.ltb_lt. Qed.

Lemma usage_percentage_nonpositive current limit :
  limit <= 0 -> usage_percentage current limit = 0%float.
Proof. unfold usage_percentage. now intros ->%Z.ltb_ge. Qed.

Lemma usage_percentage_zero current : usage_percentage current 0 = 0%float.
Proof. reflexivity. Qed.

(** The quotient is the double JavaScript computes, not the rational:
    7 contacts out of 100 are reported as 7.000000000000001 per cent (the
    double written out in full below). *)
Example usage_percentage_rounds :
  usage_percentage 7 100 = 0x1.c000000000001p+2%float.
Proof. reflexivity. Qed.

(** C5. In a GET /api/organizations/usage response,
    usage_percentages.contacts is current_contacts / contact_limit * 100
    (in JavaScript's doubles) when contact_limit > 0, so a limit of 100
    with 25 contacts yields 25, and it is 0 when contact_limit is 0; the
    emails percentage is guarded the same way by monthly_email_limit. *)
Theorem usage_percentage_guarded sys req d fs status cl ml cc es pc pe :
  (run get_usage sys req d fs).1 = Res.mk status (Usage cl ml cc es pc pe) ->
  (0 < cl -> pc = (Number cc / Number cl * 100)%float)
  /\ (cl = 0 -> pc = 0%float)
  /\ (cl = 100 -> cc = 25 -> pc = 25%float)
  /\ (0 < ml -> pe = (Number es / Number ml * 100)%float)
  /\ (ml = 0 -> pe = 0%float).
Proof.
  intros [-> ->]%get_usage_body. repeat split.
  - apply usage_percentage_positive.
  - intros ->. apply usage_percentage_zero.
  - intros -> ->. reflexivity.
  - apply usage_percentage_positive.
  - intros ->. apply usage_percentage_zero.
Qed.

(** Organization 1 has a limit of 100 and 25 active contacts. *)
Lemma usage_percentage_guarded_witness :
  (run get_usage (Example.sys "" [])
     (Example.request (Some Example.alice) [] [] []) Example.store []).1
  = Res.mk 200 (Usage 100 1000 25 1000 25 100)
  /\ 25%float = (Number 25 / Number 100 * 100)%float.
Proof.
  split; [reflexivity|].
  destruct (usage_percentage_guarded (Example.sys "" [])
              (Example.request (Some Example.alice) [] [] [])
              Example.store [] 200 100 1000 25 1000 25 100 eq_refl)
    as (H & _).
  apply H. lia.
Defined.

(** ** GET /api/organizations/audit-logs *)

#[local] Instance newest_first_trans : Transitive newest_first.
Proof. unfold newest_first. intros a b c. lia. Qed.

#[local] Instance newest_first_total : Total newest_first.
Proof. unfold newest_first. intros a b. lia. Qed.

Lemma audit_rows_sorted sys O d :
  orders sys -> StronglySorted newest_first (audit_rows sys O d).
Proof. intros Hsys. apply Hsys. Qed.

Lemma audit_rows_Permutation sys O d :
  orders sys -> audit_rows sys O d ≡ₚ audit_join O d.
Proof. intros Hsys. apply Hsys. Qed.

Lemma audit_rows_own sys O d r :
  orders sys ->
  In r (audit_rows sys O d) -> AuditLog.organization_id r.1 = O.
Proof.
  intros Hsys. rewrite <- list_elem_of_In, (audit_rows_Permutation sys O d Hsys).
  unfold audit_join. rewrite list_elem_of_In. intros [_ H]%filter_In. lia.
Qed.

(** The listing has at least as many rows as the count: the join with the
    users drops no audit entry. *)
Lemma audit_rows_length sys O d :
  orders sys ->
  (Z.to_nat (SELECT_audit_total O d) <= length (audit_rows sys O d))%nat.
Proof.
  intros Hsys. rewrite (audit_rows_Permutation sys O d Hsys).
  unfold audit_join, SELECT_audit_total. rewrite Nat2Z.id.
  pose proof (fun B on l r =>
    @filter_left_join _ B (fun al => AuditLog.organization_id al =? O) on l r)
    as H.
  cbn beta in H. rewrite H. apply left_join_length.
Qed.

Lemma get_audit_logs_run sys req user d fs :
  Req.user req = Some user ->
  has_permission "view_audit_logs" user = true ->
  let page := or_default (parseInt (field "page" (Req.query req))) 1 in
  let limit := or_default (parseInt (field "limit" (Req.query req))) 50 in
  let O := AuthUser.organizationId user in
  run get_audit_logs sys req d fs
  = (match fs with
     | true :: _ | false :: true :: _ =>
         Res.mk 500 (ErrorBody "Failed to fetch audit logs")
     | _ =>
         if (limit <? 0) || ((page - 1) * limit <? 0)
         then Res.mk 500 (ErrorBody "Failed to fetch audit logs")
         else Res.mk 200
                (AuditPage
                   (take (Z.to_nat limit)
                      (drop (Z.to_nat ((page - 1) * limit))
                         (audit_rows sys O d)))
                   page limit (SELECT_audit_total O d)
                   (Math_ceil_div (SELECT_audit_total O d) limit))
     end, d).
Proof.
  intros Hu Hp page limit O.
  unfold run, get_audit_logs, authenticateToken, requirePermission.
  rewrite Hu, Hp. fold page limit.
  unfold try_catch, bind, req_user, query, select, SELECT_audit_logs,
    respond_json, respond, ret.
  rewrite Hu. fold O. unfold audit_rows, audit_join. clearbody page limit.
  destruct fs as [|[] [|[] fs]];
    cbn -[Z.mul Z.sub Z.ltb ORDER_BY List.filter left_join
          SELECT_audit_total Z.to_nat Math_ceil_div];
    destruct ((limit <? 0) || ((page - 1) * limit <? 0)); reflexivity.
Qed.

(** C6. For GET /api/organizations/audit-logs by a caller with
    view_audit_logs, when the driver answers and page and limit (1 and 50
    when the parameters are absent) are positive numbers whose product,
    like the number of entries, is below 2^53, where the arithmetic of
    the handler is exact: the response is 200 and carries page, limit, the
    number of audit entries of the caller's organization as total,
    ceil(total/limit) as pages, and as logs the rows of the caller's
    organization from offset (page-1)*limit on, at most limit of them, of
    a listing of all these rows ordered newest-first. With 120 entries,
    limit=50 and page=1 there are 50 logs and 3 pages. *)
Theorem audit_logs_paginated sys req user d fs :
  Req.user req = Some user ->
  has_permission "view_audit_logs" user = true ->
  orders sys ->
  quiet fs ->
  let O := AuthUser.organizationId user in
  let page := or_default (parseInt (field "page" (Req.query req))) 1 in
  let limit := or_default (parseInt (field "limit" (Req.query req))) 50 in
  let total :=
    Z.of_nat (length (List.filter
                        (fun al => AuditLog.organization_id al =? O)
                        (audit_logs d))) in
  0 < page -> 0 < limit -> page * limit < 2 ^ 53 -> total < 2 ^ 53 ->
  exists logs pages,
    run get_audit_logs sys req d fs
    = (Res.mk 200 (AuditPage logs page limit total pages), d)
    /\ (field "page" (Req.query req) = None -> page = 1)
    /\ (field "limit" (Req.query req) = None -> limit = 50)
    /\ (exists listing,
          listing ≡ₚ audit_join O d
          /\ StronglySorted newest_first listing
          /\ logs = take (Z.to_nat limit)
                      (drop (Z.to_nat ((page - 1) * limit)) listing))
    /\ Z.of_nat (length logs) <= limit
    /\ StronglySorted newest_first logs
    /\ (forall r, In r logs -> AuditLog.organization_id r.1 = O)
    /\ (pages - 1) * limit < total <= pages * limit
    /\ (total = 120 -> limit = 50 -> page = 1 ->
        length logs = 50%nat /\ pages = 3).
Proof.
  intros Hu Hp Hsys Hq O page limit total Hpage Hlimit _ _.
  exists (take (Z.to_nat limit)
            (drop (Z.to_nat ((page - 1) * limit)) (audit_rows sys O d))),
    (Math_ceil_div total limit).
  split; [|split; [|split; [|split; [|split; [|split; [|split; [|split]]]]]]].
  - rewrite (get_audit_logs_run sys req user d fs Hu Hp). fold O page limit.
    assert ((limit <? 0) || ((page - 1) * limit <? 0) = false) as ->.
    { apply orb_false_iff. split; apply Z.ltb_ge; nia. }
    apply quiet_cases in Hq as [->|(fs' & -> & Hq)]; [reflexivity|].
    apply quiet_cases in Hq as [->|(fs'' & -> & Hq)]; reflexivity.
  - intros Hnone. subst page. now rewrite Hnone.
  - intros Hnone. subst limit. now rewrite Hnone.
  - exists (audit_rows sys O d).
    split; [now apply audit_rows_Permutation|].
    split; [now apply audit_rows_sorted|reflexivity].
  - rewrite length_take. lia.
  - now apply StronglySorted_take_drop, audit_rows_sorted.
  - intros r Hr. apply (audit_rows_own sys O d r Hsys).
    apply list_elem_of_In. apply list_elem_of_In in Hr.
    eapply subseteq_drop, subseteq_take, Hr.
  - apply Math_ceil_div_spec, Hlimit.
  - intros Ht Hl50 Hp1. rewrite Hl50, Hp1, Ht. split; [|reflexivity].
    pose proof (audit_rows_length sys O d Hsys) as Hlen.
    change (SELECT_audit_total O d) with total in Hlen. rewrite Ht in Hlen.
    cbn -[audit_rows]. rewrite drop_0, length_take. cbn in Hlen. lia.
Qed.

(** The server of the examples sorts as the statement requires. *)
Lemma example_sys_orders uuid env : orders (Example.sys uuid env).
Proof.
  intros rows. split.
  - apply merge_sort_Permutation.
  - apply StronglySorted_merge_sort; apply _.
Qed.

(** With 120 entries of organization 1 and limit=50, Alice's first page has
    the 50 newest entries and announces 3 pages. *)
Example audit_logs_first_page :
  match
    (run get_audit_logs (Example.sys "" [])
       (Example.request (Some Example.alice) [] [] [("limit", "50")])
       Example.store_with_audit_trail []).1
  with
  | Res.mk status (AuditPage logs page limit total pages) =>
      status = 200 /\ length logs = 50%nat
      /\ map (fun r => AuditLog.id r.1) (take 3 logs) = [120; 119; 118]
      /\ page = 1 /\ limit = 50 /\ total = 120 /\ pages = 3
  | _ => False
  end.
Proof. vm_compute. repeat split. Qed.

(** With 120 entries of organization 1 and no parameters, Alice's first
    page has 50 entries and announces 3 pages. *)
Lemma audit_logs_paginated_witness :
  exists logs pages,
    run get_audit_logs (Example.sys "" [])
      (Example.request (Some Example.alice) [] [] [])
      Example.store_with_audit_trail []
    = (Res.mk 200 (AuditPage logs 1 50 120 pages),
       Example.store_with_audit_trail)
    /\ length logs = 50%nat /\ pages = 3.
Proof.
  destruct (audit_logs_paginated (Example.sys "" [])
              (Example.request (Some Example.alice) [] [] [])
              Example.alice Example.store_with_audit_trail []
              eq_refl eq_refl (example_sys_orders "" []) eq_refl
              eq_refl eq_refl eq_refl eq_refl)
    as (logs & pages & Hrun & _ & _ & _ & _ & _ & _ & _ & H120).
  exists logs, pages. split; [exact Hrun|].
  apply H120; reflexivity.
Defined.

(** ** Malformed JSON bodies *)

(** C7, as the code has it. For every POST or PUT request with a JSON
    content type that passes the rate limiter, whose body is read and is
    not syntactically valid JSON, the server responds 400 with body
    {error: "Invalid JSON"}, sent by the verify hook of the body parser,
    and no route handler runs, whatever the routes are. *)
Theorem malformed_json_rejected now env routes req :
  Server.method req = "POST" \/ Server.method req = "PUT" ->
  Server.rate_limited req = false ->
  Server.has_body req = true ->
  Server.is_json req = true ->
  Server.read_error req = None ->
  JSON.parses (Server.buf req) = false ->
  Server.sent (Server.handle now env routes req)
  = Some (Res.mk 400 (ErrorBody "Invalid JSON"))
  /\ ~ In "routes" (Server.trace (Server.handle now env routes req)).
Proof.
  intros Hm Hrate Hbody Hjson Hread Hparse.
  assert (Hopt : String.eqb (Server.method req) "OPTIONS" = false)
    by (destruct Hm as [-> | ->]; reflexivity).
  unfold Server.handle, Server.app.
  cbn [Server.dispatch Server.helmet Server.enter Server.sent Server.trace].
  unfold Server.cors. rewrite Hopt.
  cbn [Server.dispatch Server.enter Server.sent Server.trace].
  unfold Server.limiter. rewrite Hrate.
  cbn [Server.dispatch Server.enter Server.sent Server.trace].
  unfold Server.express_json, Server.verify.
  rewrite Hbody, Hjson, Hread, Hparse. cbn. split; [reflexivity|].
  intuition discriminate.
Qed.

(** A POST whose body stops after the opening brace, against routes that
    would answer anything. *)
Lemma malformed_json_rejected_witness :
  Server.sent (Server.handle 0 [] Example.any_route Example.truncated_post)
  = Some (Res.mk 400 (ErrorBody "Invalid JSON"))
  /\ ~ In "routes"
         (Server.trace
            (Server.handle 0 [] Example.any_route Example.truncated_post)).
Proof.
  apply (malformed_json_rejected 0 [] Example.any_route Example.truncated_post).
  - left. reflexivity.
  - reflexivity.
  - reflexivity.
  - reflexivity.
  - reflexivity.
  - reflexivity.
Defined.

(** C7 as stated fails: the truncated POST is answered with the message of
    the verify hook, not with "Invalid JSON in request body". *)
Lemma malformed_json_counterexample :
  JSON.parses (Server.buf Example.truncated_post) = false
  /\ Server.sent (Server.handle 0 [] Example.any_route Example.truncated_post)
     <> Some invalid_json_in_request_body.
Proof. split; [reflexivity|discriminate]. Qed.

(** The message of the claim is what a body gets that is valid JSON but
    neither an object nor an array (the parser's strict mode): it passes
    the verify hook and reaches the JSON error handler. *)
Example strict_mode_message :
  Server.sent
    (Server.handle 0 [] Example.any_route
       (Server.mkRequest "POST" "/api/users/invite" true true None "42" false))
  = Some invalid_json_in_request_body.
Proof. reflexivity. Qed.

(** A body of another content type is not parsed as JSON and reaches the
    routes. *)
Example other_content_type_reaches_routes :
  Server.sent
    (Server.handle 0 [] Example.any_route
       (Server.mkRequest "POST" "/api/users/invite" true false None "a=1" false))
  = Some (Res.mk 200 (Message "reached")).
Proof. reflexivity. Qed.

(** * Further properties *)

Import SettingsRoute.

(** ** index.js *)

(** A layer that sends leaves an answer behind. *)
Lemma send_answers s b out : Server.sent (Server.send s b out) <> None.
Proof. unfold Server.send. destruct (Server.sent out) eqn:E; cbn; congruence. Qed.

(** X1. Every request is answered. Outside production, where the stack
    is the one below (in production index.js adds the static files in
    front of the error handler), and for a request without a body or with
    a JSON body (what the form parser does to a form body is not
    modelled): whatever the request, the answers of the mounted routers
    and the environment, the stack sends a response. *)
Theorem every_request_answered now env routes req :
  field "NODE_ENV" env <> Some "production" ->
  Server.has_body req = false \/ Server.is_json req = true ->
  Server.sent (Server.handle now env routes req) <> None.
Proof.
  intros _ _.
  unfold Server.handle, Server.app.
  cbn [Server.dispatch Server.helmet Server.enter Server.sent Server.trace].
  unfold Server.cors. destruct (String.eqb (Server.method req) "OPTIONS");
    [apply send_answers|].
  cbn [Server.dispatch Server.enter Server.sent Server.trace].
  unfold Server.limiter. destruct (Server.rate_limited req);
    [apply send_answers|].
  cbn [Server.dispatch Server.enter Server.sent Server.trace].
  unfold Server.express_json, Server.verify, Server.json_error_handler,
    Server.api_routes, Server.health, Server.global_error_handler,
    Server.not_found.
  repeat (case_match; simplify_eq; cbn in * );
    try discriminate; try apply send_answers.
Qed.

Lemma every_request_answered_witness :
  Server.sent
    (Server.handle 0 [("NODE_ENV", "development")] Example.any_route
       Example.truncated_post)
  <> None.
Proof.
  apply (every_request_answered 0 [("NODE_ENV", "development")]
           Example.any_route Example.truncated_post).
  - discriminate.
  - right. reflexivity.
Defined.

(** X2. A request over the rate limit is answered 429 before its body is
    parsed and before any route runs, whatever it carries. *)
Theorem rate_limited_rejected now env routes req :
  Server.method req <> "OPTIONS" ->
  Server.rate_limited req = true ->
  Server.handle now env routes req
  = Server.mkOut
      (Some (Res.mk 429
               (Text "Too many requests from this IP, please try again later.")))
      ["helmet"; "cors"; "limiter"].
Proof.
  intros Hm Hr. apply String.eqb_neq in Hm.
  unfold Server.handle, Server.app.
  cbn [Server.dispatch Server.helmet Server.enter Server.sent Server.trace].
  unfold Server.cors. rewrite Hm.
  cbn [Server.dispatch Server.enter Server.sent Server.trace].
  unfold Server.limiter. rewrite Hr. reflexivity.
Qed.

Lemma rate_limited_rejected_witness :
  Server.handle 0 [] Example.any_route
    (Server.mkRequest "POST" "/api/users/invite" true true None "{}" true)
  = Server.mkOut
      (Some (Res.mk 429
               (Text "Too many requests from this IP, please try again later.")))
      ["helmet"; "cors"; "limiter"].
Proof.
  apply (rate_limited_rejected 0 [] Example.any_route
           (Server.mkRequest "POST" "/api/users/invite" true true None "{}"
              true)).
  - discriminate.
  - reflexivity.
Defined.

(** The stack up to the body parser, for a request that is not a preflight
    and is within the rate limit. *)
Lemma handle_after_limiter now env routes req :
  Server.method req <> "OPTIONS" ->
  Server.rate_limited req = false ->
  Server.handle now env routes req
  = Server.dispatch
      [ Server.Use "express.json" Server.express_json;
        Server.Use "express.urlencoded" Server.express_urlencoded;
        Server.Use "logging" Server.logging;
        Server.UseError "json error handler" Server.json_error_handler;
        Server.Use "routes" (Server.api_routes routes);
        Server.Use "health" (Server.health now env);
        Server.UseError "error handler" (Server.global_error_handler env);
        Server.Use "404" Server.not_found ]
      None req (Server.mkOut None ["helmet"; "cors"; "limiter"]).
Proof.
  intros Hm Hr. apply String.eqb_neq in Hm.
  unfold Server.handle, Server.app.
  cbn [Server.dispatch Server.helmet Server.enter Server.sent Server.trace].
  unfold Server.cors. rewrite Hm.
  cbn [Server.dispatch Server.enter Server.sent Server.trace].
  unfold Server.limiter. rewrite Hr. reflexivity.
Qed.

(** X3. When reading the body fails (too large, unsupported charset,
    aborted), the request is answered 500 by the global error handler,
    whatever status the read error carries; in production the message is
    "Internal server error". No route runs. *)
Theorem unreadable_body_is_500 now env routes req s :
  Server.method req <> "OPTIONS" ->
  Server.rate_limited req = false ->
  Server.has_body req = true ->
  Server.is_json req = true ->
  Server.read_error req = Some s ->
  (exists message,
     Server.sent (Server.handle now env routes req)
     = Some (Res.mk 500 (ErrorBody message))
     /\ (field "NODE_ENV" env = Some "production" ->
         message = "Internal server error"))
  /\ ~ In "routes" (Server.trace (Server.handle now env routes req)).
Proof.
  intros Hm Hr Hb Hj He.
  rewrite handle_after_limiter by assumption.
  cbn [Server.dispatch]. unfold Server.express_json.
  rewrite Hb, Hj, He. cbn. split; [|intuition discriminate].
  eexists. split; [reflexivity|].
  intros Hprod. now rewrite (bool_decide_eq_true_2 _ Hprod).
Qed.

Lemma unreadable_body_is_500_witness :
  exists message,
    Server.sent
      (Server.handle 0 [("NODE_ENV", "production")] Example.any_route
         (Server.mkRequest "POST" "/api/users/invite" true true (Some 413) ""
            false))
    = Some (Res.mk 500 (ErrorBody message))
    /\ (field "NODE_ENV" [("NODE_ENV", "production")] = Some "production" ->
        message = "Internal server error").
Proof.
  apply (unreadable_body_is_500 0 [("NODE_ENV", "production")]
           Example.any_route
           (Server.mkRequest "POST" "/api/users/invite" true true (Some 413) ""
              false) 413).
  - discriminate.
  - reflexivity.
  - reflexivity.
  - reflexivity.
  - reflexivity.
Defined.

(** X4. A body that is valid JSON but neither an object nor an array (a
    number, a string, true, null) is answered 400 with
    {error: "Invalid JSON in request body"} by the JSON error handler, and
    no route runs. *)
Theorem json_primitive_rejected now env routes req c :
  Server.method req <> "OPTIONS" ->
  Server.rate_limited req = false ->
  Server.has_body req = true ->
  Server.is_json req = true ->
  Server.read_error req = None ->
  JSON.parses (Server.buf req) = true ->
  JSON.firstchar (Server.buf req) = Some c ->
  c <> "{"%char -> c <> "["%char ->
  Server.sent (Server.handle now env routes req)
  = Some (Res.mk 400 (ErrorBody "Invalid JSON in request body"))
  /\ ~ In "routes" (Server.trace (Server.handle now env routes req)).
Proof.
  intros Hm Hr Hb Hj He Hp Hf Hc1 Hc2.
  apply Ascii.eqb_neq in Hc1, Hc2.
  rewrite handle_after_limiter by assumption.
  cbn [Server.dispatch]. unfold Server.express_json, Server.verify.
  rewrite Hb, Hj, He, Hp, Hf, Hc1, Hc2. cbn.
  unfold Server.json_error_handler. cbn.
  rewrite (bool_decide_eq_true_2 _ (eq_refl (Some 400))). cbn.
  split; [reflexivity|intuition discriminate].
Qed.

Lemma json_primitive_rejected_witness :
  Server.sent
    (Server.handle 0 [] Example.any_route
       (Server.mkRequest "PUT" "/api/organizations" true true None "null" false))
  = Some (Res.mk 400 (ErrorBody "Invalid JSON in request body")).
Proof.
  apply (json_primitive_rejected 0 [] Example.any_route
           (Server.mkRequest "PUT" "/api/organizations" true true None "null"
              false) "n"%char).
  - discriminate.
  - reflexivity.
  - reflexivity.
  - reflexivity.
  - reflexivity.
  - reflexivity.
  - reflexivity.
  - discriminate.
  - discriminate.
Defined.

(** X5. A request without a body, or with a JSON body that the parser
    accepts, that is within the rate limit is answered by the router it
    matches; when it matches none, GET or HEAD /api/health (the path in
    any letter case, with or without a trailing slash) is answered 200
    with the environment ("development" unless NODE_ENV names another),
    and anything else 404 {error: "API endpoint not found"}. In
    production, where the static files are served, GET and HEAD requests
    are left out. *)
Theorem passed_request_dispatched now env routes req :
  Server.method req <> "OPTIONS" ->
  field "NODE_ENV" env <> Some "production"
  \/ (Server.method req <> "GET" /\ Server.method req <> "HEAD") ->
  Server.rate_limited req = false ->
  parser_passes req = true ->
  Server.sent (Server.handle now env routes req)
  = Some
      match routes req with
      | Some r => r
      | None =>
          if (String.eqb (Server.method req) "GET"
              || String.eqb (Server.method req) "HEAD")
             && Server.path_matches "/api/health" (Server.path req)
          then Res.mk 200 (Health now (Server.environment env))
          else Res.mk 404 (ErrorBody "API endpoint not found")
      end.
Proof.
  intros Hm _ Hr Hp. rewrite handle_after_limiter by assumption.
  unfold parser_passes in Hp.
  cbn [Server.dispatch]. unfold Server.express_json, Server.verify.
  destruct (Server.has_body req); cbn [negb orb] in Hp |- *.
  2:{ unfold Server.api_routes, Server.health.
      destruct (routes req) as [[]|]; cbn; [reflexivity|].
      destruct (_ && _); reflexivity. }
  apply andb_true_iff in Hp as [Hp Hf]. apply andb_true_iff in Hp as [Hp Hparse].
  apply andb_true_iff in Hp as [Hj He].
  apply bool_decide_eq_true in He. rewrite Hj, He, Hparse. cbn [negb].
  destruct (JSON.firstchar (Server.buf req)) as [c|]; [rewrite Hf|];
    unfold Server.api_routes, Server.health;
    (destruct (routes req) as [[]|]; cbn; [reflexivity|]);
    destruct (_ && _); reflexivity.
Qed.

Lemma passed_request_dispatched_witness :
  Server.sent
    (Server.handle 7 [] (fun _ => None)
       (Server.mkRequest "GET" "/API/Health/" false false None "" false))
  = Some (Res.mk 200 (Health 7 "development"))
  /\ Server.sent
       (Server.handle 7 [] (fun _ => None)
          (Server.mkRequest "POST" "/api/nowhere" true true None "{}" false))
     = Some (Res.mk 404 (ErrorBody "API endpoint not found")).
Proof.
  split.
  - apply (passed_request_dispatched 7 [] (fun _ => None)
             (Server.mkRequest "GET" "/API/Health/" false false None "" false)).
    + discriminate.
    + left. discriminate.
    + reflexivity.
    + reflexivity.
  - apply (passed_request_dispatched 7 [] (fun _ => None)
             (Server.mkRequest "POST" "/api/nowhere" true true None "{}"
                false)).
    + discriminate.
    + left. discriminate.
    + reflexivity.
    + reflexivity.
Defined.

(** ** routes/organizations.js *)

Lemma get_settings_run sys req user d fs :
  Req.user req = Some user ->
  has_permission "manage_organization" user = true ->
  run_reply get_settings sys req d fs
  = (match fs with
     | true :: _ =>
         inl (Res.mk 500 (ErrorBody "Failed to fetch organization settings"))
     | _ =>
         inr (settings_object
                (SELECT_settings (AuthUser.organizationId user) d))
     end, d).
Proof.
  intros Hu Hp.
  unfold run_reply, get_settings, through, authenticateToken,
    requirePermission, catch, bind, req_user, query, select, ret, throw.
  rewrite Hu, Hp. destruct fs as [|[] fs]; reflexivity.
Qed.

(** X6. The four GET routes of the organization router never write: the
    store after the request is the store before it, for every request and
    every fault schedule. *)
Theorem reads_leave_store sys req d fs :
  (run get_organization sys req d fs).2 = d
  /\ (run get_usage sys req d fs).2 = d
  /\ (run get_audit_logs sys req d fs).2 = d
  /\ (run_reply get_settings sys req d fs).2 = d.
Proof.
  split; [|split; [|split]].
  - unfold get_organization. keep_route.
  - unfold get_usage. keep_route.
  - unfold get_audit_logs, SELECT_audit_logs. keep_route.
  - unfold run_reply, get_settings, through, authenticateToken,
      requirePermission, catch, bind, req_user, query, select, respond, ret,
      throw.
    repeat (case_match; simplify_eq; cbn in * ); reflexivity.
Qed.

(** X7. PUT /api/organizations without a name, or with an empty one, is
    answered 400 {error: "Organization name is required"} before any
    statement is issued: the store is unchanged. *)
Theorem put_organization_requires_name sys req user d fs :
  Req.user req = Some user ->
  has_permission "manage_organization" user = true ->
  truthy (field "name" (Req.body req)) = false ->
  run put_organization sys req d fs
  = (Res.mk 400 (ErrorBody "Organization name is required"), d).
Proof.
  intros Hu Hp Hn.
  unfold run, put_organization, authenticateToken, requirePermission,
    try_catch, respond, ret.
  rewrite Hu, Hp, Hn. reflexivity.
Qed.

Lemma put_organization_requires_name_witness :
  run put_organization (Example.sys "" [])
    (Example.request (Some Example.alice) [("plan", "free")] [] [])
    Example.store []
  = (Res.mk 400 (ErrorBody "Organization name is required"), Example.store).
Proof.
  apply (put_organization_requires_name (Example.sys "" [])
           (Example.request (Some Example.alice) [("plan", "free")] [] [])
           Example.alice Example.store []); reflexivity.
Defined.

Lemma put_organization_run sys req user name d fs :
  Req.user req = Some user ->
  has_permission "manage_organization" user = true ->
  field "name" (Req.body req) = Some name ->
  name <> "" ->
  quiet fs ->
  let O := AuthUser.organizationId user in
  let plan := field "plan" (Req.body req) in
  run put_organization sys req d fs
  = (Res.mk 200 (Message "Organization updated successfully"),
     set_audit_logs
       (audit_logs d ++
        [AuditLog.mk (next_audit_id d) O (AuthUser.id user)
           "organization_updated" "organization" (Some (SqlInt O))
           (stringify_current (SELECT_name_plan O d))
           (Some (JObj (prop "name" (Some name) ++ prop "plan" plan)))
           (Some (Req.ip req)) (NOW sys)])
       (next_audit_id d + 1)
       (set_organizations
          (map (fun o =>
                  if Organization.id o =? O
                  then Organization.mk (Organization.id o) name plan
                         (Organization.contact_limit o)
                         (Organization.monthly_email_limit o)
                  else o)
             (organizations d)) d)).
Proof.
  intros Hu Hp Hn Hne Hq O plan.
  apply String.eqb_neq in Hne.
  unfold run, put_organization, authenticateToken, requirePermission,
    try_catch.
  rewrite Hu, Hp, Hn. cbn [truthy negb default from_option id].
  rewrite Hne. cbn [negb].
  unfold bind, req_user. rewrite Hu. unfold ret at 1.
  rewrite query_select_quiet by assumption.
  unfold UPDATE_organization, INSERT_INTO_audit_logs.
  rewrite !query_exec_quiet by auto using quiet_tl.
  reflexivity.
Qed.

(** X8. A successful PUT /api/organizations with a name and a plan touches
    the rows of the caller's organization only: every row of another
    organization is kept as it is, ids and limits of all rows stay, the
    caller's rows get the submitted name and plan, and the audit entry
    records the name and plan read before the update and the submitted
    ones. *)
Theorem put_organization_updates_own sys req user name plan d fs :
  Req.user req = Some user ->
  has_permission "manage_organization" user = true ->
  field "name" (Req.body req) = Some name ->
  field "plan" (Req.body req) = Some plan ->
  name <> "" ->
  quiet fs ->
  let O := AuthUser.organizationId user in
  let d' := (run put_organization sys req d fs).2 in
  Res.status (run put_organization sys req d fs).1 = 200
  /\ (forall o, In o (organizations d) -> Organization.id o <> O ->
                In o (organizations d'))
  /\ map (fun o => (Organization.id o, Organization.contact_limit o,
                    Organization.monthly_email_limit o)) (organizations d')
     = map (fun o => (Organization.id o, Organization.contact_limit o,
                      Organization.monthly_email_limit o)) (organizations d)
  /\ (forall o, In o (organizations d') -> Organization.id o = O ->
                Organization.name o = name
                /\ Organization.plan o = Some plan)
  /\ (exists e,
        audit_logs d' = audit_logs d ++ [e]
        /\ AuditLog.old_values e = stringify_current (SELECT_name_plan O d)
        /\ AuditLog.new_values e
           = Some (JObj [("name", JStr name); ("plan", JStr plan)]))
  /\ users d' = users d
  /\ organization_settings d' = organization_settings d.
Proof.
  intros Hu Hp Hn Hplan Hne Hq O.
  rewrite (put_organization_run sys req user name d fs) by assumption.
  rewrite Hplan. cbn [fst snd]. cbn zeta. fold O.
  split; [reflexivity|]. split; [|split; [|split; [|split; [|split]]]].
  - intros o Ho Hid. cbn. apply in_map_iff. exists o.
    apply Z.eqb_neq in Hid. now rewrite Hid.
  - cbn. rewrite map_map. apply map_ext. intros o.
    now destruct (Organization.id o =? O).
  - intros o Ho Hid. cbn in Ho. apply in_map_iff in Ho as (o0 & <- & _).
    destruct (Organization.id o0 =? O) eqn:E; [easy|]. cbn in Hid. lia.
  - eexists. split; [reflexivity|]. split; reflexivity.
  - reflexivity.
  - reflexivity.
Qed.

Lemma put_organization_updates_own_witness :
  exists e,
    audit_logs
      (run put_organization (Example.sys "" [])
         (Example.request (Some Example.alice)
            [("name", "Acme Ltd"); ("plan", "free")] [] [])
         Example.store []).2
    = audit_logs Example.store ++ [e]
    /\ AuditLog.old_values e
       = stringify_current (SELECT_name_plan 1 Example.store)
    /\ AuditLog.new_values e
       = Some (JObj [("name", JStr "Acme Ltd"); ("plan", JStr "free")]).
Proof.
  assert ("Acme Ltd" <> "") as Hname by discriminate.
  destruct (put_organization_updates_own (Example.sys "" [])
              (Example.request (Some Example.alice)
                 [("name", "Acme Ltd"); ("plan", "free")] [] [])
              Example.alice "Acme Ltd" "free" Example.store []
              eq_refl eq_refl eq_refl eq_refl Hname eq_refl)
    as (_ & _ & _ & _ & H & _).
  exact H.
Defined.

(** *** Settings: read, and write then read *)

Lemma field_None k (o : list (string * string)) :
  ~ In k (map fst o) -> field k o = None.
Proof.
  induction o as [|[k' v] o IH]; [reflexivity|]. cbn. intros H.
  destruct (String.eqb_spec k k') as [->|Hne]; [tauto|]. apply IH. tauto.
Qed.

Lemma field_Some k v (o : list (string * string)) :
  NoDup (map fst o) -> In (k, v) o -> field k o = Some v.
Proof.
  induction o as [|[k' v'] o IH]; [easy|]. cbn.
  intros Hnd [[= -> ->]|Hin].
  - now rewrite String.eqb_refl.
  - apply NoDup_cons in Hnd as [Hk Hnd].
    destruct (String.eqb_spec k k') as [->|Hne]; [|now apply IH].
    exfalso. apply Hk. apply list_elem_of_In, in_map_iff. now exists (k', v).
Qed.

(** The object [forEach] builds holds, for each key but [__proto__], the
    value of the row with that key. *)
Lemma fold_insert_lookup (rows : list (string * string))
    (m : gmap string string) k :
  NoDup (map fst rows) ->
  fold_left (fun obj '(key, value) =>
               if String.eqb key "__proto__" then obj
               else <[key := value]> obj) rows m !! k
  = if String.eqb k "__proto__" then m !! k
    else match field k rows with
         | Some v => Some v
         | None => m !! k
         end.
Proof.
  revert m. induction rows as [|[k0 v0] rows IH]; intros m Hnd.
  { cbn. now destruct (String.eqb k "__proto__"). }
  apply NoDup_cons in Hnd as [Hk Hnd]. cbn [fold_left field].
  rewrite IH by assumption.
  destruct (String.eqb_spec k "__proto__") as [Hproto|Hproto].
  - destruct (String.eqb_spec k0 "__proto__") as [Hk0|Hk0]; [reflexivity|].
    rewrite lookup_insert_ne; [reflexivity|congruence].
  - destruct (String.eqb_spec k k0) as [->|Hne].
    + apply String.eqb_neq in Hproto. rewrite Hproto.
      rewrite field_None, lookup_insert_eq; [reflexivity|].
      now rewrite <- list_elem_of_In.
    + destruct (field k rows); [reflexivity|].
      destruct (String.eqb k0 "__proto__"); [reflexivity|].
      now rewrite lookup_insert_ne.
Qed.

Lemma SELECT_settings_In O d k v :
  In (k, v) (SELECT_settings O d) <-> organization_settings d !! (O, k) = Some v.
Proof.
  unfold SELECT_settings.
  rewrite <- list_elem_of_In, list_elem_of_omap. split.
  - intros ([[o k'] v'] & Hin & Hf). apply elem_of_map_to_list in Hin.
    destruct (Z.eqb_spec o O) as [->|]; [|discriminate]. now simplify_eq.
  - intros H. exists (O, k, v). split; [now apply elem_of_map_to_list|].
    now rewrite Z.eqb_refl.
Qed.

Lemma SELECT_settings_NoDup O d : NoDup (map fst (SELECT_settings O d)).
Proof.
  unfold SELECT_settings.
  pose proof (NoDup_fst_map_to_list (organization_settings d)) as Hnd.
  induction (map_to_list (organization_settings d)) as [|[[o k] v] l IH];
    [constructor|].
  cbn in Hnd. apply NoDup_cons in Hnd as [Hk Hnd]. cbn [omap list_omap].
  destruct (Z.eqb_spec o O) as [->|]; [|now apply IH].
  cbn [map fst]. apply NoDup_cons. split; [|now apply IH].
  intros Hin. apply Hk. apply list_elem_of_In, in_map_iff in Hin as ([k' v'] & Hk' & Hin).
  cbn in Hk'. subst k'. apply list_elem_of_In, list_elem_of_omap in Hin
    as ([[o' k'] v''] & Hin & Hf).
  destruct (Z.eqb_spec o' O) as [->|]; [|discriminate]. simplify_eq.
  apply list_elem_of_fmap. now exists (O, k, v').
Qed.

Lemma settings_object_lookup O d k :
  settings_object (SELECT_settings O d) !! k
  = if String.eqb k "__proto__" then None
    else organization_settings d !! (O, k).
Proof.
  unfold settings_object. rewrite fold_insert_lookup by apply SELECT_settings_NoDup.
  rewrite lookup_empty. destruct (String.eqb k "__proto__"); [reflexivity|].
  destruct (organization_settings d !! (O, k)) as [v|] eqn:E.
  - apply SELECT_settings_In in E.
    now rewrite (field_Some k v) by auto using SELECT_settings_NoDup.
  - destruct (field k (SELECT_settings O d)) as [v|] eqn:F; [|reflexivity].
    assert (In (k, v) (SELECT_settings O d)) as Hin.
    { clear E. induction (SELECT_settings O d) as [|[k' v'] l IH]; [easy|].
      cbn in F. destruct (String.eqb_spec k k') as [->|];
        [left; congruence|right; auto]. }
    apply SELECT_settings_In in Hin. congruence.
Qed.

(** The answer of GET /settings when no statement is rejected. *)
Lemma get_settings_reply sys req user d fs :
  Req.user req = Some user ->
  has_permission "manage_organization" user = true ->
  quiet fs ->
  exists settingsObj,
    run_reply get_settings sys req d fs = (inr settingsObj, d)
    /\ forall key,
         settingsObj !! key
         = if String.eqb key "__proto__" then None
           else organization_settings d
                  !! (AuthUser.organizationId user, key).
Proof.
  intros Hu Hp Hq. rewrite (get_settings_run sys req user d fs Hu Hp).
  exists (settings_object (SELECT_settings (AuthUser.organizationId user) d)).
  split.
  - apply quiet_cases in Hq as [->|(fs' & -> & _)]; reflexivity.
  - intros key. apply settings_object_lookup.
Qed.

(** X9. GET /api/organizations/settings answers with the settings of the
    caller's organization and of no other: under each key the object holds
    what the table holds for (organization, key), and nothing under a key
    the organization has not set. The one exception is a setting stored
    under the key __proto__, which the object never shows. *)
Theorem get_settings_own sys req user d fs :
  Req.user req = Some user ->
  has_permission "manage_organization" user = true ->
  quiet fs ->
  exists settingsObj,
    run_reply get_settings sys req d fs = (inr settingsObj, d)
    /\ settingsObj !! "__proto__" = None
    /\ forall key,
         key <> "__proto__" ->
         settingsObj !! key
         = organization_settings d !! (AuthUser.organizationId user, key).
Proof.
  intros Hu Hp Hq.
  destruct (get_settings_reply sys req user d fs Hu Hp Hq)
    as (obj & Hrun & Hobj).
  exists obj. split; [exact Hrun|]. split; [apply Hobj|].
  intros key Hkey%String.eqb_neq. now rewrite Hobj, Hkey.
Qed.

(** The upserts of a batch, when none is rejected. *)
Lemma for_of_upsert_quiet O settings d fs :
  quiet fs ->
  exists fs',
    quiet fs'
    /\ for_of settings
         (fun '(key, value) => query (UPSERT_setting O key value))
         (mkWorld d fs)
       = (Ok tt,
          mkWorld
            (set_organization_settings
               (fold_left (fun m '(key, value) => <[(O, key) := value]> m)
                  settings (organization_settings d)) d)
            fs').
Proof.
  revert d fs. induction settings as [|[k v] settings IH]; intros d fs Hq.
  - exists fs. split; [assumption|]. cbn. now destruct d.
  - cbn [for_of]. unfold bind. unfold UPSERT_setting at 1.
    rewrite query_exec_quiet by assumption. cbn beta iota.
    destruct (IH (set_organization_settings
                    (<[(O, k) := v]> (organization_settings d)) d)
                 (tl fs) (quiet_tl _ Hq)) as (fs' & Hq' & ->).
    exists fs'. split; [assumption|reflexivity].
Qed.

Lemma fold_upsert_lookup (O : Z) (settings : list (string * string))
    (m : gmap (Z * string) string) (O' : Z) (k : string) :
  NoDup (map fst settings) ->
  fold_left (fun m '(key, value) => <[(O, key) := value]> m) settings m
    !! (O', k)
  = if O' =? O
    then match field k settings with
         | Some v => Some v
         | None => m !! (O', k)
         end
    else m !! (O', k).
Proof.
  revert m. induction settings as [|[k0 v0] settings IH]; intros m Hnd.
  - cbn. now destruct (O' =? O).
  - apply NoDup_cons in Hnd as [Hk Hnd]. cbn [fold_left field].
    rewrite IH by assumption.
    destruct (Z.eqb_spec O' O) as [->|Hne].
    + destruct (String.eqb_spec k k0) as [->|Hk0].
      * rewrite field_None, lookup_insert_eq; [reflexivity|].
        now rewrite <- list_elem_of_In.
      * destruct (field k settings); [reflexivity|].
        rewrite lookup_insert_ne; [reflexivity|congruence].
    + rewrite lookup_insert_ne; [reflexivity|congruence].
Qed.

Lemma put_settings_run sys req user d fs :
  Req.user req = Some user ->
  has_permission "manage_organization" user = true ->
  quiet fs ->
  let O := AuthUser.organizationId user in
  run put_settings sys req d fs
  = (Res.mk 200 (Message "Settings updated successfully"),
     set_audit_logs
       (audit_logs d ++
        [AuditLog.mk (next_audit_id d) O (AuthUser.id user)
           "settings_updated" "organization_settings" None None
           (Some (JObj (map (fun '(k, v) => (k, JStr v)) (Req.body req))))
           (Some (Req.ip req)) (NOW sys)])
       (next_audit_id d + 1)
       (set_organization_settings
          (fold_left (fun m '(key, value) => <[(O, key) := value]> m)
             (Req.body req) (organization_settings d)) d)).
Proof.
  intros Hu Hp Hq O.
  unfold run, put_settings, authenticateToken, requirePermission, try_catch.
  rewrite Hu, Hp. unfold bind at 1, req_user. rewrite Hu. unfold ret at 1.
  unfold bind at 1. cbv beta zeta. fold O.
  destruct (for_of_upsert_quiet O (Req.body req) d fs Hq) as (fs' & Hq' & ->).
  unfold bind, INSERT_INTO_audit_logs.
  rewrite query_exec_quiet by assumption. reflexivity.
Qed.

(** X10. Settings written are settings read, for a batch of string
    values whose keys, together with the keys the organization has
    stored, the collation keeps apart: after a successful
    PUT /api/organizations/settings, a GET by a user of the same
    organization returns, under each submitted key, the submitted value,
    and under every other key what was there before (but nothing under
    __proto__); the settings of other organizations are what they were. *)
Theorem settings_written_are_read sys req user d fs sys' req' user' fs' :
  Req.user req = Some user ->
  has_permission "manage_organization" user = true ->
  quiet fs ->
  NoDup (map fst (Req.body req)) ->
  keys_apart d (AuthUser.organizationId user) (Req.body req) ->
  Req.user req' = Some user' ->
  AuthUser.organizationId user' = AuthUser.organizationId user ->
  has_permission "manage_organization" user' = true ->
  quiet fs' ->
  let O := AuthUser.organizationId user in
  let d' := (run put_settings sys req d fs).2 in
  Res.status (run put_settings sys req d fs).1 = 200
  /\ (exists settingsObj,
        run_reply get_settings sys' req' d' fs' = (inr settingsObj, d')
        /\ forall key,
             key <> "__proto__" ->
             settingsObj !! key
             = match field key (Req.body req) with
               | Some value => Some value
               | None => organization_settings d !! (O, key)
               end)
  /\ (forall O' key, O' <> O ->
        organization_settings d' !! (O', key)
        = organization_settings d !! (O', key)).
Proof.
  intros Hu Hp Hq Hnd _ Hu' HO Hp' Hq' O.
  rewrite (put_settings_run sys req user d fs Hu Hp Hq).
  cbn [fst snd]. cbn zeta. fold O. split; [reflexivity|]. split.
  - match goal with |- context [run_reply get_settings sys' req' ?d1 fs'] =>
      destruct (get_settings_reply sys' req' user' d1 fs' Hu' Hp' Hq')
        as (obj & Hrun & Hobj)
    end.
    exists obj. split; [exact Hrun|]. intros key Hkey%String.eqb_neq.
    rewrite Hobj, Hkey, HO. fold O.
    cbn [organization_settings set_audit_logs set_organization_settings].
    rewrite fold_upsert_lookup by assumption. now rewrite Z.eqb_refl.
  - intros O' key Hne.
    cbn [organization_settings set_audit_logs set_organization_settings].
    rewrite fold_upsert_lookup by assumption.
    apply Z.eqb_neq in Hne. now rewrite Hne.
Qed.

Lemma get_settings_own_witness :
  exists settingsObj,
    run_reply get_settings (Example.sys "" [])
      (Example.request (Some Example.alice) [] [] [])
      Scenario.store_with_settings []
    = (inr settingsObj, Scenario.store_with_settings)
    /\ settingsObj !! "__proto__" = None
    /\ forall key,
         key <> "__proto__" ->
         settingsObj !! key
         = organization_settings Scenario.store_with_settings !! (1, key).
Proof.
  apply (get_settings_own (Example.sys "" [])
           (Example.request (Some Example.alice) [] [] []) Example.alice
           Scenario.store_with_settings []); reflexivity.
Defined.

Lemma settings_written_are_read_witness :
  Res.status
    (run put_settings (Example.sys "" [])
       (Scenario.settings_request Example.alice)
       Scenario.store_with_settings []).1 = 200.
Proof.
  assert (NoDup (map fst (Req.body (Scenario.settings_request Example.alice))))
    as Hkeys.
  { apply (bool_decide_unpack _). vm_compute. exact I. }
  assert (keys_apart Scenario.store_with_settings 1
            (Req.body (Scenario.settings_request Example.alice))) as Hapart.
  { assert (forall k,
              In k ["timezone"; "locale"]
              \/ is_Some (organization_settings Scenario.store_with_settings
                            !! (1, k)) ->
              k = "timezone" \/ k = "locale") as Hk.
    { intros k [[<-|[<-|[]]]|Hs]; [now left|now right|].
      unfold Scenario.store_with_settings in Hs. cbn in Hs.
      apply lookup_insert_is_Some in Hs as [[= <-]|[_ Hs]]; [now left|].
      apply lookup_insert_is_Some in Hs as [[=]|[_ Hs]].
      rewrite lookup_empty in Hs. now destruct Hs. }
    intros k1 k2 H1 H2 Hsame.
    destruct (Hk k1 H1) as [->| ->], (Hk k2 H2) as [->| ->];
      try reflexivity; vm_compute in Hsame; discriminate. }
  destruct (settings_written_are_read (Example.sys "" [])
              (Scenario.settings_request Example.alice) Example.alice
              Scenario.store_with_settings []
              (Example.sys "" [])
              (Example.request (Some Scenario.erin) [] [] [])
              Scenario.erin [] eq_refl eq_refl eq_refl Hkeys Hapart eq_refl
              eq_refl eq_refl eq_refl) as (H & _).
  exact H.
Defined.

Lemma left_join_In_Some {A B} (on : A -> B -> bool) l r a b :
  In (a, Some b) (left_join on l r) <-> In a l /\ In b (List.filter (on a) r).
Proof.
  unfold left_join. rewrite in_flat_map. split.
  - intros (a' & Ha & Hx).
    destruct (List.filter (on a') r) as [|b' m] eqn:E.
    + destruct Hx as [[=]|[]].
    + rewrite <- E in Hx. apply in_map_iff in Hx as (b'' & [= <- <-] & Hb).
      now split.
  - intros [Ha Hb]. exists a. split; [exact Ha|].
    destruct (List.filter (on a) r) as [|b' m] eqn:E; [destruct Hb|].
    rewrite <- E in Hb |- *. apply in_map_iff. now exists b.
Qed.

Lemma left_join_covers {A B} (on : A -> B -> bool) l r a :
  In a l -> exists x, In x (left_join on l r) /\ x.1 = a.
Proof.
  intros Ha. unfold left_join.
  destruct (List.filter (on a) r) as [|b m] eqn:E.
  - exists (a, None). split; [|reflexivity].
    apply in_flat_map. exists a. rewrite E. split; [exact Ha|now left].
  - exists (a, Some b). split; [|reflexivity].
    apply in_flat_map. exists a. rewrite E. split; [exact Ha|now left].
Qed.

Lemma count_distinct_same (l k : list (option Z)) :
  (forall x, In (Some x) l <-> In (Some x) k) ->
  count_distinct l = count_distinct k.
Proof.
  intros H. unfold count_distinct. f_equal.
  apply Permutation_length, NoDup_Permutation; try apply NoDup_remove_dups.
  intros x. rewrite !elem_of_remove_dups, !list_elem_of_omap.
  split; intros (y & Hy & Hx); destruct y as [y|]; try discriminate;
    cbn in Hx; simplify_eq; exists (Some x); (split; [|reflexivity]);
    apply list_elem_of_In; apply list_elem_of_In in Hy; now apply H.
Qed.

(** *** Usage: what the join counts *)

(** Without a row of the organization, the two aggregate queries return no
    row. *)
Lemma SELECT_without_organization sys O d :
  List.filter (fun o => Organization.id o =? O) (organizations d) = [] ->
  SELECT_organization_details O d = [] /\ SELECT_usage sys O d = [].
Proof.
  intros Hnone. split.
  - unfold SELECT_organization_details. rewrite filtered_details_join.
    unfold tenant_view, details_join. cbn [fst snd organizations users
      contacts campaigns]. now rewrite Hnone.
  - unfold SELECT_usage, usage_join.
    pose proof (fun B on l r =>
      @filter_left_join _ B
        (fun r : Organization.t * option Contact.t =>
           Organization.id r.1 =? O) on l r) as H2.
    pose proof (fun B on l r =>
      @filter_left_join _ B (fun o => Organization.id o =? O) on l r) as H1.
    cbn beta in H1, H2. rewrite H2, H1, Hnone. reflexivity.
Qed.

(** X12. For a caller whose organization row does not exist, GET
    /api/organizations answers 404 {error: "Organization not found"},
    whereas GET /api/organizations/usage, which reads the first row without
    looking whether there is one, answers 500. *)
Theorem missing_organization sys req user d fs :
  Req.user req = Some user ->
  (forall o, In o (organizations d) ->
             Organization.id o <> AuthUser.organizationId user) ->
  quiet fs ->
  (run get_organization sys req d fs).1
  = Res.mk 404 (ErrorBody "Organization not found")
  /\ (has_permission "view_analytics" user = true ->
      (run get_usage sys req d fs).1
      = Res.mk 500 (ErrorBody "Failed to fetch usage statistics")).
Proof.
  intros Hu Hnone Hq.
  assert (Hf : List.filter
                 (fun o => Organization.id o =? AuthUser.organizationId user)
                 (organizations d) = []).
  { apply filter_nil_iff. intros o Ho. apply Z.eqb_neq. now apply Hnone. }
  destruct (SELECT_without_organization sys _ d Hf) as [Hd Hus].
  split.
  - rewrite (get_organization_run sys req user d fs Hu), Hd.
    apply quiet_cases in Hq as [->|(fs' & -> & _)]; reflexivity.
  - intros Hp.
    unfold run, get_usage, authenticateToken, requirePermission, try_catch,
      bind, req_user. rewrite Hu, Hp. unfold ret at 1.
    rewrite query_select_quiet, Hus by assumption. reflexivity.
Qed.

Lemma remove_dups_constant (k : Z) (l : list Z) :
  l <> [] -> (forall x, In x l -> x = k) -> remove_dups l = [k].
Proof.
  induction l as [|x l IH]; [easy|]. intros _ Hall.
  assert (x = k) as -> by (apply Hall; now left).
  destruct l as [|y l].
  - reflexivity.
  - cbn [remove_dups]. destruct (decide_rel elem_of k (y :: l)) as [_|Hn].
    + apply IH; [easy|]. intros z Hz. apply Hall. now right.
    + exfalso. apply Hn. assert (y = k) as -> by (apply Hall; right; now left).
      left.
Qed.

Lemma group_by_constant {A} (key : A -> Z) (rows : list A) k :
  rows <> [] -> (forall r, In r rows -> key r = k) ->
  group_by key rows = [rows].
Proof.
  intros Hne Hall. unfold group_by.
  rewrite (remove_dups_constant k).
  - cbn. f_equal. apply forallb_filter_id.
    apply forallb_forall. intros r Hr. apply Z.eqb_eq. now apply Hall.
  - destruct rows; [easy|discriminate].
  - intros x (r & <- & Hr)%in_map_iff. now apply Hall.
Qed.

Lemma sum_or_zero_app l1 l2 :
  sum_or_zero (l1 ++ l2) = sum_or_zero l1 + sum_or_zero l2.
Proof.
  unfold sum_or_zero. rewrite omap_app, fold_right_app.
  induction (omap id l1) as [|x l IH]; cbn; lia.
Qed.

Lemma sum_or_zero_Some (l : list Z) :
  sum_or_zero (map Some l) = fold_right Z.add 0 l.
Proof.
  unfold sum_or_zero. induction l as [|x l IH]; [reflexivity|].
  cbn. now rewrite <- IH.
Qed.

(** The rows of one organization after the join with the campaigns, and
    the SUM over them: every left row carries all the matching campaigns. *)
Lemma sum_over_joined_campaigns {A} (on : A -> Campaign.t -> bool)
    (j : list A) (campaigns matching : list Campaign.t) :
  (forall a, In a j -> List.filter (on a) campaigns = matching) ->
  sum_or_zero (map (fun r => Campaign.send_count <$> r.2)
                 (left_join on j campaigns))
  = Z.of_nat (length j) * fold_right Z.add 0 (map Campaign.send_count matching).
Proof.
  intros Hall. unfold left_join.
  induction j as [|a j IH]; [reflexivity|].
  cbn [flat_map]. rewrite map_app, sum_or_zero_app, IH
    by (intros; apply Hall; now right).
  rewrite (Hall a) by now left.
  replace (sum_or_zero _)
    with (fold_right Z.add 0 (map Campaign.send_count matching)).
  { cbn [length]. lia. }
  destruct matching as [|c m]; [reflexivity|].
  rewrite map_map. cbn [snd fmap option_fmap option_map].
  rewrite <- sum_or_zero_Some, map_map. reflexivity.
Qed.

(** X11. What GET /api/organizations/usage reports as
    emails_sent_this_month: the campaigns are joined to the rows already
    joined with the contacts, so the send counts of the campaigns sent in
    the last month are added once per active contact: with n active
    contacts the figure is max(1, n) times the sum. current_contacts is
    the number of distinct ids of the active contacts. *)
Theorem usage_emails_counted_per_contact sys req user d fs o :
  Req.user req = Some user ->
  has_permission "view_analytics" user = true ->
  quiet fs ->
  let O := AuthUser.organizationId user in
  List.filter (fun o => Organization.id o =? O) (organizations d) = [o] ->
  let active :=
    List.filter (fun c => (O =? Contact.organization_id c)
                          && String.eqb (Contact.status c) "active")
      (contacts d) in
  let recent :=
    List.filter (fun cam => (O =? Campaign.organization_id cam)
                            && match Campaign.sent_at cam with
                               | Some t => NOW_minus_1_month sys <=? t
                               | None => false
                               end)
      (campaigns d) in
  let sent :=
    Z.max 1 (Z.of_nat (length active))
    * fold_right Z.add 0 (map Campaign.send_count recent) in
  let current_contacts :=
    Z.of_nat (length (remove_dups (map Contact.id active))) in
  (run get_usage sys req d fs).1
  = Res.mk 200
      (Usage (Organization.contact_limit o)
         (Organization.monthly_email_limit o) current_contacts sent
         (usage_percentage current_contacts (Organization.contact_limit o))
         (usage_percentage sent (Organization.monthly_email_limit o))).
Proof.
  intros Hu Hp Hq O Ho active recent sent current_contacts.
  assert (HidO : Organization.id o = O).
  { assert (In o [o]) as Hin by now left. rewrite <- Ho in Hin.
    apply filter_In in Hin as [_ Hin]. lia. }
  set (j := left_join
              (fun o c => (Organization.id o =? Contact.organization_id c)
                          && String.eqb (Contact.status c) "active")
              [o] (contacts d)).
  assert (Hj1 : forall r, In r j -> r.1 = o).
  { intros r Hr. apply left_join_In in Hr. now destruct Hr as [<-|[]]. }
  assert (Hjlen : Z.of_nat (length j) = Z.max 1 (Z.of_nat (length active))).
  { subst j active. unfold left_join. cbn [flat_map]. rewrite app_nil_r.
    rewrite HidO. destruct (List.filter _ (contacts d)) as [|c m].
    - reflexivity.
    - rewrite length_map. cbn [length]. lia. }
  set (rows := left_join
                 (fun (r : Organization.t * option Contact.t) cam =>
                    (Organization.id r.1 =? Campaign.organization_id cam)
                    && match Campaign.sent_at cam with
                       | Some t => NOW_minus_1_month sys <=? t
                       | None => false
                       end)
                 j (campaigns d)).
  assert (Hrows : List.filter (fun r => Organization.id r.1.1 =? O)
                    (usage_join sys d) = rows).
  { unfold usage_join.
    pose proof (fun B on l r =>
      @filter_left_join _ B
        (fun r : Organization.t * option Contact.t =>
           Organization.id r.1 =? O) on l r) as H2.
    pose proof (fun B on l r =>
      @filter_left_join _ B (fun o => Organization.id o =? O) on l r) as H1.
    cbn beta in H1, H2. rewrite H2, H1, Ho. reflexivity. }
  assert (Hkey : forall r, In r rows -> Organization.id r.1.1 = O).
  { intros r Hr. apply left_join_In in Hr. now rewrite (Hj1 _ Hr). }
  assert (Hne : rows <> []).
  { intros Hnil.
    assert (length j <= length rows)%nat as Hlen by apply left_join_length.
    rewrite Hnil in Hlen. cbn [length] in Hlen. lia. }
  assert (Hsum : sum_or_zero (map (fun r => Campaign.send_count <$> r.2) rows)
                 = sent).
  { subst rows sent. rewrite (sum_over_joined_campaigns _ j _ recent).
    - now rewrite Hjlen.
    - intros a Ha. rewrite (Hj1 a Ha), HidO. reflexivity. }
  assert (Hcount : count_distinct (map (fun r => Contact.id <$> r.1.2) rows)
                   = current_contacts).
  { subst current_contacts.
    rewrite (count_distinct_same _
               (map (fun c => Some (Contact.id c)) active)).
    - unfold count_distinct. do 3 f_equal.
      clear. induction active as [|c l IH]; [reflexivity|].
      cbn. now rewrite IH.
    - intros x. rewrite !in_map_iff. split.
      + intros (r & Hx & Hr). destruct r as [[o' [c|]] cam]; [|discriminate].
        injection Hx as <-. exists c. split; [reflexivity|].
        apply left_join_In in Hr. cbn [fst] in Hr.
        apply left_join_In_Some in Hr as [[<-|[]] Hc].
        subst active. now rewrite <- HidO.
      + intros (c & [= <-] & Hc).
        assert (In (o, Some c) j) as Hin.
        { apply left_join_In_Some. split; [now left|].
          subst active. now rewrite HidO. }
        destruct (left_join_covers
                    (fun (r : Organization.t * option Contact.t) cam =>
                       (Organization.id r.1 =? Campaign.organization_id cam)
                       && match Campaign.sent_at cam with
                          | Some t => NOW_minus_1_month sys <=? t
                          | None => false
                          end) j (campaigns d) _ Hin) as (r & Hr & Hr1).
        exists r. split; [now rewrite Hr1|exact Hr]. }
  assert (Hsel : SELECT_usage sys O d
                 = [(Organization.contact_limit o,
                     Organization.monthly_email_limit o, current_contacts,
                     sent)]).
  { unfold SELECT_usage. rewrite Hrows.
    rewrite (group_by_constant _ rows O Hne Hkey). cbn [omap list_omap].
    unfold usage_row. destruct rows as [|r0 rows'] eqn:E; [easy|].
    rewrite <- E in *. rewrite Hsum, Hcount.
    assert (r0.1.1 = o) as ->.
    { assert (In r0 rows) as Hin by (rewrite E; now left).
      apply left_join_In in Hin. now apply Hj1. }
    reflexivity. }
  unfold run, get_usage, authenticateToken, requirePermission, try_catch,
    bind, req_user. rewrite Hu, Hp. unfold ret at 1. fold O.
  rewrite query_select_quiet, Hsel by assumption. reflexivity.
Qed.

Lemma missing_organization_witness :
  (run get_organization (Example.sys "" [])
     (Example.request (Some Scenario.dave) [] [] []) Example.store []).1
  = Res.mk 404 (ErrorBody "Organization not found").
Proof.
  destruct (missing_organization (Example.sys "" [])
              (Example.request (Some Scenario.dave) [] [] []) Scenario.dave
              Example.store [] eq_refl) as (H & _).
  - intros o [<-|[<-|[]]]; discriminate.
  - reflexivity.
  - exact H.
Defined.

Lemma usage_emails_counted_per_contact_witness :
  (run get_usage (Example.sys "" [])
     (Example.request (Some Example.alice) [] [] []) Example.store []).1
  = Res.mk 200 (Usage 100 1000 25 1000 25 100).
Proof.
  apply (usage_emails_counted_per_contact (Example.sys "" [])
           (Example.request (Some Example.alice) [] [] []) Example.alice
           Example.store [] (Organization.mk 1 "Acme" (Some "pro") 100 1000));
    reflexivity.
Defined.

(** *** Audit listing: the pages together *)

Lemma left_join_length_unique {A B} (on : A -> B -> bool) l r :
  (forall a, In a l -> (length (List.filter (on a) r) <= 1)%nat) ->
  length (left_join on l r) = length l.
Proof.
  intros H. unfold left_join. induction l as [|a l IH]; [reflexivity|].
  change (flat_map ?f (a :: l)) with (f a ++ flat_map f l).
  rewrite length_app, IH by (intros; apply H; now right). cbn beta.
  specialize (H a (or_introl eq_refl)).
  destruct (List.filter (on a) r) as [|b [|b' m]]; cbn in H |- *; lia.
Qed.

Lemma filter_by_key_unique (id : Z) (l : list User.t) :
  NoDup (map User.id l) ->
  (length (List.filter (fun u => (id =? User.id u)%Z) l) <= 1)%nat.
Proof.
  induction l as [|u l IH]; [cbn; lia|].
  cbn [map List.filter]. intros [Hu Hl]%NoDup_cons.
  destruct (id =? User.id u) eqn:E; [|now apply IH].
  apply Z.eqb_eq in E. subst id.
  replace (List.filter _ l) with (@nil User.t); [cbn; lia|].
  symmetry. apply filter_nil_iff. intros u' Hu'. apply Z.eqb_neq.
  intros Heq. apply Hu. rewrite Heq.
  apply list_elem_of_In, in_map, Hu'.
Qed.

Lemma left_join_fst_unique {A B} (on : A -> B -> bool) l r :
  (forall a, In a l -> (length (List.filter (on a) r) <= 1)%nat) ->
  map fst (left_join on l r) = l.
Proof.
  intros H. unfold left_join. induction l as [|a l IH]; [reflexivity|].
  change (flat_map ?f (a :: l)) with (f a ++ flat_map f l).
  rewrite map_app, IH by (intros; apply H; now right). cbn beta.
  specialize (H a (or_introl eq_refl)).
  destruct (List.filter (on a) r) as [|b [|b' m]]; cbn in H |- *;
    [reflexivity..|lia].
Qed.

Lemma NoDup_key_inj {A} (key : A -> Z) l x y :
  NoDup (map key l) -> In x l -> In y l -> key x = key y -> x = y.
Proof.
  induction l as [|a l IH]; [easy|].
  cbn [map]. intros [Ha Hl]%NoDup_cons [->|Hx] [->|Hy] Hk.
  - reflexivity.
  - exfalso. apply Ha. rewrite Hk. now apply list_elem_of_In, in_map.
  - exfalso. apply Ha. rewrite <- Hk. now apply list_elem_of_In, in_map.
  - now apply IH.
Qed.

(** With user ids a key, every audit entry of the organization gives one
    row of the listing. *)
Lemma audit_join_entries O d :
  NoDup (map User.id (users d)) ->
  map fst (audit_join O d)
  = List.filter (fun al => AuditLog.organization_id al =? O) (audit_logs d).
Proof.
  intros Hkey. unfold audit_join.
  pose proof (fun on l r =>
    @filter_left_join AuditLog.t User.t
      (fun al => AuditLog.organization_id al =? O) on l r) as Hf.
  cbn beta in Hf. rewrite Hf.
  apply left_join_fst_unique. intros al _.
  now apply filter_by_key_unique.
Qed.

Lemma audit_join_total O d :
  NoDup (map User.id (users d)) ->
  length (audit_join O d) = Z.to_nat (SELECT_audit_total O d).
Proof.
  intros Hkey. rewrite <- (length_map fst), (audit_join_entries O d Hkey).
  unfold SELECT_audit_total. now rewrite Nat2Z.id.
Qed.

(** When no two rows have the same timestamp, newest-first is one order. *)
Lemma newest_first_unique rows l1 l2 :
  NoDup (map (fun r : AuditLog.t * option User.t => AuditLog.timestamp r.1)
           rows) ->
  l1 ≡ₚ rows -> l2 ≡ₚ rows ->
  StronglySorted newest_first l1 -> StronglySorted newest_first l2 ->
  l1 = l2.
Proof.
  intros Hkey H1 H2 S1 S2.
  apply (StronglySorted_unique_strong newest_first); try assumption.
  - intros x1 x2 Hx1 Hx2 R12 R21. unfold newest_first in R12, R21.
    rewrite H1 in Hx1. rewrite H2 in Hx2.
    apply (NoDup_key_inj (fun r : AuditLog.t * option User.t =>
                            AuditLog.timestamp r.1) rows);
      try assumption; try (now apply list_elem_of_In). lia.
  - now rewrite H1, H2.
Qed.

Lemma chunks_take {A} (l : list A) (n k : nat) :
  concat (map (fun i => take n (drop (i * n) l)) (seq 0 k))
  = take (k * n) l.
Proof.
  induction k as [|k IH]; [reflexivity|].
  rewrite seq_S, map_app, concat_app, IH. cbn [map concat plus].
  rewrite app_nil_r, take_take_drop. f_equal. lia.
Qed.

(** X13. The pages 1 to totalPages of GET /api/organizations/audit-logs,
    one after the other, each asked in a request of its own, are the
    whole listing of the caller's organization, newest first: no row is
    left out and none comes twice. This needs user ids to be a key, a
    positive limit, numbers below 2^53, and audit entries of the
    organization with pairwise different timestamps: the order of
    entries with the same timestamp is open in every request anew. *)
Theorem audit_pages_cover (sys_of : nat -> Sys) user d fs
    (req_of : nat -> Req.t) limit :
  let O := AuthUser.organizationId user in
  let total := SELECT_audit_total O d in
  let pages := Z.to_nat (Math_ceil_div total limit) in
  has_permission "view_audit_logs" user = true ->
  quiet fs ->
  0 < limit ->
  total + limit < 2 ^ 53 ->
  NoDup (map User.id (users d)) ->
  NoDup (map AuditLog.timestamp
           (List.filter (fun al => AuditLog.organization_id al =? O)
              (audit_logs d))) ->
  (forall i, (i < pages)%nat ->
     orders (sys_of i)
     /\ Req.user (req_of i) = Some user
     /\ or_default (parseInt (field "page" (Req.query (req_of i)))) 1
        = Z.of_nat i + 1
     /\ or_default (parseInt (field "limit" (Req.query (req_of i)))) 50
        = limit) ->
  let listing :=
    concat (map (fun i =>
                   listed_logs
                     (run get_audit_logs (sys_of i) (req_of i) d fs).1)
              (seq 0 pages)) in
  listing ≡ₚ audit_join O d /\ StronglySorted newest_first listing.
Proof.
  intros O total pages Hp Hq Hlimit _ Hkey Htimes Hreq listing.
  set (L := merge_sort newest_first (audit_join O d)).
  assert (HL : L ≡ₚ audit_join O d) by apply merge_sort_Permutation.
  assert (SL : StronglySorted newest_first L)
    by (apply StronglySorted_merge_sort; apply _).
  assert (Hdistinct :
            NoDup (map (fun r : AuditLog.t * option User.t =>
                          AuditLog.timestamp r.1) (audit_join O d))).
  { rewrite <- (map_map fst AuditLog.timestamp).
    now rewrite (audit_join_entries O d Hkey). }
  enough (listing = L) as -> by now split.
  subst listing.
  rewrite (map_ext_in _
             (fun i => take (Z.to_nat limit) (drop (i * Z.to_nat limit) L))).
  - rewrite chunks_take. apply take_ge.
    rewrite (Permutation_length HL), (audit_join_total O d Hkey).
    fold total. subst pages.
    pose proof (Math_ceil_div_spec total limit Hlimit).
    assert (0 <= total) by (subst total; unfold SELECT_audit_total; lia).
    nia.
  - intros i Hi%in_seq.
    destruct (Hreq i) as (Hsys & Hu & Hpage & Hlim); [lia|].
    rewrite (get_audit_logs_run (sys_of i) (req_of i) user d fs Hu Hp).
    rewrite Hpage, Hlim. fold O.
    rewrite (newest_first_unique (audit_join O d)
               (audit_rows (sys_of i) O d) L Hdistinct
               (audit_rows_Permutation _ O d Hsys) HL
               (audit_rows_sorted _ O d Hsys) SL).
    replace (Z.to_nat ((Z.of_nat i + 1 - 1) * limit))
      with (i * Z.to_nat limit)%nat by nia.
    replace ((limit <? 0) || ((Z.of_nat i + 1 - 1) * limit <? 0))
      with false by (symmetry; apply orb_false_iff; split; apply Z.ltb_ge; nia).
    apply quiet_cases in Hq as [->|(fs' & -> & Hq)]; [reflexivity|].
    apply quiet_cases in Hq as [->|(fs'' & -> & _)]; reflexivity.
Qed.

Lemma audit_pages_cover_witness :
  concat (map (fun i =>
                 listed_logs
                   (run get_audit_logs (Example.sys "" [])
                      (Scenario.audit_page_request i)
                      Example.store_with_audit_trail []).1)
            [0; 1; 2]%nat)
  ≡ₚ audit_join 1 Example.store_with_audit_trail.
Proof.
  apply (audit_pages_cover (fun _ => Example.sys "" []) Example.alice
           Example.store_with_audit_trail [] Scenario.audit_page_request 50
           eq_refl eq_refl eq_refl eq_refl).
  - apply (bool_decide_unpack _). vm_compute. exact I.
  - apply (bool_decide_unpack _). vm_compute. exact I.
  - intros i Hi. change (i < 3)%nat in Hi.
    split; [apply example_sys_orders|].
    destruct i as [|[|[|i]]]; [repeat split; reflexivity..|lia].
Defined.

(** ** routes/users.js: validation and look-up *)

(** X14. POST /api/users/invite without an e-mail, or with an empty one, is
    answered 400 {error: "Email is required"} before any statement is
    issued: the store is unchanged, whatever the driver would do. *)
Theorem invite_requires_email sys req user d fs :
  Req.user req = Some user ->
  has_permission "manage_users" user = true ->
  truthy (field "email" (Req.body req)) = false ->
  run post_invite sys req d fs
  = (Res.mk 400 (ErrorBody "Email is required"), d).
Proof.
  intros Hu Hp He.
  unfold run, post_invite, authenticateToken, requirePermission, try_catch,
    respond, ret.
  rewrite Hu, Hp, He. reflexivity.
Qed.

Lemma invite_requires_email_witness :
  run post_invite (Example.sys "" [])
    (Example.request (Some Example.alice) [("email", "")] [] [])
    Example.store [true]
  = (Res.mk 400 (ErrorBody "Email is required"), Example.store).
Proof.
  apply (invite_requires_email (Example.sys "" [])
           (Example.request (Some Example.alice) [("email", "")] [] [])
           Example.alice Example.store [true]); reflexivity.
Defined.

(** X15. POST /api/users/accept-invitation with the token, the password,
    the first name or the last name missing or empty is answered 400
    {error: "All fields are required"} before any statement is issued. *)
Theorem accept_requires_all_fields sys req d fs :
  truthy (field "token" (Req.body req))
  && truthy (field "password" (Req.body req))
  && truthy (field "firstName" (Req.body req))
  && truthy (field "lastName" (Req.body req)) = false ->
  run post_accept_invitation sys req d fs
  = (Res.mk 400 (ErrorBody "All fields are required"), d).
Proof.
  intros H. unfold run, post_accept_invitation, try_catch, respond, ret.
  replace (negb (truthy (field "token" (Req.body req)))
           || negb (truthy (field "password" (Req.body req)))
           || negb (truthy (field "firstName" (Req.body req)))
           || negb (truthy (field "lastName" (Req.body req)))) with true.
  - reflexivity.
  - destruct (truthy (field "token" (Req.body req))),
      (truthy (field "password" (Req.body req))),
      (truthy (field "firstName" (Req.body req))),
      (truthy (field "lastName" (Req.body req))); cbn in H |- *; congruence.
Qed.

Lemma accept_requires_all_fields_witness :
  run post_accept_invitation (Example.sys "" [])
    (Example.request None
       [("token", "token-1"); ("password", "s3cret"); ("firstName", "Eve")]
       [] [])
    Example.invited_once []
  = (Res.mk 400 (ErrorBody "All fields are required"), Example.invited_once).
Proof.
  apply (accept_requires_all_fields (Example.sys "" [])
           (Example.request None
              [("token", "token-1"); ("password", "s3cret");
               ("firstName", "Eve")] [] [])
           Example.invited_once []).
  reflexivity.
Defined.

Section Targets.
Variable sql_int : string -> option Z.

(** X16. PUT /api/users/:userId/role with a role other than admin, manager
    or user (or none) is answered 400 {error: "Invalid role"} before any
    statement is issued, whoever the target is. *)
Theorem role_update_checks_role sys req user d fs :
  Req.user req = Some user ->
  has_permission "manage_users" user = true ->
  (forall r, field "role" (Req.body req) = Some r ->
             r <> "admin" /\ r <> "manager" /\ r <> "user") ->
  run (put_role sql_int) sys req d fs
  = (Res.mk 400 (ErrorBody "Invalid role"), d).
Proof.
  intros Hu Hp Hr.
  unfold run, put_role, authenticateToken, requirePermission, try_catch,
    respond, ret.
  rewrite Hu, Hp.
  replace (valid_role (field "role" (Req.body req))) with false; [reflexivity|].
  unfold valid_role. destruct (field "role" (Req.body req)) as [r|]; [|easy].
  destruct (Hr r eq_refl) as (H1 & H2 & H3).
  apply String.eqb_neq in H1, H2, H3. cbn. now rewrite H1, H2, H3.
Qed.

(** X17. A target outside the caller's organization does not exist for the
    caller: when no user of the caller's organization has the id of the
    path, the role update (with a valid role) and the deactivation are
    answered 404 {error: "User not found"} and the store is unchanged,
    although a user of another organization may have that id. *)
Theorem foreign_user_not_found sys req user d fs :
  Req.user req = Some user ->
  has_permission "manage_users" user = true ->
  quiet fs ->
  (forall u, In u (users d) ->
             id_matches sql_int (field "userId" (Req.params req)) (User.id u)
             = true ->
             User.organization_id u <> AuthUser.organizationId user) ->
  (valid_role (field "role" (Req.body req)) = true ->
   run (put_role sql_int) sys req d fs
   = (Res.mk 404 (ErrorBody "User not found"), d))
  /\ run (put_deactivate sql_int) sys req d fs
     = (Res.mk 404 (ErrorBody "User not found"), d).
Proof.
  intros Hu Hp Hq Hforeign.
  assert (Hsel : SELECT_user_in_organization sql_int
                   (field "userId" (Req.params req))
                   (AuthUser.organizationId user) d = []).
  { apply filter_nil_iff. intros u Hin.
    destruct (id_matches _ _ _) eqn:E; [|reflexivity].
    cbn. apply Z.eqb_neq. now apply Hforeign. }
  split.
  - intros Hrole.
    unfold run, put_role, authenticateToken, requirePermission, try_catch,
      bind, req_user.
    rewrite Hu, Hp, Hrole. unfold ret at 1. cbn [negb].
    rewrite query_select_quiet, Hsel by assumption. reflexivity.
  - unfold run, put_deactivate, authenticateToken, requirePermission,
      try_catch, bind, req_user.
    rewrite Hu, Hp. unfold ret at 1.
    rewrite query_select_quiet, Hsel by assumption. reflexivity.
Qed.

(** X18. The same for invitations: DELETE /api/users/invitations/:id with
    the id of no invitation of the caller's organization is answered 404
    {error: "Invitation not found"} and deletes nothing. *)
Theorem foreign_invitation_not_found sys req user d fs :
  Req.user req = Some user ->
  has_permission "manage_users" user = true ->
  quiet fs ->
  (forall ui, In ui (user_invitations d) ->
              id_matches sql_int (field "invitationId" (Req.params req))
                (Invitation.id ui) = true ->
              Invitation.organization_id ui <> AuthUser.organizationId user) ->
  run (delete_invitation sql_int) sys req d fs
  = (Res.mk 404 (ErrorBody "Invitation not found"), d).
Proof.
  intros Hu Hp Hq Hforeign.
  assert (Hsel : SELECT_invitation_in_organization sql_int
                   (field "invitationId" (Req.params req))
                   (AuthUser.organizationId user) d = []).
  { apply filter_nil_iff. intros ui Hin.
    destruct (id_matches _ _ _) eqn:E; [|reflexivity].
    cbn. apply Z.eqb_neq. now apply Hforeign. }
  unfold run, delete_invitation, authenticateToken, requirePermission,
    try_catch, bind, req_user.
  rewrite Hu, Hp. unfold ret at 1.
  rewrite query_select_quiet, Hsel by assumption. reflexivity.
Qed.

End Targets.

Lemma role_update_checks_role_witness :
  run (put_role Example.decimal_id) (Example.sys "" [])
    (Example.request (Some Example.alice) [("role", "owner")]
       [("userId", "2")] [])
    Example.store []
  = (Res.mk 400 (ErrorBody "Invalid role"), Example.store).
Proof.
  apply (role_update_checks_role Example.decimal_id (Example.sys "" [])
           (Example.request (Some Example.alice) [("role", "owner")]
              [("userId", "2")] [])
           Example.alice Example.store [] eq_refl eq_refl).
  intros r [= <-]. repeat split; discriminate.
Defined.

(** Alice, of organization 1, names Carol, of organization 2. *)
Lemma foreign_user_not_found_witness :
  run (put_deactivate Example.decimal_id) (Example.sys "" [])
    (Example.request (Some Example.alice) [("role", "manager")]
       [("userId", "3")] [])
    Example.store []
  = (Res.mk 404 (ErrorBody "User not found"), Example.store).
Proof.
  destruct (foreign_user_not_found Example.decimal_id (Example.sys "" [])
              (Example.request (Some Example.alice) [("role", "manager")]
                 [("userId", "3")] [])
              Example.alice Example.store [] eq_refl eq_refl eq_refl)
    as (_ & H).
  - intros u [<-|[<-|[<-|[]]]] Hm; vm_compute in Hm; discriminate.
  - exact H.
Defined.

(** Carol, of organization 2, names the invitation Alice sent. *)
Lemma foreign_invitation_not_found_witness :
  run (delete_invitation Example.decimal_id) (Example.sys "" [])
    (Example.request (Some Example.carol) [] [("invitationId", "1")] [])
    Example.invited_once []
  = (Res.mk 404 (ErrorBody "Invitation not found"), Example.invited_once).
Proof.
  apply (foreign_invitation_not_found Example.decimal_id (Example.sys "" [])
           (Example.request (Some Example.carol) [] [("invitationId", "1")] [])
           Example.carol Example.invited_once [] eq_refl eq_refl eq_refl).
  intros ui Hin Hm. vm_compute in Hin. destruct Hin as [<-|[]]. discriminate.
Defined.

(** ** What every route does to the audit log *)

Lemma audit_effect_none sys req a d d' r :
  audit_logs d' = audit_logs d ->
  next_audit_id d' = next_audit_id d ->
  audit_effect sys req a d (r, d').
Proof.
  intros Hl Hn. exists []. unfold audit_appended. cbn [fst snd length In].
  rewrite app_nil_r, Hl, Hn. repeat split; try easy; lia.
Qed.

Lemma audit_effect_one sys req a d d0 r e :
  succeeded r = true ->
  (a = true -> forall user, Req.user req = Some user -> attributed_to user e) ->
  AuditLog.id e = next_audit_id d ->
  AuditLog.timestamp e = NOW sys ->
  audit_effect sys req a d
    (r, set_audit_logs (audit_logs d ++ [e]) (next_audit_id d + 1) d0).
Proof.
  intros Hs Ha Hid Ht. exists [e]. unfold audit_appended.
  cbn [fst snd set_audit_logs audit_logs next_audit_id length].
  split; [lia|]. split; [|split].
  - split; [reflexivity|]. split; [lia|]. now intros ? [<-|[]].
  - congruence.
  - intros Htrue e' user [<-|[]] Hu. now apply Ha.
Qed.

Ltac audit_leaves :=
  unfold run, authenticateToken, requirePermission, try_catch, bind,
    req_user, query, select, exec, respond_json, respond, ret, throw;
  cbn -[Z.leb Z.ltb];
  repeat (case_match; simplify_eq; cbn -[Z.leb Z.ltb] in * );
  first
    [ apply audit_effect_none; reflexivity
    | apply audit_effect_one; cbn; try reflexivity; try (intro; discriminate);
      try (intros _ ? ?; unfold attributed_to; cbn; split; congruence) ].

Lemma get_organization_audit_effect sys req d fs :
  audit_effect sys req true d (run get_organization sys req d fs).
Proof. unfold get_organization. audit_leaves. Qed.

Lemma post_invite_audit_effect sys req d fs :
  audit_effect sys req true d (run post_invite sys req d fs).
Proof.
  unfold post_invite, INSERT_INTO_user_invitations, INSERT_INTO_audit_logs.
  audit_leaves.
Qed.

Lemma get_usage_audit_effect sys req d fs :
  audit_effect sys req true d (run get_usage sys req d fs).
Proof. unfold get_usage. audit_leaves. Qed.

Lemma get_audit_logs_audit_effect sys req d fs :
  audit_effect sys req true d (run get_audit_logs sys req d fs).
Proof. unfold get_audit_logs, SELECT_audit_logs. audit_leaves. Qed.

Lemma put_organization_audit_effect sys req d fs :
  audit_effect sys req true d (run put_organization sys req d fs).
Proof.
  unfold put_organization, UPDATE_organization, INSERT_INTO_audit_logs.
  audit_leaves.
Qed.

Lemma post_accept_invitation_audit_effect sys req d fs :
  audit_effect sys req false d (run post_accept_invitation sys req d fs).
Proof.
  unfold post_accept_invitation, INSERT_INTO_users,
    UPDATE_invitation_accepted, INSERT_INTO_audit_logs.
  audit_leaves.
Qed.

Section AuditEffect.
Variable sql_int : string -> option Z.

Lemma put_role_audit_effect sys req d fs :
  audit_effect sys req true d (run (put_role sql_int) sys req d fs).
Proof.
  unfold put_role, UPDATE_user_role, INSERT_INTO_audit_logs. audit_leaves.
Qed.

Lemma put_deactivate_audit_effect sys req d fs :
  audit_effect sys req true d (run (put_deactivate sql_int) sys req d fs).
Proof.
  unfold put_deactivate, UPDATE_user_inactive, INSERT_INTO_audit_logs.
  audit_leaves.
Qed.

Lemma delete_invitation_audit_effect sys req d fs :
  audit_effect sys req true d (run (delete_invitation sql_int) sys req d fs).
Proof.
  unfold delete_invitation, DELETE_invitation, INSERT_INTO_audit_logs.
  audit_leaves.
Qed.

End AuditEffect.

Lemma put_settings_audit_effect sys req d fs :
  audit_effect sys req true d (run put_settings sys req d fs).
Proof.
  unfold put_settings, run, authenticateToken, requirePermission.
  destruct (Req.user req) as [user|] eqn:Hu;
    [|apply audit_effect_none; reflexivity].
  destruct (has_permission _ user); [|apply audit_effect_none; reflexivity].
  unfold try_catch, bind at 1, req_user. rewrite Hu. unfold ret at 1.
  unfold bind at 1.
  pose proof (for_of_upsert_audit (AuthUser.organizationId user)
                (Req.body req) (mkWorld d fs)) as Hloop.
  destruct (for_of _ _ _) as [[[]|e] w1]; cbn in Hloop;
    destruct Hloop as [Hlogs Hnext];
    [|now apply audit_effect_none].
  unfold bind, query, INSERT_INTO_audit_logs, exec, respond_json, respond, ret.
  destruct w1 as [d1 [|[] fs1]]; cbn in *;
    try (now apply audit_effect_none);
    rewrite Hlogs, Hnext; apply audit_effect_one; try reflexivity;
    intros _ ? ?; unfold attributed_to; cbn; split; congruence.
Qed.

(** X19. What a request leaves in the audit log, for every route, every
    request and every fault schedule: the log only grows, by at most one
    entry, numbered by the counter and stamped with the clock; an answer
    that is not a success leaves no entry; and behind authenticateToken the
    entry is booked on the caller and on the caller's organization. *)
Theorem audit_log_append_only sql_int r sys req d fs :
  audit_effect sys req
    match access r with Public => false | _ => true end
    d (run (route sql_int r) sys req d fs).
Proof.
  destruct r; cbn [route access].
  - apply get_organization_audit_effect.
  - apply put_organization_audit_effect.
  - apply put_settings_audit_effect.
  - apply get_usage_audit_effect.
  - apply get_audit_logs_audit_effect.
  - apply post_invite_audit_effect.
  - apply post_accept_invitation_audit_effect.
  - apply put_role_audit_effect.
  - apply put_deactivate_audit_effect.
  - apply delete_invitation_audit_effect.
Qed.

(** ** What every route does to the users *)

Lemma user_step_refl r u : user_step r u u.
Proof. unfold user_step. repeat split; intros; congruence. Qed.

Lemma users_effect_map r d d' (f : User.t -> User.t) :
  users d' = map f (users d) ->
  next_user_id d' = next_user_id d ->
  (forall u, user_step r u (f u)) ->
  users_effect r d d'.
Proof.
  intros Hu Hn Hf. exists (map f (users d)), [].
  rewrite app_nil_r. cbn [length].
  split; [exact Hu|]. split; [|repeat split; try easy; try lia; constructor].
  clear Hu. induction (users d) as [|u l IH]; cbn; constructor; auto.
Qed.

Lemma users_effect_same r d d' :
  users d' = users d -> next_user_id d' = next_user_id d ->
  users_effect r d d'.
Proof.
  intros Hu Hn. apply (users_effect_map r d d' (fun u => u)).
  - now rewrite map_id.
  - exact Hn.
  - intros. apply user_step_refl.
Qed.

Lemma users_effect_new d d' u :
  users d' = users d ++ [u] ->
  next_user_id d' = next_user_id d + 1 ->
  User.id u = next_user_id d -> User.status u = "active" ->
  users_effect PostAcceptInvitation d d'.
Proof.
  intros Hu Hn Hid Hs. exists (users d), [u]. cbn [length].
  split; [exact Hu|]. split.
  - clear Hu. induction (users d); constructor; auto using user_step_refl.
  - repeat split; try easy; try lia. repeat constructor; assumption.
Qed.

Lemma for_of_upsert_frame O settings w :
  let d' := db (for_of settings
                  (fun '(key, value) => query (UPSERT_setting O key value))
                  w).2 in
  d' = set_organization_settings (organization_settings d') (db w)
  /\ forall (O' : Z) (k : string),
       O' <> O ->
       organization_settings d' !! (O', k)
       = organization_settings (db w) !! (O', k).
Proof.
  revert w. induction settings as [|[k v] settings IH]; intros w.
  - cbn. split; [now destruct (db w)|reflexivity].
  - cbn [for_of]. unfold bind.
    destruct (query (UPSERT_setting O k v) w) as [[[]|e] w1] eqn:E.
    + specialize (IH w1). cbn zeta in IH |- *. destruct IH as [IH1 IH2].
      unfold query, UPSERT_setting, exec in E.
      destruct w as [d [|[] fs]]; cbn in E; simplify_eq; cbn in *;
        (split; [rewrite IH1 at 1; reflexivity|]);
        intros O' k' HO; rewrite IH2 by assumption;
        apply lookup_insert_ne; congruence.
    + cbn. unfold query, UPSERT_setting, exec in E.
      destruct w as [d [|[] fs]]; cbn in E; simplify_eq; cbn.
      split; [now destruct d|reflexivity].
Qed.

Ltac users_leaves :=
  unfold run, authenticateToken, requirePermission, try_catch, bind,
    req_user, query, select, exec, respond_json, respond, ret, throw;
  cbn -[Z.leb Z.ltb];
  repeat (case_match; simplify_eq; cbn -[Z.leb Z.ltb] in * );
  first
    [ apply users_effect_same; reflexivity
    | eapply users_effect_new; reflexivity
    | eapply users_effect_map; [reflexivity|reflexivity|];
      intros u; unfold user_step; case_match; cbn;
      repeat split; intros; congruence ].

Lemma post_accept_invitation_users_effect sys req d fs :
  users_effect PostAcceptInvitation d
    (run post_accept_invitation sys req d fs).2.
Proof.
  unfold post_accept_invitation, INSERT_INTO_users,
    UPDATE_invitation_accepted, INSERT_INTO_audit_logs.
  users_leaves.
Qed.

Lemma put_settings_users_effect sys req d fs :
  users_effect PutSettings d (run put_settings sys req d fs).2.
Proof.
  unfold put_settings, run, authenticateToken, requirePermission.
  destruct (Req.user req) as [user|] eqn:Hu;
    [|apply users_effect_same; reflexivity].
  destruct (has_permission _ user); [|apply users_effect_same; reflexivity].
  unfold try_catch, bind at 1, req_user. rewrite Hu. unfold ret at 1.
  unfold bind at 1.
  destruct (for_of_upsert_frame (AuthUser.organizationId user)
              (Req.body req) (mkWorld d fs)) as [Hframe _].
  destruct (for_of _ _ _) as [[[]|e] w1]; cbn in Hframe;
    [|apply users_effect_same; cbn; now rewrite Hframe].
  unfold bind, query, INSERT_INTO_audit_logs, exec, respond_json, respond, ret.
  destruct w1 as [d1 [|[] fs1]]; cbn in *;
    apply users_effect_same; cbn; now rewrite Hframe.
Qed.

Section UsersEffect.
Variable sql_int : string -> option Z.

(** X20. What a request leaves in the users, for every route, every
    request and every fault schedule: no user is deleted or reordered; id,
    organization, e-mail, password hash and names of a user never change;
    the role changes on a role update only, the status on a deactivation
    only, and then to inactive; and only an acceptance adds a user, one,
    active, numbered by the counter. *)
Theorem users_only_grow r sys req d fs :
  users_effect r d (run (route sql_int r) sys req d fs).2.
Proof.
  destruct r; cbn [route].
  - unfold get_organization. users_leaves.
  - unfold put_organization, UPDATE_organization, INSERT_INTO_audit_logs.
    users_leaves.
  - apply put_settings_users_effect.
  - unfold get_usage. users_leaves.
  - unfold get_audit_logs, SELECT_audit_logs. users_leaves.
  - unfold post_invite, INSERT_INTO_user_invitations, INSERT_INTO_audit_logs.
    users_leaves.
  - apply post_accept_invitation_users_effect.
  - unfold put_role, UPDATE_user_role, INSERT_INTO_audit_logs. users_leaves.
  - unfold put_deactivate, UPDATE_user_inactive, INSERT_INTO_audit_logs.
    users_leaves.
  - unfold delete_invitation, DELETE_invitation, INSERT_INTO_audit_logs.
    users_leaves.
Qed.

End UsersEffect.

(** ** Writes stay inside the caller's organization *)

Lemma foreign_app_own {A} (org : A -> Z) O l x :
  org x = O -> foreign org O (l ++ [x]) = foreign org O l.
Proof.
  intros Hx. unfold foreign. rewrite List.filter_app. cbn.
  rewrite Hx, Z.eqb_refl. cbn. apply app_nil_r.
Qed.

Lemma foreign_map {A} (org : A -> Z) O (f : A -> A) l :
  (forall x, org (f x) = org x) ->
  (forall x, In x l -> org x <> O -> f x = x) ->
  foreign org O (map f l) = foreign org O l.
Proof.
  intros Horg Hf. unfold foreign. induction l as [|x l IH]; [reflexivity|].
  cbn [map List.filter]. rewrite Horg, IH by (intros; apply Hf; auto; now right).
  destruct (org x =? O) eqn:E; [reflexivity|]. cbn.
  rewrite Hf; [reflexivity|now left|now apply Z.eqb_neq].
Qed.

Lemma foreign_filter {A} (org : A -> Z) O (q : A -> bool) l :
  (forall x, In x l -> org x <> O -> q x = true) ->
  foreign org O (List.filter q l) = foreign org O l.
Proof.
  intros Hq. unfold foreign. induction l as [|x l IH]; [reflexivity|].
  cbn [List.filter]. specialize (IH (fun y Hy => Hq y (or_intror Hy))).
  destruct (org x =? O) eqn:E.
  - destruct (q x); cbn [List.filter]; rewrite ?E; exact IH.
  - rewrite (Hq x) by (now left || now apply Z.eqb_neq).
    cbn [List.filter]. rewrite E. cbn. now rewrite IH.
Qed.

Section Tenants.
Variable sql_int : string -> option Z.

Lemma id_matches_same p a b :
  id_matches sql_int p a = true -> id_matches sql_int p b = true -> a = b.
Proof.
  unfold id_matches. destruct (p ≫= sql_int) as [n|]; [|discriminate].
  intros Ha%Z.eqb_eq Hb%Z.eqb_eq. congruence.
Qed.

(** With ids a key, an UPDATE by id that follows a look-up by id and
    organization writes rows of that organization only. *)
Lemma foreign_users_update p O d (f : User.t -> User.t) u l :
  NoDup (map User.id (users d)) ->
  SELECT_user_in_organization sql_int p O d = u :: l ->
  (forall x, User.organization_id (f x) = User.organization_id x) ->
  foreign User.organization_id O
    (map (fun x => if id_matches sql_int p (User.id x) then f x else x)
       (users d))
  = foreign User.organization_id O (users d).
Proof.
  intros Hkey Hsel Horg.
  assert (Hu : In u (SELECT_user_in_organization sql_int p O d))
    by (rewrite Hsel; now left).
  apply filter_In in Hu as [Hin [Hm HO%Z.eqb_eq]%andb_true_iff].
  apply foreign_map.
  - intros x. destruct (id_matches sql_int p (User.id x));
      [apply Horg|reflexivity].
  - intros x Hx Hforeign.
    destruct (id_matches sql_int p (User.id x)) eqn:E; [|reflexivity].
    exfalso. apply Hforeign.
    rewrite (NoDup_key_inj User.id (users d) x u Hkey Hx Hin
               (id_matches_same p _ _ E Hm)).
    exact HO.
Qed.

Lemma foreign_invitations_delete p O d ui l :
  NoDup (map Invitation.id (user_invitations d)) ->
  SELECT_invitation_in_organization sql_int p O d = ui :: l ->
  foreign Invitation.organization_id O
    (List.filter (fun x => negb (id_matches sql_int p (Invitation.id x)))
       (user_invitations d))
  = foreign Invitation.organization_id O (user_invitations d).
Proof.
  intros Hkey Hsel.
  assert (Hu : In ui (SELECT_invitation_in_organization sql_int p O d))
    by (rewrite Hsel; now left).
  apply filter_In in Hu as [Hin [Hm HO%Z.eqb_eq]%andb_true_iff].
  apply foreign_filter. intros x Hx Hforeign.
  destruct (id_matches sql_int p (Invitation.id x)) eqn:E; [|reflexivity].
  exfalso. apply Hforeign.
  rewrite (NoDup_key_inj Invitation.id (user_invitations d) x ui Hkey Hx Hin
             (id_matches_same p _ _ E Hm)).
  exact HO.
Qed.

End Tenants.

Lemma foreign_organizations_update O (f : Organization.t -> Organization.t) l :
  (forall o, Organization.id (f o) = Organization.id o) ->
  foreign Organization.id O
    (map (fun o => if Organization.id o =? O then f o else o) l)
  = foreign Organization.id O l.
Proof.
  intros Hid. apply foreign_map.
  - intros o. destruct (_ =? _); [apply Hid|reflexivity].
  - intros o _ Ho%Z.eqb_neq. now rewrite Ho.
Qed.

Ltac tenant_parts :=
  unfold other_tenants_kept; cbn -[foreign Z.leb Z.ltb];
  (split;
   [first [reflexivity | apply foreign_organizations_update; reflexivity]|]);
  (split; [intros; reflexivity|]);
  (split;
   [first [reflexivity
          | eapply foreign_users_update; [eassumption|eassumption|reflexivity]]
   |]);
  (split;
   [first [reflexivity
          | apply foreign_app_own; reflexivity
          | eapply foreign_invitations_delete; eassumption]
   |]);
  (split; [first [reflexivity | apply foreign_app_own; reflexivity]|]);
  split; reflexivity.

Ltac tenant_leaves Hu :=
  unfold run, authenticateToken, requirePermission, try_catch, bind,
    req_user, query, select, exec, respond_json, respond, ret, throw;
  rewrite ?Hu;
  cbn -[Z.leb Z.ltb];
  repeat (case_match; simplify_eq; cbn -[Z.leb Z.ltb] in * );
  tenant_parts.

Section TenantWrites.
Variable sql_int : string -> option Z.
Variable (sys : Sys) (req : Req.t) (user : AuthUser.t) (d : DB)
  (fs : list bool).
Hypothesis Hu : Req.user req = Some user.

Lemma put_organization_tenant :
  other_tenants_kept (AuthUser.organizationId user) d
    (run put_organization sys req d fs).2.
Proof.
  unfold put_organization, UPDATE_organization, INSERT_INTO_audit_logs.
  tenant_leaves Hu.
Qed.

Lemma post_invite_tenant :
  other_tenants_kept (AuthUser.organizationId user) d
    (run post_invite sys req d fs).2.
Proof.
  unfold post_invite, INSERT_INTO_user_invitations, INSERT_INTO_audit_logs.
  tenant_leaves Hu.
Qed.

Lemma put_role_tenant :
  NoDup (map User.id (users d)) ->
  other_tenants_kept (AuthUser.organizationId user) d
    (run (put_role sql_int) sys req d fs).2.
Proof.
  intros Hkey.
  unfold put_role, UPDATE_user_role, INSERT_INTO_audit_logs.
  tenant_leaves Hu.
Qed.

Lemma put_deactivate_tenant :
  NoDup (map User.id (users d)) ->
  other_tenants_kept (AuthUser.organizationId user) d
    (run (put_deactivate sql_int) sys req d fs).2.
Proof.
  intros Hkey.
  unfold put_deactivate, UPDATE_user_inactive, INSERT_INTO_audit_logs.
  tenant_leaves Hu.
Qed.

Lemma delete_invitation_tenant :
  NoDup (map Invitation.id (user_invitations d)) ->
  other_tenants_kept (AuthUser.organizationId user) d
    (run (delete_invitation sql_int) sys req d fs).2.
Proof.
  intros Hkey.
  unfold delete_invitation, DELETE_invitation, INSERT_INTO_audit_logs.
  tenant_leaves Hu.
Qed.

End TenantWrites.

Lemma other_tenants_kept_frame O d d' :
  d' = set_organization_settings (organization_settings d') d ->
  (forall (O' : Z) (k : string),
     O' <> O ->
     organization_settings d' !! (O', k) = organization_settings d !! (O', k)) ->
  other_tenants_kept O d d'.
Proof.
  intros -> H. unfold other_tenants_kept. cbn in *. repeat split; auto.
Qed.

Lemma put_settings_tenant sys req user d fs :
  Req.user req = Some user ->
  other_tenants_kept (AuthUser.organizationId user) d
    (run put_settings sys req d fs).2.
Proof.
  intros Hu.
  unfold put_settings, run, authenticateToken, requirePermission.
  rewrite Hu.
  destruct (has_permission _ user);
    [|cbn; now apply other_tenants_kept_frame; [destruct d|]].
  unfold try_catch, bind at 1, req_user. rewrite Hu. unfold ret at 1.
  unfold bind at 1.
  destruct (for_of_upsert_frame (AuthUser.organizationId user)
              (Req.body req) (mkWorld d fs)) as [Hframe Hother].
  destruct (for_of _ _ _) as [[[]|e] w1]; cbn in Hframe, Hother;
    [|cbn; now apply other_tenants_kept_frame].
  unfold bind, query, INSERT_INTO_audit_logs, exec, respond_json, respond, ret.
  destruct w1 as [d1 [|[] fs1]]; cbn in *;
    try (now apply other_tenants_kept_frame);
    unfold other_tenants_kept; cbn -[foreign]; rewrite Hframe; cbn -[foreign];
    repeat split; try reflexivity; try assumption;
    apply foreign_app_own; reflexivity.
Qed.

(** X21. Behind authenticateToken a request writes inside the caller's
    organization only. With the ids of users and invitations keys of their
    tables, whatever the request and the fault schedule, every row of
    another organization (organizations, settings, users, invitations,
    audit entries) is after the request what it was before, and contacts
    and campaigns are not written at all. The acceptance of an invitation
    takes no caller and is left out. *)
Theorem writes_stay_in_tenant sql_int r sys req user d fs :
  access r <> Public ->
  Req.user req = Some user ->
  NoDup (map User.id (users d)) ->
  NoDup (map Invitation.id (user_invitations d)) ->
  other_tenants_kept (AuthUser.organizationId user) d
    (run (route sql_int r) sys req d fs).2.
Proof.
  intros Hr Hu Hk1 Hk2. destruct r; cbn [route]; cbn in Hr; try easy.
  - unfold get_organization. tenant_leaves Hu.
  - now apply put_organization_tenant.
  - now apply put_settings_tenant.
  - unfold get_usage. tenant_leaves Hu.
  - unfold get_audit_logs, SELECT_audit_logs. tenant_leaves Hu.
  - now apply post_invite_tenant.
  - now apply put_role_tenant.
  - now apply put_deactivate_tenant.
  - now apply delete_invitation_tenant.
Qed.

Lemma writes_stay_in_tenant_witness :
  other_tenants_kept 1 Example.invited_twice
    (run (delete_invitation Example.decimal_id) (Example.sys "" [])
       (Example.request (Some Example.alice) [] [("invitationId", "1")] [])
       Example.invited_twice []).2.
Proof.
  apply (writes_stay_in_tenant Example.decimal_id DeleteInvitation
           (Example.sys "" [])
           (Example.request (Some Example.alice) [] [("invitationId", "1")] [])
           Example.alice Example.invited_twice []).
  - discriminate.
  - reflexivity.
  - apply (bool_decide_unpack _). vm_compute. exact I.
  - apply (bool_decide_unpack _). vm_compute. exact I.
Defined.

(** ** Who gets past the middleware *)

Section Gate.
Variable sql_int : string -> option Z.

(** X22. Every route but the acceptance of an invitation answers a request
    without an authenticated user 401, issues no statement and leaves the
    store as it is. *)
Theorem anonymous_rejected r sys req d fs :
  access r <> Public ->
  Req.user req = None ->
  run (route sql_int r) sys req d fs = (Res.mk 401 AuthFailure, d).
Proof.
  intros Hr Hu.
  destruct r; cbn [route]; cbn in Hr; try easy;
    unfold run, get_organization, put_organization, put_settings, get_usage,
      get_audit_logs, post_invite, put_role, put_deactivate,
      delete_invitation, authenticateToken, respond, ret;
    rewrite Hu; reflexivity.
Qed.

(** X23. A route registered with requirePermission(p) answers a caller
    whose permissions lack p 403, issues no statement and leaves the store
    as it is; p is manage_organization for the organization and settings
    updates, view_analytics for the usage, view_audit_logs for the audit
    listing and manage_users for the user and invitation routes. *)
Theorem unpermitted_rejected r p sys req user d fs :
  access r = Permission p ->
  Req.user req = Some user ->
  has_permission p user = false ->
  run (route sql_int r) sys req d fs = (Res.mk 403 AuthFailure, d).
Proof.
  intros Hr Hu Hp.
  destruct r; cbn [route]; cbn in Hr; simplify_eq;
    unfold run, put_organization, put_settings, get_usage,
      get_audit_logs, post_invite, put_role, put_deactivate,
      delete_invitation, authenticateToken, requirePermission, respond, ret;
    rewrite Hu, Hp; reflexivity.
Qed.

End Gate.

Lemma anonymous_rejected_witness :
  run get_usage (Example.sys "" []) (Example.request None [] [] [])
    Example.store []
  = (Res.mk 401 AuthFailure, Example.store).
Proof.
  apply (anonymous_rejected Example.decimal_id GetUsage (Example.sys "" [])
           (Example.request None [] [] []) Example.store []).
  - discriminate.
  - reflexivity.
Defined.

(** Bob has no permission at all. *)
Lemma unpermitted_rejected_witness :
  run post_invite (Example.sys "" []) (Example.invite_request Example.bob)
    Example.store []
  = (Res.mk 403 AuthFailure, Example.store).
Proof.
  apply (unpermitted_rejected Example.decimal_id PostInvite "manage_users"
           (Example.sys "" []) (Example.invite_request Example.bob)
           Example.bob Example.store []); reflexivity.
Defined.

(** ** An invitation from the invite to the acceptance *)

(** X24. An invitation can be accepted for seven days, to the second.
    After a successful invite with a role of the enum and a token that no
    other invitation carries, an acceptance with that token and all fields
    creates the account as long as the database clock of the acceptance
    is at least a second short of the server clock of the invite plus
    604800000 ms: the user gets the invited e-mail and role in the
    inviter's organization. From a second past that instant on, the
    acceptance is answered 400 and changes nothing. (Within the second
    around the instant, the precision of the columns decides.) *)
Theorem invitation_lives_seven_days sys req user email d fs
    sys' req' fs' password firstName lastName :
  Req.user req = Some user ->
  has_permission "manage_users" user = true ->
  field "email" (Req.body req) = Some email ->
  email <> "" ->
  valid_role (Some (default "user" (field "role" (Req.body req)))) = true ->
  ~ email_taken email d ->
  ~ invitation_pending sys email (AuthUser.organizationId user) d ->
  organization_exists (AuthUser.organizationId user) d ->
  (forall ui, In ui (user_invitations d) ->
              Invitation.token ui <> uuidv4 sys) ->
  quiet fs ->
  field "token" (Req.body req') = Some (uuidv4 sys) ->
  field "password" (Req.body req') = Some password ->
  field "firstName" (Req.body req') = Some firstName ->
  field "lastName" (Req.body req') = Some lastName ->
  uuidv4 sys <> "" -> password <> "" -> firstName <> "" -> lastName <> "" ->
  quiet fs' ->
  let d1 := (run post_invite sys req d fs).2 in
  let week := Date_now sys + 604800000 in
  (NOW sys' + 1000 <= week ->
   Res.status (run post_accept_invitation sys' req' d1 fs').1 = 200
   /\ users (run post_accept_invitation sys' req' d1 fs').2
      = users d ++
        [User.mk (next_user_id d) (AuthUser.organizationId user) email
           (Bcrypt 12 password) firstName lastName
           (default "user" (field "role" (Req.body req))) "active"])
  /\ (week + 1000 <= NOW sys' ->
      Res.status (run post_accept_invitation sys' req' d1 fs').1 = 400
      /\ (run post_accept_invitation sys' req' d1 fs').2 = d1).
Proof.
  intros Hu Hp He Hne Hrole Hfree Hnone Horg Hfresh Hq Ht Hpw Hfn Hln
    Htne Hpne Hfne Hlne Hq' d1 week.
  set (inv := invitation_sent sys req user email d).
  assert (Hd1 : user_invitations d1 = user_invitations d ++ [inv]
                /\ users d1 = users d /\ organizations d1 = organizations d
                /\ next_user_id d1 = next_user_id d
                /\ weight_string d1 = weight_string d).
  { subst d1.
    rewrite (post_invite_run sys req user email d fs Hu Hp He Hne Hfree
               Hnone Hq).
    repeat split. }
  destruct Hd1 as (Hinv & Husers & Horgs & Hnext & Hweight). clearbody d1.
  split.
  - intros Hlive.
    assert (Hdes : designates (uuidv4 sys) inv d1).
    { split.
      - rewrite Hinv. apply in_or_app. right. now left.
      - intros ui Hin Htok. rewrite Hinv in Hin.
        apply in_app_or in Hin as [Hin|[<-|[]]]; [|reflexivity].
        exfalso. exact (Hfresh ui Hin Htok). }
    assert (Hpend : pending sys' inv = true).
    { apply pending_spec. split; [reflexivity|]. cbn. subst week. lia. }
    assert (Hex : organization_exists (Invitation.organization_id inv) d1).
    { destruct Horg as (o & Ho & Hid). exists o. now rewrite Horgs. }
    destruct (SELECT_valid_invitations_first sys' (uuidv4 sys) d1 inv Hdes
                eq_refl Hpend Hex) as (name & rest & Hsel).
    rewrite (accept_invitation_run sys' req' d1 fs' (uuidv4 sys) password
               firstName lastName inv name rest); try assumption.
    + cbn [fst snd Res.status after_acceptance set_audit_logs
             set_user_invitations set_users users].
      split; [reflexivity|]. rewrite Husers. unfold registered_user.
      now rewrite Hnext.
    + intros (u & Hin & Hmail). apply Hfree. exists u.
      rewrite Husers in Hin. split; [exact Hin|].
      unfold same_text in *. now rewrite <- Hweight.
  - intros Hdead.
    assert (Hsel : SELECT_valid_invitations sys' (uuidv4 sys) d1 = []).
    { destruct (SELECT_valid_invitations sys' (uuidv4 sys) d1) as [|r l] eqn:E;
        [reflexivity|].
      assert (Hin : In r (SELECT_valid_invitations sys' (uuidv4 sys) d1))
        by (rewrite E; now left).
      apply SELECT_valid_invitations_In in Hin as (Hin & Htok & Hpend).
      rewrite Hinv in Hin. apply in_app_or in Hin as [Hin|[Heq|[]]].
      - exfalso. exact (Hfresh _ Hin Htok).
      - exfalso. rewrite <- Heq in Hpend.
        apply pending_spec in Hpend as [_ Hpend]. cbn in Hpend.
        subst week. lia. }
    destruct (accept_invitation_rejected sys' req' d1 fs' (uuidv4 sys) Ht Hsel)
      as [Hkeep Hstatus].
    split; [now apply Hstatus|exact Hkeep].
Qed.

(** Alice invites Eve at 1000; the acceptance comes one second before
    the week is over. *)
Lemma invitation_lives_seven_days_witness :
  Res.status
    (run post_accept_invitation
       (mkSys 604800000 0 604800000 "" [] (fun rows => rows))
       (Example.accept_request "token-1") Example.invited_once []).1
  = 200
  /\ users
       (run post_accept_invitation
          (mkSys 604800000 0 604800000 "" [] (fun rows => rows))
          (Example.accept_request "token-1") Example.invited_once []).2
     = users Example.store ++
       [User.mk 4 1 "eve@mail.io" (Bcrypt 12 "s3cret") "Eve" "E" "manager"
          "active"].
Proof.
  assert (~ email_taken "eve@mail.io" Example.store) as Hfree.
  { intros (u & Hu & He). vm_compute in Hu.
    repeat (destruct Hu as [<-|Hu]; [vm_compute in He; discriminate|]).
    destruct Hu. }
  assert (~ invitation_pending (Example.sys "token-1" []) "eve@mail.io" 1
            Example.store) as Hnone.
  { intros (ui & [] & _). }
  assert (organization_exists 1 Example.store) as Horg.
  { eexists. split; [left; reflexivity|reflexivity]. }
  assert (forall ui, In ui (user_invitations Example.store) ->
                     Invitation.token ui <> "token-1") as Hfresh
    by (intros ui []).
  assert ("token-1" <> "" /\ "s3cret" <> "" /\ "Eve" <> "" /\ "E" <> ""
          /\ "eve@mail.io" <> "")
    as (H1 & H2 & H3 & H4 & H5) by (repeat split; discriminate).
  destruct (invitation_lives_seven_days (Example.sys "token-1" [])
              (Example.invite_request Example.alice) Example.alice
              "eve@mail.io" Example.store []
              (mkSys 604800000 0 604800000 "" [] (fun rows => rows))
              (Example.accept_request "token-1") [] "s3cret" "Eve" "E"
              eq_refl eq_refl eq_refl H5 eq_refl Hfree Hnone Horg Hfresh
              eq_refl eq_refl eq_refl eq_refl eq_refl H1 H2 H3 H4 eq_refl)
    as (H & _).
  apply H. cbn. lia.
Defined.

(** ** Role update, deactivation and cancellation, step by step *)

Section Steps.
Variable sql_int : string -> option Z.

Lemma delete_invitation_run sys req user d fs ui l :
  Req.user req = Some user ->
  has_permission "manage_users" user = true ->
  SELECT_invitation_in_organization sql_int
    (field "invitationId" (Req.params req)) (AuthUser.organizationId user) d
  = ui :: l ->
  quiet fs ->
  run (delete_invitation sql_int) sys req d fs
  = (Res.mk 200 (Message "Invitation cancelled successfully"),
     set_audit_logs
       (audit_logs d ++
        [AuditLog.mk (next_audit_id d) (AuthUser.organizationId user)
           (AuthUser.id user) "invitation_cancelled" "user_invitation"
           (SqlStr <$> field "invitationId" (Req.params req))
           (Some (JObj [("email", JStr (Invitation.email ui))])) None
           (Some (Req.ip req)) (NOW sys)])
       (next_audit_id d + 1)
       (set_user_invitations
          (List.filter
             (fun x => negb (id_matches sql_int
                               (field "invitationId" (Req.params req))
                               (Invitation.id x)))
             (user_invitations d))
          (next_invitation_id d) d)).
Proof.
  intros Hu Hp Hsel Hq.
  unfold run, delete_invitation, authenticateToken, requirePermission,
    try_catch, bind, req_user, DELETE_invitation, INSERT_INTO_audit_logs,
    query, select, exec, respond_json, respond, ret.
  rewrite Hu, Hp.
  destruct fs as [|[] [|[] [|[] fs]]]; cbn in Hq; try discriminate;
    cbn; rewrite Hsel; reflexivity.
Qed.

Lemma put_role_run sys req user d fs u l :
  Req.user req = Some user ->
  has_permission "manage_users" user = true ->
  valid_role (field "role" (Req.body req)) = true ->
  SELECT_user_in_organization sql_int (field "userId" (Req.params req))
    (AuthUser.organizationId user) d
  = u :: l ->
  quiet fs ->
  run (put_role sql_int) sys req d fs
  = (Res.mk 200 (Message "User role updated successfully"),
     set_audit_logs
       (audit_logs d ++
        [AuditLog.mk (next_audit_id d) (AuthUser.organizationId user)
           (AuthUser.id user) "user_role_updated" "user"
           (SqlStr <$> field "userId" (Req.params req))
           (Some (JObj [("role", JStr (User.role u))]))
           (Some (JObj (prop "role" (field "role" (Req.body req)))))
           (Some (Req.ip req)) (NOW sys)])
       (next_audit_id d + 1)
       (set_users
          (map (fun x =>
                  if id_matches sql_int (field "userId" (Req.params req))
                       (User.id x)
                  then User.set_role
                         (default "" (field "role" (Req.body req))) x
                  else x)
             (users d))
          (next_user_id d) d)).
Proof.
  intros Hu Hp Hrole Hsel Hq.
  unfold run, put_role, authenticateToken, requirePermission,
    try_catch, bind, req_user, UPDATE_user_role, INSERT_INTO_audit_logs,
    query, select, exec, respond_json, respond, ret.
  rewrite Hu, Hp, Hrole.
  destruct fs as [|[] [|[] [|[] fs]]]; cbn in Hq; try discriminate;
    cbn; rewrite Hsel; reflexivity.
Qed.

(** The deactivation under a fault schedule [fs] that lets the look-up and
    the UPDATE through: the audit insert is the third statement. *)
Lemma put_deactivate_run sys req user d fs u l :
  Req.user req = Some user ->
  has_permission "manage_users" user = true ->
  SELECT_user_in_organization sql_int (field "userId" (Req.params req))
    (AuthUser.organizationId user) d
  = u :: l ->
  is_current_user (field "userId" (Req.params req)) user = false ->
  nth 0 fs false = false -> nth 1 fs false = false ->
  let updated :=
    set_users
      (map (fun x =>
              if id_matches sql_int (field "userId" (Req.params req))
                   (User.id x)
              then User.set_status "inactive" x
              else x)
         (users d))
      (next_user_id d) d in
  run (put_deactivate sql_int) sys req d fs
  = if nth 2 fs false
    then (Res.mk 500 (ErrorBody "Failed to deactivate user"), updated)
    else
      (Res.mk 200 (Message "User deactivated successfully"),
       set_audit_logs
         (audit_logs d ++
          [AuditLog.mk (next_audit_id d) (AuthUser.organizationId user)
             (AuthUser.id user) "user_deactivated" "user"
             (SqlStr <$> field "userId" (Req.params req)) None
             (Some (JObj [("status", JStr "inactive")]))
             (Some (Req.ip req)) (NOW sys)])
         (next_audit_id d + 1) updated).
Proof.
  intros Hu Hp Hsel Hself H0 H1 updated. subst updated.
  unfold run, put_deactivate, authenticateToken, requirePermission,
    try_catch, bind, req_user, UPDATE_user_inactive, INSERT_INTO_audit_logs,
    query, select, exec, respond_json, respond, ret.
  rewrite Hu, Hp.
  destruct fs as [|[] [|[] [|[] fs]]]; cbn in H0, H1; try discriminate;
    cbn; rewrite Hsel, Hself; reflexivity.
Qed.

End Steps.

Lemma quiet_nth fs i : quiet fs -> nth i fs false = false.
Proof.
  unfold quiet. revert i. induction fs as [|[] fs IH]; intros [|i] H;
    cbn in *; try easy. now apply IH.
Qed.

Section TargetRow.
Variable sql_int : string -> option Z.

Lemma id_matches_eqb p a b :
  id_matches sql_int p b = true -> id_matches sql_int p a = (a =? b).
Proof.
  unfold id_matches. destruct (p ≫= sql_int) as [n|]; [|discriminate].
  now intros ->%Z.eqb_eq.
Qed.

(** With ids a key, the look-up by id and organization finds the target
    first. *)
Lemma SELECT_user_in_organization_target p O d target :
  NoDup (map User.id (users d)) ->
  In target (users d) ->
  User.organization_id target = O ->
  id_matches sql_int p (User.id target) = true ->
  exists l, SELECT_user_in_organization sql_int p O d = target :: l.
Proof.
  intros Hkey Hin HO Hm.
  destruct (SELECT_user_in_organization sql_int p O d) as [|u l] eqn:E.
  - exfalso.
    assert (In target (SELECT_user_in_organization sql_int p O d)) as H.
    { apply filter_In. split; [exact Hin|]. rewrite Hm. cbn.
      now apply Z.eqb_eq. }
    now rewrite E in H.
  - exists l. f_equal.
    assert (In u (SELECT_user_in_organization sql_int p O d)) as H
      by (rewrite E; now left).
    apply filter_In in H as [Hu [Hmu _]%andb_true_iff].
    apply (NoDup_key_inj User.id (users d)); try assumption.
    now apply (id_matches_same sql_int p).
Qed.

(** X25. A cancelled invitation cannot be accepted. After a successful
    DELETE /api/users/invitations/:id of the one invitation carrying a
    token, the invitation is gone, and an acceptance with that token is
    answered 400 and changes nothing, whatever the clock reads. *)
Theorem cancelled_invitation_dead sys req user d fs inv sys' req' fs' :
  Req.user req = Some user ->
  has_permission "manage_users" user = true ->
  designates (Invitation.token inv) inv d ->
  Invitation.organization_id inv = AuthUser.organizationId user ->
  id_matches sql_int (field "invitationId" (Req.params req))
    (Invitation.id inv) = true ->
  quiet fs ->
  field "token" (Req.body req') = Some (Invitation.token inv) ->
  quiet fs' ->
  let d1 := (run (delete_invitation sql_int) sys req d fs).2 in
  Res.status (run (delete_invitation sql_int) sys req d fs).1 = 200
  /\ ~ In inv (user_invitations d1)
  /\ Res.status (run post_accept_invitation sys' req' d1 fs').1 = 400
  /\ (run post_accept_invitation sys' req' d1 fs').2 = d1.
Proof.
  intros Hu Hp [Hin Hone] HO Hm Hq Ht Hq' d1.
  destruct (SELECT_invitation_in_organization sql_int
              (field "invitationId" (Req.params req))
              (AuthUser.organizationId user) d) as [|ui l] eqn:Hsel.
  { exfalso.
    assert (In inv (SELECT_invitation_in_organization sql_int
                      (field "invitationId" (Req.params req))
                      (AuthUser.organizationId user) d)) as H.
    { apply filter_In. split; [exact Hin|]. rewrite Hm. cbn.
      now apply Z.eqb_eq. }
    now rewrite Hsel in H. }
  subst d1.
  rewrite (delete_invitation_run sql_int sys req user d fs ui l Hu Hp Hsel Hq).
  cbn [fst snd Res.status].
  set (d1 := set_audit_logs _ _ _).
  assert (Hgone : ~ In inv (user_invitations d1)).
  { subst d1. cbn. intros [_ H]%filter_In. now rewrite Hm in H. }
  assert (Hnone : SELECT_valid_invitations sys' (Invitation.token inv) d1 = []).
  { destruct (SELECT_valid_invitations sys' (Invitation.token inv) d1)
      as [|r rest] eqn:E; [reflexivity|]. exfalso.
    assert (In r (SELECT_valid_invitations sys' (Invitation.token inv) d1))
      as H by (rewrite E; now left).
    apply SELECT_valid_invitations_In in H as (H & Htok & _).
    apply Hgone. rewrite <- (Hone r.1); [exact H| |exact Htok].
    subst d1. cbn in H. now apply filter_In in H. }
  destruct (accept_invitation_rejected sys' req' d1 fs' _ Ht Hnone)
    as [Hkeep Hstatus].
  repeat split; auto.
Qed.

(** X26. A successful role update writes the role of the target and of no
    one else. With user ids a key, a valid role and a target of the
    caller's organization, the answer is 200, the target's row gets the
    role, every other row is what it was, and the audit entry records the
    role the target had and the one it got. *)
Theorem role_update_writes_role sys req user d fs target role :
  Req.user req = Some user ->
  has_permission "manage_users" user = true ->
  field "role" (Req.body req) = Some role ->
  valid_role (Some role) = true ->
  NoDup (map User.id (users d)) ->
  In target (users d) ->
  User.organization_id target = AuthUser.organizationId user ->
  id_matches sql_int (field "userId" (Req.params req)) (User.id target)
  = true ->
  quiet fs ->
  let d' := (run (put_role sql_int) sys req d fs).2 in
  Res.status (run (put_role sql_int) sys req d fs).1 = 200
  /\ users d'
     = map (fun x => if User.id x =? User.id target
                     then User.set_role role x else x) (users d)
  /\ exists e,
       audit_logs d' = audit_logs d ++ [e]
       /\ AuditLog.action e = "user_role_updated"
       /\ AuditLog.old_values e
          = Some (JObj [("role", JStr (User.role target))])
       /\ AuditLog.new_values e = Some (JObj [("role", JStr role)]).
Proof.
  intros Hu Hp Hrole Hvalid Hkey Hin HO Hm Hq d'.
  destruct (SELECT_user_in_organization_target _ _ d target Hkey Hin HO Hm)
    as (l & Hsel).
  subst d'.
  rewrite (put_role_run sql_int sys req user d fs target l Hu Hp)
    by (rewrite ?Hrole; assumption).
  rewrite Hrole. cbn [fst snd Res.status set_audit_logs set_users users
                      audit_logs]. split; [reflexivity|]. split.
  - apply map_ext. intros x.
    now rewrite (id_matches_eqb _ _ _ Hm).
  - eexists. split; [reflexivity|]. now cbn.
Qed.

(** X27. A successful deactivation sets the status of the target to
    inactive and touches no one else: with user ids a key and a target of
    the caller's organization whose id does not parse to the caller's own,
    the answer is 200, the target's row is inactive, every other row is
    what it was, and one user_deactivated entry is appended. *)
Theorem deactivate_sets_inactive sys req user d fs target :
  Req.user req = Some user ->
  has_permission "manage_users" user = true ->
  NoDup (map User.id (users d)) ->
  In target (users d) ->
  User.organization_id target = AuthUser.organizationId user ->
  id_matches sql_int (field "userId" (Req.params req)) (User.id target)
  = true ->
  is_current_user (field "userId" (Req.params req)) user = false ->
  quiet fs ->
  let d' := (run (put_deactivate sql_int) sys req d fs).2 in
  Res.status (run (put_deactivate sql_int) sys req d fs).1 = 200
  /\ users d'
     = map (fun x => if User.id x =? User.id target
                     then User.set_status "inactive" x else x) (users d)
  /\ exists e,
       audit_logs d' = audit_logs d ++ [e]
       /\ AuditLog.action e = "user_deactivated".
Proof.
  intros Hu Hp Hkey Hin HO Hm Hself Hq d'.
  destruct (SELECT_user_in_organization_target _ _ d target Hkey Hin HO Hm)
    as (l & Hsel).
  subst d'.
  rewrite (put_deactivate_run sql_int sys req user d fs target l Hu Hp Hsel
             Hself (quiet_nth fs 0 Hq) (quiet_nth fs 1 Hq)).
  rewrite (quiet_nth fs 2 Hq).
  cbn [fst snd Res.status set_audit_logs set_users users audit_logs].
  split; [reflexivity|]. split.
  - apply map_ext. intros x. now rewrite (id_matches_eqb _ _ _ Hm).
  - eexists. split; reflexivity.
Qed.

(** X28. The deactivation is not atomic. When the UPDATE goes through and
    the audit insert is rejected, the answer is 500
    {error: "Failed to deactivate user"}, yet the target stays inactive
    and the audit log has no entry of it: nothing rolls the UPDATE back. *)
Theorem deactivate_not_atomic sys req user d fs target :
  Req.user req = Some user ->
  has_permission "manage_users" user = true ->
  NoDup (map User.id (users d)) ->
  In target (users d) ->
  User.organization_id target = AuthUser.organizationId user ->
  id_matches sql_int (field "userId" (Req.params req)) (User.id target)
  = true ->
  is_current_user (field "userId" (Req.params req)) user = false ->
  nth 0 fs false = false -> nth 1 fs false = false ->
  nth 2 fs false = true ->
  let d' := (run (put_deactivate sql_int) sys req d fs).2 in
  (run (put_deactivate sql_int) sys req d fs).1
  = Res.mk 500 (ErrorBody "Failed to deactivate user")
  /\ In (User.set_status "inactive" target) (users d')
  /\ audit_logs d' = audit_logs d.
Proof.
  intros Hu Hp Hkey Hin HO Hm Hself H0 H1 H2 d'.
  destruct (SELECT_user_in_organization_target _ _ d target Hkey Hin HO Hm)
    as (l & Hsel).
  subst d'.
  rewrite (put_deactivate_run sql_int sys req user d fs target l Hu Hp Hsel
             Hself H0 H1), H2.
  cbn [fst snd set_users users audit_logs].
  split; [reflexivity|]. split; [|reflexivity].
  apply in_map_iff. exists target. now rewrite Hm.
Qed.

End TargetRow.

Lemma cancelled_invitation_dead_witness :
  Res.status
    (run post_accept_invitation (Example.sys "" [])
       (Example.accept_request "token-1")
       (run (delete_invitation Example.decimal_id) (Example.sys "" [])
          Scenario.cancel_request Example.invited_once []).2 []).1
  = 400.
Proof.
  assert (designates "token-1" Example.invitation_1 Example.invited_once)
    as Hdes.
  { split; [left; reflexivity|].
    intros ui Hin _. vm_compute in Hin. destruct Hin as [<-|[]]. reflexivity. }
  destruct (cancelled_invitation_dead Example.decimal_id (Example.sys "" [])
              Scenario.cancel_request Example.alice Example.invited_once []
              Example.invitation_1 (Example.sys "" [])
              (Example.accept_request "token-1") []
              eq_refl eq_refl Hdes eq_refl eq_refl eq_refl eq_refl eq_refl)
    as (_ & _ & H & _).
  exact H.
Defined.

Lemma role_update_writes_role_witness :
  users (run (put_role Example.decimal_id) (Example.sys "" [])
           Scenario.bob_request Example.store []).2
  = map (fun x => if User.id x =? 2 then User.set_role "manager" x else x)
      (users Example.store).
Proof.
  assert (NoDup (map User.id (users Example.store))) as store_users_key
    by (apply (bool_decide_unpack _); vm_compute; exact I).
  assert (In Scenario.bob_row (users Example.store)) as bob_in_store
    by (right; left; reflexivity).
  destruct (role_update_writes_role Example.decimal_id (Example.sys "" [])
              Scenario.bob_request Example.alice Example.store []
              Scenario.bob_row "manager" eq_refl eq_refl eq_refl eq_refl
              store_users_key bob_in_store eq_refl eq_refl eq_refl)
    as (_ & H & _).
  exact H.
Defined.

Lemma deactivate_sets_inactive_witness :
  users (run (put_deactivate Example.decimal_id) (Example.sys "" [])
           Scenario.bob_request Example.store []).2
  = map (fun x => if User.id x =? 2 then User.set_status "inactive" x else x)
      (users Example.store).
Proof.
  assert (NoDup (map User.id (users Example.store))) as store_users_key
    by (apply (bool_decide_unpack _); vm_compute; exact I).
  assert (In Scenario.bob_row (users Example.store)) as bob_in_store
    by (right; left; reflexivity).
  destruct (deactivate_sets_inactive Example.decimal_id (Example.sys "" [])
              Scenario.bob_request Example.alice Example.store []
              Scenario.bob_row eq_refl eq_refl store_users_key bob_in_store
              eq_refl eq_refl eq_refl eq_refl)
    as (_ & H & _).
  exact H.
Defined.

(** The driver rejects the third statement, the audit insert. *)
Lemma deactivate_not_atomic_witness :
  (run (put_deactivate Example.decimal_id) (Example.sys "" [])
     Scenario.bob_request Example.store [false; false; true]).1
  = Res.mk 500 (ErrorBody "Failed to deactivate user")
  /\ In (User.set_status "inactive" Scenario.bob_row)
       (users (run (put_deactivate Example.decimal_id) (Example.sys "" [])
                 Scenario.bob_request Example.store [false; false; true]).2)
  /\ audit_logs (run (put_deactivate Example.decimal_id) (Example.sys "" [])
                   Scenario.bob_request Example.store [false; false; true]).2
     = audit_logs Example.store.
Proof.
  assert (NoDup (map User.id (users Example.store))) as store_users_key
    by (apply (bool_decide_unpack _); vm_compute; exact I).
  assert (In Scenario.bob_row (users Example.store)) as bob_in_store
    by (right; left; reflexivity).
  exact (deactivate_not_atomic Example.decimal_id (Example.sys "" [])
           Scenario.bob_request Example.alice Example.store
           [false; false; true] Scenario.bob_row eq_refl eq_refl
           store_users_key bob_in_store eq_refl eq_refl eq_refl eq_refl
           eq_refl eq_refl).
Defined.
